(** * Roma BYOB: the worker launcher, its sample UDFs and the wire framing

    A shallow embedding of

    - [src/roma/byob/container/run_workers.cc]: [WorkerImpl],
      [ConnectSendCloneAndExec] and [main] (load loop, reloader thread,
      shutdown loop);
    - [src/roma/byob/udf/payload_read.cc]: the sample UDF's [main];
    - the gvisor sample binary: [RunPrimeSieve], the callbacks and [main];
    - [src/roma/byob/tools/shell_evaluator.cc]: [ShellEvaluator::EvalAndPrint];

    followed by the properties of the specification that concern them and
    by further properties of the code. *)

From Stdlib Require Import ZArith Znumtheory Lia Sorting.Sorted Ascii String.
From stdpp Require Import gmap strings list fin_maps.

Local Open Scope Z_scope.

(* ===================================================================== *)
(** * Part I: the embedding                                                *)
(* ===================================================================== *)

(** ** The prime sieve of the sample binary *)

Module Sieve.

(** [BinaryResponse] of roma_binary.proto, restricted to the two fields
    the sample binary fills in. *)
Record BinaryResponse := mkBinaryResponse {
  greeting : string;
  prime_number : list Z
}.

Definition empty_response : BinaryResponse :=
  {| greeting := ""; prime_number := [] |}.

(** [bin_response.add_prime_number(i)]: append to the repeated field. *)
Definition add_prime_number (i : Z) (r : BinaryResponse) : BinaryResponse :=
  {| greeting := greeting r; prime_number := prime_number r ++ [i] |}.

(** [constexpr int kPrimeCount = 100'000;] *)
Definition kPrimeCount : Z := 100000.

(** Loops carry a fuel; a loop that runs out of fuel yields [None], so
    [Some] results are results of the loop's own exit test. *)

(** [for (int j = i * i; j <= kPrimeCount; j += i) primes[j] = false;]
    entered at [j]. *)
Fixpoint strike_loop (fuel : nat) (n i j : Z) (primes : list bool)
  : option (list bool) :=
  match fuel with
  | O => None
  | S fuel' =>
      if j <=? n
      then strike_loop fuel' n i (j + i) (<[Z.to_nat j := false]> primes)
      else Some primes
  end.

(** [for (int i = 2; i <= sqrt(kPrimeCount); i++) if (primes[i]) ...]
    entered at [i]. The comparison of the integer [i] with the double
    [sqrt(n)] holds exactly when [i] is at most the integer square root. *)
Fixpoint outer_loop (fuel : nat) (n i : Z) (primes : list bool)
  : option (list bool) :=
  match fuel with
  | O => None
  | S fuel' =>
      if i <=? Z.sqrt n
      then
        match primes !! Z.to_nat i with
        | Some true =>
            match strike_loop (S (Z.to_nat n)) n i (i * i) primes with
            | Some primes' => outer_loop fuel' n (i + 1) primes'
            | None => None
            end
        | Some false => outer_loop fuel' n (i + 1) primes
        | None => None
        end
      else Some primes
  end.

(** [for (int i = 2; i <= kPrimeCount; i++)
      if (primes[i]) bin_response.add_prime_number(i);] entered at [i]. *)
Fixpoint collect_loop (fuel : nat) (n i : Z) (primes : list bool)
    (r : BinaryResponse) : option BinaryResponse :=
  match fuel with
  | O => None
  | S fuel' =>
      if i <=? n
      then
        match primes !! Z.to_nat i with
        | Some true => collect_loop fuel' n (i + 1) primes (add_prime_number i r)
        | Some false => collect_loop fuel' n (i + 1) primes r
        | None => None
        end
      else Some r
  end.

(** The body of [RunPrimeSieve] for a bound [n]. *)
Definition sieve (n : Z) (r : BinaryResponse) : option BinaryResponse :=
  let primes := replicate (Z.to_nat (n + 1)) true in
  let primes := <[0%nat := false]> primes in
  let primes := <[1%nat := false]> primes in
  match outer_loop (S (Z.to_nat n)) n 2 primes with
  | Some primes => collect_loop (S (Z.to_nat n)) n 2 primes r
  | None => None
  end.

Definition RunPrimeSieve (bin_response : BinaryResponse) : option BinaryResponse :=
  sieve kPrimeCount bin_response.

(** *** One-pass formulations, used to evaluate the sieve

    [mark p s l] clears, in a single traversal of [l], the positions
    [s], [s + p], [s + 2 p], ... *)
Fixpoint mark (p s : nat) (l : list bool) : list bool :=
  match l with
  | [] => []
  | b :: l' =>
      match s with
      | O => false :: mark p (p - 1) l'
      | S s' => b :: mark p s' l'
      end
  end.

Fixpoint outer_pass (fuel : nat) (n i : Z) (primes : list bool)
  : option (list bool) :=
  match fuel with
  | O => None
  | S fuel' =>
      if i <=? Z.sqrt n
      then
        match primes !! Z.to_nat i with
        | Some true =>
            outer_pass fuel' n (i + 1)
              (mark (Z.to_nat i) (Z.to_nat (i * i)) primes)
        | Some false => outer_pass fuel' n (i + 1) primes
        | None => None
        end
      else Some primes
  end.

(** The indices of the set positions of [l], whose head has index [k]. *)
Fixpoint collect_from (k : Z) (l : list bool) : list Z :=
  match l with
  | [] => []
  | b :: l' =>
      if b then k :: collect_from (k + 1) l' else collect_from (k + 1) l'
  end.

Definition sieve_pass (n : Z) : option (list Z) :=
  let primes := replicate (Z.to_nat (n + 1)) true in
  let primes := <[0%nat := false]> primes in
  let primes := <[1%nat := false]> primes in
  match outer_pass (S (Z.to_nat n)) n 2 primes with
  | Some primes => Some (collect_from 2 (drop 2 primes))
  | None => None
  end.

(** Position [k] is among [s], [s + p], [s + 2 p], ... *)
Definition struckb (p s k : nat) : bool :=
  ((s <=? k) && ((k - s) mod p =? 0))%nat.

(** The invariant of the outer loop: before the iteration for [i], position [k] is still set exactly when
    [k >= 2] has no divisor [d] with [2 <= d < i] and [d * d <= k]. *)
Definition sieved (n i : Z) (l : list bool) : Prop :=
  length l = Z.to_nat (n + 1) /\
  forall k, 0 <= k <= n ->
    (l !! Z.to_nat k = Some true ->
       2 <= k /\ forall d, 2 <= d < i -> d * d <= k -> ~ (d | k)) /\
    (l !! Z.to_nat k = Some false ->
       k < 2 \/ exists d, 2 <= d < i /\ d * d <= k /\ (d | k)).

End Sieve.

(** ** Decimal text and paths *)

Module Text.

Definition char_code (c : ascii) : Z := Z.of_N (Ascii.N_of_ascii c).
Definition digit_char (d : Z) : ascii := Ascii.ascii_of_N (Z.to_N (48 + d)).
Definition is_digit (c : ascii) : bool :=
  (48 <=? char_code c) && (char_code c <=? 57).
(** [isspace] in the C locale: space, and \t \n \v \f \r. *)
Definition is_space (c : ascii) : bool :=
  (char_code c =? 32) || ((9 <=? char_code c) && (char_code c <=? 13)).

Definition INT_MIN : Z := - 2 ^ 31.
Definition INT_MAX : Z := 2 ^ 31 - 1.

(** The decimal digits of [n >= 0], most significant first, in front of
    [acc]. *)
Fixpoint decimal (fuel : nat) (n : Z) (acc : string) : string :=
  match fuel with
  | O => acc
  | S fuel' =>
      let acc' := String (digit_char (n mod 10)) acc in
      if n / 10 =? 0 then acc' else decimal fuel' (n / 10) acc'
  end.

(** [absl::StrCat(int)]: the decimal representation of a 32-bit integer
    (at most ten digits). *)
Definition StrCat_int (n : Z) : string :=
  if n <? 0 then String "-" (decimal 10 (- n) "") else decimal 10 n "".

Fixpoint skip_spaces (s : string) : string :=
  match s with
  | String c r => if is_space c then skip_spaces r else s
  | EmptyString => s
  end.

(** The value of the longest prefix of digits of [s], continuing [v]. *)
Fixpoint parse_digits (s : string) (v : Z) : Z :=
  match s with
  | String c r =>
      if is_digit c then parse_digits r (10 * v + (char_code c - 48)) else v
  | EmptyString => v
  end.


Definition starts_with_digit (s : string) : bool :=
  match s with
  | String c _ => is_digit c
  | EmptyString => false
  end.

(** [std::stoi(str)]: leading white space, an optional sign, then the
    longest run of decimal digits; what follows is ignored. [None] stands
    for the exceptions [std::invalid_argument] (no digit) and
    [std::out_of_range] (not an [int]). *)
Definition stoi (s : string) : option Z :=
  let s := skip_spaces s in
  let '(negative, s) :=
    match s with
    | String "-" r => (true, r)
    | String "+" r => (false, r)
    | _ => (false, s)
    end in
  if starts_with_digit s then
    let v := parse_digits s 0 in
    let v := if negative : bool then - v else v in
    if (INT_MIN <=? v) && (v <=? INT_MAX) then Some v else None
  else None.

(** [std::filesystem::path::operator/] for a relative right operand. *)
Definition path_join (dir name : string) : string := dir +:+ "/" +:+ name.

(** [s] up to, and without, its last ['/'] ([None]: no ['/'] in [s]). *)
Fixpoint before_last_slash (s : string) : option string :=
  match s with
  | EmptyString => None
  | String c r =>
      match before_last_slash r with
      | Some d => Some (String c d)
      | None => if Ascii.eqb c "/" then Some EmptyString else None
      end
  end.

(** [std::filesystem::path::parent_path] of a normalised path. *)
Definition parent_path (p : string) : string :=
  match before_last_slash p with
  | Some EmptyString => "/"
  | Some d => d
  | None => ""
  end.

End Text.

(** ** Framing of messages on a stream *)

Module Framing.

(** The sources frame messages by calling
    [ParseDelimitedFromZeroCopyStream] and
    [SerializeDelimitedToFileDescriptor] of
    google/protobuf/util/delimited_message_util.h, which they do not
    contain. The definitions below follow section 4.1 of the specification,
    which describes that framing. Bytes are integers in [0, 256). *)

(** Modelled from the spec: the default cap on the length of a frame, 64
    MiB (section 4.1); the framing functions are missing from the sources. *)
Definition kDefaultCap : Z := 64 * 2 ^ 20.

(** Modelled from the spec: the "little-endian varint" of section 4.1, the
    encoder being missing from the sources: seven bits per byte, the least
    significant group first, the high bit set on every byte but the last.
    Ten bytes hold any 64-bit value. *)
Fixpoint varint (fuel : nat) (value : Z) : list Z :=
  match fuel with
  | O => []
  | S fuel' =>
      if value <? 128 then [value]
      else (128 + value mod 128) :: varint fuel' (value / 128)
  end.

(** Modelled from the spec: the length prefix of a frame (section 4.1),
    missing from the sources. *)
Definition encode_length (n : Z) : list Z := varint 10 n.

Inductive Deframed :=
| Frame (payload rest : list Z)
| PeerClosed
| Malformed.

Inductive Varint :=
| Value (v : Z) (rest : list Z)
| Truncated
| TooLong.

(** Modelled from the spec: reading the varint of section 4.1 back, the
    decoder being missing from the sources. *)
Fixpoint read_varint (fuel : nat) (input : list Z) : Varint :=
  match fuel with
  | O => TooLong
  | S fuel' =>
      match input with
      | [] => Truncated
      | b :: rest =>
          if b <? 128 then Value b rest
          else
            match read_varint fuel' rest with
            | Value v rest' => Value ((b - 128) + 128 * v) rest'
            | e => e
            end
      end
  end.

(** Modelled from the spec: writing a message "prefixed by a little-endian
    varint length" (section 4.1), what
    [SerializeDelimitedToFileDescriptor], missing from the sources, does;
    nothing is written for a payload above the cap. *)
Definition frame (cap : Z) (payload : list Z) : option (list Z) :=
  let n := Z.of_nat (length payload) in
  if n <=? cap then Some (encode_length n ++ payload) else None.

(** Modelled from the spec: reading one message (section 4.1), what
    [ParseDelimitedFromZeroCopyStream], missing from the sources, does:
    [PeerClosed] on the end of the stream before a complete frame,
    [Malformed] on a length above the cap. *)
Definition deframe (cap : Z) (input : list Z) : Deframed :=
  match read_varint 10 input with
  | Value n rest =>
      if cap <? n then Malformed
      else if Z.of_nat (length rest) <? n then PeerClosed
      else Frame (take (Z.to_nat n) rest) (drop (Z.to_nat n) rest)
  | Truncated => PeerClosed
  | TooLong => Malformed
  end.

(** The frame format as section 6 of the specification words it: the
    length as eight bytes, least significant first, then the payload. *)
Fixpoint le_bytes (count : nat) (n : Z) : list Z :=
  match count with
  | O => []
  | S count' => n mod 256 :: le_bytes count' (n / 256)
  end.

Definition frame_le64 (payload : list Z) : list Z :=
  le_bytes 8 (Z.of_nat (length payload)) ++ payload.

End Framing.

(** ** The worker: [WorkerImpl], the function a cloned child runs *)

Module Worker.
Import Text.

(** Flags of <sys/mount.h>. *)
Definition MS_REMOUNT : Z := 32.
Definition MS_BIND : Z := 4096.
Definition MS_REC : Z := 16384.
Definition MS_PRIVATE : Z := Z.shiftl 1 18.
Definition MS_SLAVE : Z := Z.shiftl 1 19.
Definition MNT_DETACH : Z := 2.

(** The calls into the operating system, with their arguments. *)
Inductive Syscall :=
| sys_socket
| sys_connect (fd : Z) (sun_path : string)
| sys_write (fd : Z) (buf : string) (count : Z)
| sys_mount (source : option string) (target : string)
            (fstype : option string) (flags : Z)
| sys_create_directories (path : string)
| sys_pivot_root (new_root put_old : string)
| sys_chdir (path : string)
| sys_umount2 (target : string) (flags : Z)
| sys_dup (oldfd : Z)
| sys_execl (path : string) (argv : list string).

(** A call and the value it returned. *)
Definition Event : Type := Syscall * Z.

Record WorkerImplArg := mkWorkerImplArg {
  mounts : list string;
  pivot_root_dir : string;
  socket_name : string;
  code_token : string;
  binary_path : string
}.

(** How a run of [WorkerImpl] ends. *)
Inductive Exit :=
| Returned (code : Z)                       (* [return code;] *)
| Aborted                                   (* a failed CHECK, PCHECK or LOG(FATAL) *)
| Undefined                                 (* a read past the end of a buffer *)
| Execed (path : string) (argv : list string). (* [execl] replaced the image *)

(** A run is given the results of the operating system, [os k] being what
    the [k]-th call returns, and the calls made so far. *)
Definition Run (A : Type) : Type :=
  (nat -> Z) -> list Event -> list Event * (Exit + A).

#[global] Instance run_ret : MRet Run := fun A a os t => (t, inr a).
#[global] Instance run_bind : MBind Run := fun A B f m os t =>
  match m os t with
  | (t', inl e) => (t', inl e)
  | (t', inr a) => f a os t'
  end.

Definition syscall (c : Syscall) : Run Z := fun os t =>
  let r := os (length t) in (t ++ [(c, r)], inr r).

Definition stop {A : Type} (e : Exit) : Run A := fun os t => (t, inl e).

Definition CHECK (b : bool) : Run unit :=
  if b then mret tt else stop Aborted.

Fixpoint for_each {A : Type} (l : list A) (body : A -> Run unit) : Run unit :=
  match l with
  | [] => mret tt
  | x :: l' => body x ;; for_each l' body
  end.

(** The [count] bytes at [s.data()]. *)
Definition read_bytes (s : string) (count : nat) : option string :=
  if (String.length s <? count)%nat then None
  else Some (String.substring 0 count s).

(** [sizeof(sockaddr_un::sun_path)]. *)
Definition sun_path_size : nat := 108.

Definition ConnectToPath (fd : Z) (socket_name : string) : Run bool :=
  r ← syscall (sys_connect fd (String.substring 0 sun_path_size socket_name));
  mret (r =? 0).

(** [WorkerImpl] up to the handshake. *)
Definition WorkerImpl_connect (a : WorkerImplArg) : Run Z :=
  fd ← syscall sys_socket;
  CHECK (negb (fd =? -1));;
  connected ← ConnectToPath fd (socket_name a);
  if negb connected then stop (Returned (-1))
  else
    match read_bytes (code_token a) 36 with
    | None => stop Undefined
    | Some buf =>
        n ← syscall (sys_write fd buf 36);
        CHECK (n =? 36);;
        mret fd
    end.

(** "Set up restricted filesystem for worker using pivot_root". *)
Definition WorkerImpl_filesystem (a : WorkerImplArg) : Run unit :=
  r ← syscall (sys_mount None "/" None (Z.lor MS_REC MS_PRIVATE));
  CHECK (r =? 0);;
  for_each (mounts a) (fun mount =>
    let target := pivot_root_dir a +:+ mount in
    created ← syscall (sys_create_directories target);
    CHECK (negb (created =? 0));;
    r ← syscall (sys_mount (Some mount) target None MS_BIND);
    CHECK (r =? 0));;
  r ← syscall (sys_mount (Some (pivot_root_dir a)) (pivot_root_dir a)
                 (Some "bind") (Z.lor MS_REC MS_BIND));
  CHECK (r =? 0);;
  r ← syscall (sys_mount (Some (pivot_root_dir a)) (pivot_root_dir a)
                 (Some "bind") (Z.lor MS_REC MS_SLAVE));
  CHECK (r =? 0);;
  let pivot_dir := pivot_root_dir a +:+ "/pivot" in
  created ← syscall (sys_create_directories pivot_dir);
  CHECK (negb (created =? 0));;
  r ← syscall (sys_pivot_root (pivot_root_dir a) pivot_dir);
  CHECK (r =? 0);;
  r ← syscall (sys_chdir "/");
  CHECK (r =? 0);;
  r ← syscall (sys_umount2 "/pivot" MNT_DETACH);
  CHECK (r =? 0);;
  for_each (mounts a) (fun mount =>
    r ← syscall (sys_mount (Some mount) mount None (Z.lor MS_REMOUNT MS_BIND));
    CHECK (r =? 0));;
  let binary_dir := parent_path (binary_path a) in
  r ← syscall (sys_mount (Some binary_dir) binary_dir None
                 (Z.lor MS_REMOUNT MS_BIND));
  CHECK (r =? 0).

(** "Exec binary." *)
Definition WorkerImpl_exec (a : WorkerImplArg) (fd : Z) : Run Exit :=
  connection_fd ← syscall (sys_dup fd);
  CHECK (negb (connection_fd =? -1));;
  let argv := [binary_path a; StrCat_int connection_fd] in
  r ← syscall (sys_execl (binary_path a) argv);
  if r =? -1 then stop Aborted (* PLOG(FATAL) << "execl() failed" *)
  else stop (Execed (binary_path a) argv).

Definition WorkerImpl (a : WorkerImplArg) : Run Exit :=
  fd ← WorkerImpl_connect a;
  WorkerImpl_filesystem a;;
  WorkerImpl_exec a fd.

(** The calls of a whole run of [WorkerImpl], and how it ends. *)
Definition run_WorkerImpl (os : nat -> Z) (a : WorkerImplArg)
  : list Event * Exit :=
  match WorkerImpl a os [] with
  | (t, inl e) => (t, e)
  | (t, inr e) => (t, e)
  end.

(** Started after any calls [t], the run [m] leaves them in place and adds
    calls that satisfy [P]; when it stops, it stops as [Q] says. *)
Definition emits {A : Type} (P : Event -> Prop) (Q : Exit -> Prop) (m : Run A)
  : Prop :=
  forall os t,
    exists t',
      fst (m os t) = t ++ t' /\ Forall P t'
      /\ forall e, snd (m os t) = inl e -> Q e.

(** Classification of the calls, for the statements below. *)
Definition is_connect (e : Event) : bool :=
  match fst e with sys_connect _ _ => true | _ => false end.
Definition is_write (e : Event) : bool :=
  match fst e with sys_write _ _ _ => true | _ => false end.
Definition is_handshake (e : Event) : bool := is_connect e || is_write e.
Definition is_filesystem (e : Event) : bool :=
  match fst e with
  | sys_mount _ _ _ _ | sys_create_directories _ | sys_pivot_root _ _
  | sys_chdir _ | sys_umount2 _ _ => true
  | _ => false
  end.

(** The three calls [WorkerImpl] starts with when the socket connects. *)
Definition handshake_calls (os : nat -> Z) (a : WorkerImplArg) (buf : string)
  : list Event :=
  [ (sys_socket, os 0%nat);
    (sys_connect (os 0%nat) (String.substring 0 sun_path_size (socket_name a)),
     os 1%nat);
    (sys_write (os 0%nat) buf 36, os 2%nat) ].

(** A run in which every call succeeds, with one mount: the socket is
    descriptor 3 and its duplicate descriptor 4. *)
Definition sample_arg : WorkerImplArg :=
  {| mounts := ["/lib"];
     pivot_root_dir := "/tmp/roma_app_server_a1b2c3";
     socket_name := "/sockdir/abcd.sock";
     code_token := "0f8fad5b-d9cb-469f-a165-70867728950e";
     binary_path := "/tmp/progdir/udf" |}.
Definition sample_os (k : nat) : Z :=
  nth k [3; 0; 36; 0; 1; 0; 0; 0; 1; 0; 0; 0; 0; 0; 4; 0] 0.



End Worker.

(** ** The sample UDF of payload_read.cc *)

Module Udf.
Import Text.

Record ReadPayloadRequest := mkReadPayloadRequest {
  payloads : list (list Z)
}.
Record ReadPayloadResponse := mkReadPayloadResponse {
  payload_size : Z
}.

(** What the binary does on its descriptors. *)
Inductive Io :=
| io_read (fd : Z)
| io_write (fd : Z) (data : list Z).


(** Addition of [int64_t]. *)
Definition wrap_int64 (z : Z) : Z := (z + 2 ^ 63) mod 2 ^ 64 - 2 ^ 63.

Section Main.
(** The serialisation of the messages inside [google.protobuf.Any] is
    not part of the sources. *)
Variable unpack_request : list Z -> option ReadPayloadRequest.
Variable pack_response : ReadPayloadResponse -> list Z.
(** The bytes that can be read from each descriptor. *)
Variable input : Z -> list Z.

(** A failed parse or unpack leaves the default, empty request. *)
Definition ReadRequestFromFd (fd : Z) : list Io * ReadPayloadRequest :=
  ([io_read fd],
   match Framing.deframe Framing.kDefaultCap (input fd) with
   | Framing.Frame payload _ =>
       match unpack_request payload with
       | Some req => req
       | None => {| payloads := [] |}
       end
   | _ => {| payloads := [] |}
   end).

Definition WriteResponseToFd (fd : Z) (resp : ReadPayloadResponse) : list Io :=
  match Framing.frame Framing.kDefaultCap (pack_response resp) with
  | Some bytes => [io_write fd bytes]
  | None => []
  end.

(** [main]: the calls on descriptors and the exit code; [None] for an
    exception that leaves [main]. *)
Definition main (argv : list string) : list Io * option Z :=
  if (length argv <? 2)%nat then ([], Some (-1))
  else
    match stoi (nth 1 argv "") with
    | None => ([], None)
    | Some fd =>
        let '(reads, req) := ReadRequestFromFd fd in
        let payload_size :=
          fold_left (fun acc p => wrap_int64 (acc + Z.of_nat (length p)))
                    (payloads req) 0 in
        let response := {| payload_size := payload_size |} in
        (reads ++ WriteResponseToFd fd response, Some 0)
    end.
End Main.

End Udf.

(** ** The launcher: [main] of run_workers.cc *)

(** [LoadRequest] of dispatcher.proto, by its accessors. *)
Module Proto.
Record LoadRequest := mkLoadRequest {
  code_token : string;
  binary_content : string;
  n_workers : Z
}.
End Proto.

Module Host.
Import Text.

(** <sched.h>, <signal.h>, <sys/wait.h> and [std::filesystem::perms]. *)
Definition CLONE_VM : Z := 0x100.
Definition CLONE_VFORK : Z := 0x4000.
Definition CLONE_NEWNS : Z := 0x20000.
Definition CLONE_NEWUTS : Z := 0x4000000.
Definition CLONE_NEWIPC : Z := 0x8000000.
Definition CLONE_NEWPID : Z := 0x20000000.
Definition SIGCHLD : Z := 17.
Definition owner_read : Z := 0x100.   (* 0400 *)
Definition owner_exec : Z := 0x40.    (* 0100 *)

Definition WIFEXITED (status : Z) : bool := Z.land status 0x7f =? 0.
Definition WEXITSTATUS (status : Z) : Z := Z.shiftr (Z.land status 0xff00) 8.

Definition clone_flags : Z :=
  Z.lor CLONE_VM (Z.lor CLONE_VFORK (Z.lor CLONE_NEWIPC (Z.lor CLONE_NEWPID
    (Z.lor SIGCHLD (Z.lor CLONE_NEWUTS CLONE_NEWNS))))).

Record UdfInstanceMetadata := mkUdfInstanceMetadata {
  pivot_root_dir : string;
  code_token : string;
  binary_path : string
}.

(** The fields are [pid] and [pivot_root_dir] in the source; the second
    name is taken by [UdfInstanceMetadata]. *)
Record PidAndPivotRootDir := mkPidAndPivotRootDir {
  pid : Z;
  pid_pivot_root_dir : string
}.

Record File := mkFile {
  content : string;
  perms : Z
}.

(** What the launcher does to the outside, with the results. *)
Inductive HostEvent :=
| ev_uuid (ret : string)
| ev_ofstream (path : string) (data : string) (opened : bool)
| ev_permissions (path : string) (prms : Z)
| ev_mkdtemp (ret : option string)
| ev_clone (flags : Z) (arg : Worker.WorkerImplArg)
           (child : option (list Worker.Event * Worker.Exit)) (ret : Z)
| ev_waitpid (pid_arg : Z) (ret : Z)
| ev_kill (pid_arg : Z) (sig : Z) (ret : Z)
| ev_remove_all (path : string) (removed : bool)
| ev_log_error (msg : string).

(** The state [main] and the reloader thread share, the part of the file
    system they touch, and what they did so far. *)
Record Host := mkHost {
  pid_to_udf : gmap Z UdfInstanceMetadata;
  shutdown : bool;
  dirs : gset string;
  files : gmap string File;
  events : list HostEvent
}.

(** The results of the operating system: field [f os k] is what the call
    returns when it is the [k]-th event. *)
Record HostOs := mkHostOs {
  os_uuid : nat -> string;          (* ToString(Uuid::GenerateUuid()) *)
  os_open : nat -> bool;            (* whether std::ofstream opens the file *)
  os_umask : Z;
  os_mkdtemp : nat -> option string;
  os_clone : nat -> Z;
  os_child : nat -> (nat -> Z);     (* the results the cloned child gets *)
  os_waitpid : nat -> Z * Z;        (* the pid returned and the status *)
  os_kill : nat -> Z
}.

Inductive Res (A : Type) :=
| Ok (a : A) (h : Host)
| Crash (h : Host).                 (* a failed CHECK or an uncaught exception *)
Arguments Ok {A} a h.
Arguments Crash {A} h.

Definition HostM (A : Type) : Type := HostOs -> Host -> Res A.

#[global] Instance host_ret : MRet HostM := fun A a os h => Ok a h.
#[global] Instance host_bind : MBind HostM := fun A B f m os h =>
  match m os h with
  | Ok a h' => f a os h'
  | Crash h' => Crash h'
  end.

Definition emit (e : HostEvent) (h : Host) : Host :=
  {| pid_to_udf := pid_to_udf h; shutdown := shutdown h; dirs := dirs h;
     files := files h; events := events h ++ [e] |}.
Definition set_pid_to_udf (m : gmap Z UdfInstanceMetadata) (h : Host) : Host :=
  {| pid_to_udf := m; shutdown := shutdown h; dirs := dirs h;
     files := files h; events := events h |}.
Definition set_dirs (d : gset string) (h : Host) : Host :=
  {| pid_to_udf := pid_to_udf h; shutdown := shutdown h; dirs := d;
     files := files h; events := events h |}.
Definition set_files (f : gmap string File) (h : Host) : Host :=
  {| pid_to_udf := pid_to_udf h; shutdown := shutdown h; dirs := dirs h;
     files := f; events := events h |}.
Definition set_shutdown (b : bool) (h : Host) : Host :=
  {| pid_to_udf := pid_to_udf h; shutdown := b; dirs := dirs h;
     files := files h; events := events h |}.

Definition crash {A : Type} : HostM A := fun os h => Crash h.
Definition CHECK (b : bool) : HostM unit := if b then mret tt else crash.
Definition LOG_ERROR (msg : string) : HostM unit := fun os h =>
  Ok tt (emit (ev_log_error msg) h).

(** [ToString(google::scp::core::common::Uuid::GenerateUuid())]. *)
Definition GenerateUuid : HostM string := fun os h =>
  let u := os_uuid os (length (events h)) in Ok u (emit (ev_uuid u) h).

(** [{ std::ofstream ofs(path, std::ios::binary); ofs.write(data, size); }]:
    the file is created or truncated; nothing reports a failure. *)
Definition ofstream_write (path data : string) : HostM unit := fun os h =>
  let opened := os_open os (length (events h)) in
  let h' := emit (ev_ofstream path data opened) h in
  if opened then
    let prms :=
      match files h !! path with
      | Some f => perms f
      | None => Z.land 0x1b6 (Z.lnot (os_umask os))   (* 0666 & ~umask *)
      end in
    Ok tt (set_files (<[path := {| content := data; perms := prms |}]> (files h)) h')
  else Ok tt h'.

(** [std::filesystem::permissions(path, prms)], which replaces the
    permission bits and throws when the file does not exist. *)
Definition permissions (path : string) (prms : Z) : HostM unit := fun os h =>
  let h' := emit (ev_permissions path prms) h in
  match files h !! path with
  | Some f =>
      Ok tt (set_files (<[path := {| content := content f; perms := prms |}]> (files h)) h')
  | None => Crash h'
  end.

(** [std::filesystem::remove_all(path)]: the directory and what is below
    it; the result tells whether anything was removed. *)
Definition remove_all (path : string) : HostM bool := fun os h =>
  let removed := bool_decide (path ∈ dirs h) in
  let below := fun kv : string * File =>
                 String.prefix (path +:+ "/") (fst kv) = false in
  Ok removed
     (set_files (filter below (files h))
        (set_dirs (dirs h ∖ {[path]}) (emit (ev_remove_all path removed) h))).

Definition mkdtemp : HostM (option string) := fun os h =>
  let r := os_mkdtemp os (length (events h)) in
  let h' := emit (ev_mkdtemp r) h in
  match r with
  | Some d => Ok r (set_dirs ({[d]} ∪ dirs h) h')
  | None => Ok r h'
  end.

(** [::clone(WorkerImpl, stack, flags, &arg)]. With CLONE_VFORK the caller
    waits until the child has called [execl] or ended. *)
Definition clone (arg : Worker.WorkerImplArg) : HostM Z := fun os h =>
  let k := length (events h) in
  let r := os_clone os k in
  let child :=
    if r =? -1 then None else Some (Worker.run_WorkerImpl (os_child os k) arg) in
  Ok r (emit (ev_clone clone_flags arg child r) h).

Definition waitpid (pid_arg : Z) : HostM (Z * Z) := fun os h =>
  let r := os_waitpid os (length (events h)) in
  Ok r (emit (ev_waitpid pid_arg (fst r)) h).


Definition get_pid_to_udf : HostM (gmap Z UdfInstanceMetadata) := fun os h =>
  Ok (pid_to_udf h) h.
Definition put_pid_to_udf (m : gmap Z UdfInstanceMetadata) : HostM unit :=
  fun os h => Ok tt (set_pid_to_udf m h).

Definition put_shutdown (b : bool) : HostM unit := fun os h =>
  Ok tt (set_shutdown b h).

Definition ConnectSendCloneAndExec (mounts : list string)
    (socket_name code_token binary_path : string) : HostM PidAndPivotRootDir :=
  tmp ← mkdtemp;
  match tmp with
  | None => crash
  | Some dir =>
      let worker_impl_arg :=
        {| Worker.mounts := mounts;
           Worker.pivot_root_dir := dir;
           Worker.socket_name := socket_name;
           Worker.code_token := code_token;
           Worker.binary_path := binary_path |} in
      p ← clone worker_impl_arg;
      CHECK (negb (p =? -1));;
      mret {| pid := p; pid_pivot_root_dir := dir |}
  end.

Record MainEnv := mkMainEnv {
  socket_name : string;
  mounts : list string;             (* the flag's value and [progdir] *)
  progdir : string
}.

(** *** The reloader thread *)

Inductive LoopCtl := Continue | Break.

(** One turn of the reloader's [while (true)]. *)
Definition reloader_iteration (env : MainEnv) : HostM LoopCtl :=
  '(p, status) ← waitpid (-1);
  CHECK (negb (p =? -1));;
  table ← get_pid_to_udf;
  match table !! p with
  | None =>
      LOG_ERROR "waitpid() returned unknown pid";;
      mret Continue
  | Some udf =>
      put_pid_to_udf (delete p table);;
      if negb (WIFEXITED status) || negb (WEXITSTATUS status =? 0) then
        removed ← remove_all (pivot_root_dir udf);
        CHECK removed;;
        mret Break
      else
        pid_and_pivot_root_dir ←
          ConnectSendCloneAndExec (mounts env) (socket_name env)
                                  (code_token udf) (binary_path udf);
        removed ← remove_all (pivot_root_dir udf);
        CHECK removed;;
        let udf' :=
          {| pivot_root_dir := pid_pivot_root_dir pid_and_pivot_root_dir;
             code_token := code_token udf;
             binary_path := binary_path udf |} in
        table ← get_pid_to_udf;
        CHECK (bool_decide (table !! pid pid_and_pivot_root_dir = None));;
        put_pid_to_udf (<[pid pid_and_pivot_root_dir := udf']> table);;
        mret Continue
  end.

(** The loop over the next [exits] child exits; [Continue] means that the
    thread is back in [waitpid]. *)
Fixpoint reloader_loop (env : MainEnv) (exits : nat) : HostM LoopCtl :=
  match exits with
  | O => mret Continue
  | S exits' =>
      ctl ← reloader_iteration env;
      match ctl with
      | Break => mret Break
      | Continue => reloader_loop env exits'
      end
  end.

(** The thread: it waits until there is a worker or [shutdown] is set
    ([None]: still waiting), returns if [shutdown] is set, and loops
    otherwise. *)
Definition reloader (env : MainEnv) (exits : nat) : HostM (option LoopCtl) :=
  fun os h =>
    if shutdown h then Ok (Some Break) h
    else if bool_decide (pid_to_udf h = ∅) then Ok None h
    else
      match reloader_loop env exits os h with
      | Ok ctl h' => Ok (Some ctl) h'
      | Crash h' => Crash h'
      end.

(** *** The main thread *)

Fixpoint repeat_times (count : nat) (body : HostM unit) : HostM unit :=
  match count with
  | O => mret tt
  | S count' => body ;; repeat_times count' body
  end.

(** Spawn one worker and enter it in the table:
    [pid_to_udf[pid] = std::move(udf)]. *)
Definition spawn_and_record (env : MainEnv) (token path : string) : HostM unit :=
  pid_and_pivot_root_dir ←
    ConnectSendCloneAndExec (mounts env) (socket_name env) token path;
  let udf :=
    {| pivot_root_dir := pid_pivot_root_dir pid_and_pivot_root_dir;
       code_token := token;
       binary_path := path |} in
  table ← get_pid_to_udf;
  put_pid_to_udf (<[pid pid_and_pivot_root_dir := udf]> table).

(** The body of [main]'s loop for one parsed [LoadRequest]. The loop
    [for (int i = 0; i < request.n_workers() - 1; ++i)] runs its body
    [n_workers - 1] times, and not at all when that is not positive. *)
Definition handle_load (env : MainEnv) (request : Proto.LoadRequest) : HostM unit :=
  name ← GenerateUuid;
  let path := path_join (progdir env) name in
  ofstream_write path (Proto.binary_content request);;
  permissions path (Z.lor owner_exec owner_read);;
  repeat_times (Z.to_nat (Proto.n_workers request - 1))
    (spawn_and_record env (Proto.code_token request) path);;
  (* Start n-th worker out of loop. *)
  spawn_and_record env (Proto.code_token request) path.

(** [main]'s loop: requests are read off the connection, one frame each,
    until one cannot be read or parsed; then [shutdown] is set. A frame
    takes at least one byte, so the fuel [S (length input)] is never used
    up. The parser of [LoadRequest] is not part of the sources. *)
Fixpoint main_loop (env : MainEnv) (parse : list Z -> option Proto.LoadRequest)
    (fuel : nat) (input : list Z) : HostM unit :=
  match fuel with
  | O => mret tt
  | S fuel' =>
      match Framing.deframe Framing.kDefaultCap input with
      | Framing.Frame payload rest =>
          match parse payload with
          | Some request =>
              handle_load env request ;; main_loop env parse fuel' rest
          | None => mret tt
          end
      | _ => mret tt
      end
  end.

Definition main_serve (env : MainEnv) (parse : list Z -> option Proto.LoadRequest)
    (input : list Z) : HostM unit :=
  main_loop env parse (S (length input)) input ;;
  put_shutdown true.




(** *** Reading the events *)

(** Where a run ended, crashed or not. *)
Definition final_host {A : Type} (r : Res A) : Host :=
  match r with Ok _ h => h | Crash h => h end.

(** The events of [h'] that came after those of [h]. *)
Definition new_events (h h' : Host) : list HostEvent :=
  drop (length (events h)) (events h').


Definition is_clone (e : HostEvent) : bool :=
  match e with ev_clone _ _ _ _ => true | _ => false end.

(** The pids of the workers the events spawned. *)
Definition spawned_pids (t : list HostEvent) : list Z :=
  omap (fun e => match e with
                 | ev_clone _ _ _ r => if r =? -1 then None else Some r
                 | _ => None
                 end) t.




(** A launcher with one worker, pid 100, and the results of the operating
    system when that worker exits with status [status] (as [waitpid]
    reports it) while a new worker, pid 101, can be spawned. *)
Definition sample_env : MainEnv :=
  {| socket_name := "/sockdir/abcd.sock";
     mounts := ["/lib"; "/lib64"; "/tmp/progdir"];
     progdir := "/tmp/progdir" |}.
Definition sample_udf : UdfInstanceMetadata :=
  {| pivot_root_dir := "/tmp/roma_app_server_000001";
     code_token := "0f8fad5b-d9cb-469f-a165-70867728950e";
     binary_path := "/tmp/progdir/udf" |}.
Definition sample_host : Host :=
  {| pid_to_udf := {[ 100 := sample_udf ]};
     shutdown := false;
     dirs := {[ "/tmp/progdir"; "/tmp/roma_app_server_000001" ]};
     files := {[ "/tmp/progdir/udf" := {| content := "ELF"; perms := 0x140 |} ]};
     events := [] |}.
Definition sample_child (k : nat) : Z :=
  nth k [3; 0; 36; 0; 1; 0; 1; 0; 1; 0; 0; 0; 1; 0; 0; 0; 0; 0; 0; 0; 4; 0] 0.
Definition sample_exit (p status : Z) : HostOs :=
  {| os_uuid := fun _ => "7d444840-9dc0-11d1-b245-5ffdce74fad2";
     os_open := fun _ => true;
     os_umask := 0x12;
     os_mkdtemp := fun _ => Some "/tmp/roma_app_server_000002";
     os_clone := fun _ => 101;
     os_child := fun _ => sample_child;
     os_waitpid := fun _ => (p, status);
     os_kill := fun _ => 0 |}.

(** Worker [p] is in the table with code token [token] and binary [path]. *)
Definition recorded (h : Host) (token path : string) (p : Z) : Prop :=
  exists udf,
    pid_to_udf h !! p = Some udf
    /\ code_token udf = token /\ binary_path udf = path.

(** A request for three workers; the operating system gives the [k]-th
    event's spawn the pid [200 + k]. *)
Definition sample_request : Proto.LoadRequest :=
  {| Proto.code_token := "0f8fad5b-d9cb-469f-a165-70867728950e";
     Proto.binary_content := "ELF";
     Proto.n_workers := 3 |}.
Definition sample_load : HostOs :=
  {| os_uuid := fun _ => "7d444840-9dc0-11d1-b245-5ffdce74fad2";
     os_open := fun _ => true;
     os_umask := 0x12;
     os_mkdtemp := fun k => Some ("/tmp/roma_app_server_" +:+ StrCat_int (Z.of_nat k));
     os_clone := fun k => 200 + Z.of_nat k;
     os_child := fun _ => sample_child;
     os_waitpid := fun _ => (-1, 0);
     os_kill := fun _ => 0 |}.




End Host.

(** ** Further reading of the code: the calls of a spawn *)

Module WorkerCalls.
Import Text Worker.

(** The call returned what [WorkerImpl] checks for. *)
Definition succeeded (e : Event) : bool :=
  match e with
  | (sys_socket, r) => negb (r =? -1)
  | (sys_connect _ _, r) => r =? 0
  | (sys_write _ _ count, r) => r =? count
  | (sys_mount _ _ _ _, r) => r =? 0
  | (sys_create_directories _, r) => negb (r =? 0)
  | (sys_pivot_root _ _, r) => r =? 0
  | (sys_chdir _, r) => r =? 0
  | (sys_umount2 _ _, r) => r =? 0
  | (sys_dup _, r) => negb (r =? -1)
  | (sys_execl _ _, r) => negb (r =? -1)
  end.

(** The calls that set up the filesystem, in the order of the source. *)
Definition filesystem_calls (a : WorkerImplArg) : list Syscall :=
  [sys_mount None "/" None (Z.lor MS_REC MS_PRIVATE)]
  ++ concat (map (fun mount =>
                    [sys_create_directories (pivot_root_dir a +:+ mount);
                     sys_mount (Some mount) (pivot_root_dir a +:+ mount) None MS_BIND])
                 (mounts a))
  ++ [sys_mount (Some (pivot_root_dir a)) (pivot_root_dir a) (Some "bind")
        (Z.lor MS_REC MS_BIND);
      sys_mount (Some (pivot_root_dir a)) (pivot_root_dir a) (Some "bind")
        (Z.lor MS_REC MS_SLAVE);
      sys_create_directories (pivot_root_dir a +:+ "/pivot");
      sys_pivot_root (pivot_root_dir a) (pivot_root_dir a +:+ "/pivot");
      sys_chdir "/";
      sys_umount2 "/pivot" MNT_DETACH]
  ++ map (fun mount =>
            sys_mount (Some mount) mount None (Z.lor MS_REMOUNT MS_BIND))
         (mounts a)
  ++ [sys_mount (Some (parent_path (binary_path a))) (parent_path (binary_path a))
        None (Z.lor MS_REMOUNT MS_BIND)].

(** All calls of a spawn that reaches the binary, for the socket [fd] and
    its duplicate [connection_fd]. *)
Definition spawn_calls (a : WorkerImplArg) (fd connection_fd : Z) : list Syscall :=
  [sys_socket;
   sys_connect fd (String.substring 0 sun_path_size (socket_name a));
   sys_write fd (String.substring 0 36 (code_token a)) 36]
  ++ filesystem_calls a
  ++ [sys_dup fd;
      sys_execl (binary_path a) [binary_path a; StrCat_int connection_fd]].

(** The calls [cs] as events, the first being call number [start] of the
    run: each with the result the operating system gives at its position. *)
Fixpoint answered (os : nat -> Z) (start : nat) (cs : list Syscall) : list Event :=
  match cs with
  | [] => []
  | c :: cs' => (c, os start) :: answered os (S start) cs'
  end.

(** The events up to and including the first call that failed. *)
Fixpoint until_failure (l : list Event) : list Event :=
  match l with
  | [] => []
  | e :: l' => if succeeded e then e :: until_failure l' else [e]
  end.

(** The block [m] makes the calls [cs] in this order up to the first that
    fails, where it aborts; it completes when all of them succeed. *)
Definition completes_with (m : Run unit) (cs : list Syscall) : Prop :=
  forall os t,
    m os t
    = (t ++ until_failure (answered os (length t) cs),
       if forallb succeeded (answered os (length t) cs)
       then inr tt else inl Aborted).

(** A run in which the first mount is refused. *)
Definition mount_refused_os (k : nat) : Z := nth k [3; 0; 36; -1] 0.

End WorkerCalls.

(** ** Further reading of the code: the launcher as a whole *)

Module Launcher.
Import Text Host.

(** The requests of [main]'s loop, one after the other. *)
Fixpoint handle_all (env : MainEnv) (requests : list Proto.LoadRequest)
  : HostM unit :=
  match requests with
  | [] => mret tt
  | request :: requests' => handle_load env request ;; handle_all env requests'
  end.


(** The worker of a [clone] event and the way its run of [WorkerImpl]
    ended ([None]: [clone] failed, no child ran). *)
Definition cloned (e : HostEvent)
  : option (Worker.WorkerImplArg * option (list Worker.Event * Worker.Exit) * Z) :=
  match e with
  | ev_clone _ arg child ret => Some (arg, child, ret)
  | _ => None
  end.

Definition sample_read_only : HostOs :=
  {| os_uuid := fun _ => "7d444840-9dc0-11d1-b245-5ffdce74fad2";
     os_open := fun _ => false;
     os_umask := 0x12;
     os_mkdtemp := fun k => Some ("/tmp/roma_app_server_" +:+ StrCat_int (Z.of_nat k));
     os_clone := fun k => 200 + Z.of_nat k;
     os_child := fun _ => sample_child;
     os_waitpid := fun _ => (-1, 0);
     os_kill := fun _ => 0 |}.

(** A parser that knows one payload, for the request [sample_request]. *)
Definition sample_parse (payload : list Z) : option Proto.LoadRequest :=
  if bool_decide (payload = [8; 3]) then Some sample_request else None.

End Launcher.

(** ** Further reading of the code: the payload binary *)

Module Payload.
Import Text Udf.



End Payload.

(** ** Further reading of the code: the sample binary *)

Module SampleBinary.
Import Text Sieve.

(** [BinaryRequest::Function] of roma_binary.proto, which is not part of
    the sources: the five values [main] names, and any other value. *)
Inductive Function :=
| FUNCTION_HELLO_WORLD
| FUNCTION_PRIME_SIEVE
| FUNCTION_CALLBACK
| FUNCTION_TEN_CALLBACK_INVOCATIONS
| FUNCTION_CONCURRENT_CALLBACKS
| FUNCTION_other (value : Z).

(** [Callback] of callback.proto, restricted to the two fields set here. *)
Record Callback := mkCallback {
  function_name : string;
  id : string
}.

(** What the binary does on its descriptors, with the results. *)
Inductive Io :=
| io_parse_request (fd : Z)                          (* ParseFromFileDescriptor *)
| io_write_callback (fd : Z) (callback : Callback) (ok : bool)
| io_read_callback (fd : Z) (parsed : option Callback)
| io_close (fd : Z) (ret : Z)
| io_write_response (fd : Z) (response : BinaryResponse).

(** How a run ends; [OutOfFuel] stands for a loop of the sieve that does
    not come to its end. *)
Inductive Exit :=
| Returned (code : Z)
| Aborted                              (* a failed CHECK or PCHECK, [abort()] *)
| OutOfFuel.

(** The outside: the function of the request on the standard input, and
    for each position what a call made as the [k]-th returns. *)
Record Os := mkOs {
  os_function : Function;
  os_write : nat -> bool;
  os_read : nat -> option Callback;
  os_close : nat -> Z
}.

Definition Run (A : Type) : Type :=
  Os -> list Io -> list Io * (Exit + A).

#[global] Instance run_ret : MRet Run := fun A a os t => (t, inr a).
#[global] Instance run_bind : MBind Run := fun A B f m os t =>
  match m os t with
  | (t', inl e) => (t', inl e)
  | (t', inr a) => f a os t'
  end.

Definition stop {A : Type} (e : Exit) : Run A := fun os t => (t, inl e).
Definition CHECK (b : bool) : Run unit := if b then mret tt else stop Aborted.

Definition parse_request (fd : Z) : Run Function := fun os t =>
  (t ++ [io_parse_request fd], inr (os_function os)).
Definition write_callback (fd : Z) (callback : Callback) : Run bool := fun os t =>
  let ok := os_write os (length t) in
  (t ++ [io_write_callback fd callback ok], inr ok).
Definition read_callback (fd : Z) : Run (option Callback) := fun os t =>
  let parsed := os_read os (length t) in
  (t ++ [io_read_callback fd parsed], inr parsed).
Definition close (fd : Z) : Run Z := fun os t =>
  let ret := os_close os (length t) in
  (t ++ [io_close fd ret], inr ret).
Definition write_response (fd : Z) (response : BinaryResponse) : Run unit :=
  fun os t => (t ++ [io_write_response fd response], inr tt).

Fixpoint for_each {A : Type} (l : list A) (body : A -> Run unit) : Run unit :=
  match l with
  | [] => mret tt
  | x :: l' => body x ;; for_each l' body
  end.

Fixpoint repeat_times (count : nat) (body : Run unit) : Run unit :=
  match count with
  | O => mret tt
  | S count' => body ;; repeat_times count' body
  end.

Definition RunHelloWorld (bin_response : BinaryResponse) : BinaryResponse :=
  {| greeting := "Hello, world!"; prime_number := prime_number bin_response |}.

Definition RunEchoCallback (comms_fd : Z) : Run unit :=
  ok ← write_callback comms_fd {| function_name := "example"; id := "" |};
  CHECK ok;;
  parsed ← read_callback comms_fd;
  CHECK (bool_decide (is_Some parsed)).

Definition send_ids : gset string := {[ "a"; "b"; "c"; "d"; "e"; "f" ]}.

(** The second loop of [RunConcurrentEchoCallback], with [count] turns to
    go and the ids received so far. *)
Fixpoint receive_loop (comms_fd : Z) (count : nat) (recv_ids : gset string)
  : Run unit :=
  match count with
  | O => mret tt
  | S count' =>
      parsed ← read_callback comms_fd;
      match parsed with
      | None => stop Aborted
      | Some callback =>
          CHECK (bool_decide (id callback ∈ send_ids));;
          CHECK (bool_decide (id callback ∉ recv_ids));;
          receive_loop comms_fd count' ({[id callback]} ∪ recv_ids)
      end
  end.

(** The set is walked in the order of the hash set, here the order of
    [elements]. *)
Definition RunConcurrentEchoCallback (comms_fd : Z) : Run unit :=
  for_each (elements send_ids) (fun i =>
    ok ← write_callback comms_fd {| function_name := "example"; id := i |};
    CHECK ok);;
  receive_loop comms_fd (size send_ids) ∅.

Definition STDIN_FILENO : Z := 0.

(** A loop with fuel as a step of a run. *)
Definition fueled {A : Type} (result : option A) : Run A :=
  match result with
  | Some a => mret a
  | None => stop OutOfFuel
  end.

(** The [switch] of [main], which yields the response to write. *)
Definition dispatch (function : Function) (comms_fd : Z)
    (bin_response : BinaryResponse) : Run BinaryResponse :=
  match function return Run BinaryResponse with
  | FUNCTION_HELLO_WORLD => mret (RunHelloWorld bin_response)
  | FUNCTION_PRIME_SIEVE => fueled (RunPrimeSieve bin_response)
  | FUNCTION_CALLBACK =>
      RunEchoCallback comms_fd;; mret bin_response
  | FUNCTION_TEN_CALLBACK_INVOCATIONS =>
      repeat_times 10 (RunEchoCallback comms_fd);; mret bin_response
  | FUNCTION_CONCURRENT_CALLBACKS =>
      RunConcurrentEchoCallback comms_fd;; mret bin_response
  | FUNCTION_other _ => stop Aborted
  end.

Section Main.
(** [absl::SimpleAtoi] is not part of the sources. *)
Variable SimpleAtoi : string -> option Z.

Definition CHECK_SimpleAtoi (s : string) : Run Z :=
  match SimpleAtoi s with
  | Some n => mret n
  | None => stop Aborted
  end.

Definition main_body (argv : list string) : Run Z :=
  if (length argv <? 3)%nat then mret (-1)
  else
    comms_fd ← CHECK_SimpleAtoi (nth 2 argv "");
    function ← parse_request STDIN_FILENO;
    write_fd ← CHECK_SimpleAtoi (nth 1 argv "");
    bin_response ← dispatch function comms_fd empty_response;
    closed ← close comms_fd;
    CHECK (closed =? 0);;
    write_response write_fd bin_response;;
    close write_fd;;
    mret 0.

(** A run of [main]: what it did and how it ended. *)
Definition main (argv : list string) (os : Os) : list Io * Exit :=
  match main_body argv os [] with
  | (t, inl e) => (t, e)
  | (t, inr code) => (t, Returned code)
  end.
End Main.

(** *** Reading the events *)

(** A callback sent with success, or an answer received, on [fd]. *)
Definition is_sent (fd : Z) (e : Io) : bool :=
  match e with
  | io_write_callback fd' callback ok =>
      bool_decide (fd' = fd) && ok
      && bool_decide (function_name callback = "example")
  | _ => false
  end.
Definition is_received (fd : Z) (e : Io) : bool :=
  match e with
  | io_read_callback fd' (Some _) => bool_decide (fd' = fd)
  | _ => false
  end.

(** The ids of the callbacks sent, and of the answers received. *)
Definition sent_ids (t : list Io) : list string :=
  omap (fun e => match e with
                 | io_write_callback _ callback _ => Some (id callback)
                 | _ => None
                 end) t.
Definition received_ids (t : list Io) : list string :=
  omap (fun e => match e with
                 | io_read_callback _ (Some callback) => Some (id callback)
                 | _ => None
                 end) t.

(** The exchanges each function makes: [true] for a callback sent,
    [false] for an answer received. *)
Definition exchanges (function : Function) : list bool :=
  match function with
  | FUNCTION_CALLBACK => [true; false]
  | FUNCTION_TEN_CALLBACK_INVOCATIONS => concat (replicate 10 [true; false])
  | FUNCTION_CONCURRENT_CALLBACKS => replicate 6 true ++ replicate 6 false
  | _ => []
  end.

(** The events [calls] are the exchanges [kinds] on [fd], all with
    success. *)
Definition exchanged (fd : Z) (calls : list Io) (kinds : list bool) : Prop :=
  Forall2 (fun e kind => (if kind : bool then is_sent fd e else is_received fd e)
                         = true) calls kinds.

(** A callback sent or an answer read on [fd], with whatever result. *)
Definition is_callback_io (fd : Z) (e : Io) : bool :=
  match e with
  | io_write_callback fd' _ _ | io_read_callback fd' _ => bool_decide (fd' = fd)
  | _ => false
  end.

(** The block [m] does nothing but send callbacks and read answers on
    [fd]; it aborts on the first that fails, and has made the exchanges
    [kinds] when it comes to its end. *)
Definition exchanges_with (fd : Z) (kinds : list bool) (m : Run unit) : Prop :=
  forall os t,
    exists calls,
      fst (m os t) = t ++ calls
      /\ Forall (fun e => is_callback_io fd e = true) calls
      /\ match snd (m os t) with
         | inr _ => exchanged fd calls kinds
         | inl e => e = Aborted
         end.

(** The response [main] writes for each function. *)
Definition response_of (function : Function) (response : BinaryResponse) : Prop :=
  match function with
  | FUNCTION_HELLO_WORLD =>
      response = {| greeting := "Hello, world!"; prime_number := [] |}
  | FUNCTION_PRIME_SIEVE => RunPrimeSieve empty_response = Some response
  | FUNCTION_other _ => False
  | _ => response = empty_response
  end.

(** A run of the concurrent callbacks in which the answers come back in
    another order than the callbacks went out. *)
Definition sample_atoi (s : string) : option Z :=
  if String.eqb s "3" then Some 3
  else if String.eqb s "4" then Some 4 else None.
Definition sample_answer (k : nat) : option Callback :=
  option_map (fun i => {| function_name := "example"; id := i |})
             (["f"; "e"; "d"; "c"; "b"; "a"] !! (k - 7)%nat).
Definition sample_os (function : Function) : Os :=
  {| os_function := function;
     os_write := fun _ => true;
     os_read := sample_answer;
     os_close := fun _ => 0 |}.

Definition sample_argv : list string := ["sample_udf"; "4"; "3"].
Definition sample_trace : list Io :=
  io_parse_request 0
  :: map (fun i => io_write_callback 3 {| function_name := "example"; id := i |}
                     true) (elements send_ids)
  ++ map (fun i => io_read_callback 3
                     (Some {| function_name := "example"; id := i |}))
         ["f"; "e"; "d"; "c"; "b"; "a"]
  ++ [io_close 3 0; io_write_response 4 empty_response; io_close 4 0].

End SampleBinary.

(** ** Further reading of the code: the shell of the tools *)

Module Shell.
Import Text.

Inductive NextStep := kContinue | kExit | kError.

(** [absl::StatusOr<std::string>]: the status as it is printed, or the
    value. *)
Definition StatusOr : Type := string + string.

(** What the evaluator does to the outside, with the results. *)
Inductive Output :=
| cout (text : string)
| cerr (text : string)
| load_call (udf_file : string) (result : StatusOr)
| execute_call (rpc token request : string) (result : StatusOr)
| append_call (path data : string) (opened : bool).

(** The member [rpc_to_token_], the files that can be read, and what was
    done so far. *)
Record State := mkState {
  rpc_to_token_ : gmap string (option string);
  files : gmap string string;
  output : list Output
}.

Definition print (e : Output) (s : State) : State :=
  {| rpc_to_token_ := rpc_to_token_ s; files := files s;
     output := output s ++ [e] |}.
Definition set_token (rpc token : string) (s : State) : State :=
  {| rpc_to_token_ := <[rpc := Some token]> (rpc_to_token_ s);
     files := files s; output := output s |}.
Definition set_files (f : gmap string string) (s : State) : State :=
  {| rpc_to_token_ := rpc_to_token_ s; files := f; output := output s |}.

(** The constructor: [rpc_to_token_[std::move(rpc)] = std::nullopt]. *)
Definition ShellEvaluator (rpcs : list string) (fs : gmap string string) : State :=
  {| rpc_to_token_ := foldl (fun m rpc => <[rpc := None]> m) ∅ rpcs;
     files := fs; output := [] |}.

Definition nl : string := String (Ascii.ascii_of_nat 10) EmptyString.

Definition kHelpMessage : string :=
  "Shell Commands:" +:+ nl +:+ nl
  +:+ "help - Display all shell commands" +:+ nl
  +:+ "Usage: help" +:+ nl +:+ nl
  +:+ "commands - Execute commands from specified filename" +:+ nl
  +:+ "    Note: Recursion is not permitted." +:+ nl
  +:+ "Usage: commands <commands_file>" +:+ nl +:+ nl
  +:+ "exit - Exit the tool" +:+ nl
  +:+ "Usage: exit" +:+ nl.

(** The pieces of [s] between the spaces. *)
Fixpoint split (s : string) : list string :=
  match s with
  | EmptyString => [EmptyString]
  | String c r =>
      if Ascii.eqb c " " then EmptyString :: split r
      else
        match split r with
        | piece :: pieces => String c piece :: pieces
        | [] => [String c EmptyString]
        end
  end.

Fixpoint all_space (s : string) : bool :=
  match s with
  | EmptyString => true
  | String c r => is_space c && all_space r
  end.

(** [absl::StrSplit(line, ' ', absl::SkipWhitespace())]: the pieces that
    are not empty once white space is stripped. *)
Definition StrSplit (line : string) : list string :=
  List.filter (fun piece => negb (all_space piece)) (split line).

(** The lines [std::getline] yields for the content of a file. *)
Fixpoint getlines (content : string) : list string :=
  match content with
  | EmptyString => []
  | String c r =>
      if Ascii.eqb c (Ascii.ascii_of_nat 10) then EmptyString :: getlines r
      else
        match getlines r with
        | line :: rest => String c line :: rest
        | [] => [String c EmptyString]
        end
  end.

(** The loop over the lines of a commands file: it stops at the first
    line that does not yield [kContinue]. *)
Fixpoint commands_loop (eval : string -> State -> option NextStep * State)
    (file_lines : list string) (s : State) : option NextStep * State :=
  match file_lines with
  | [] => (Some kContinue, s)
  | line :: rest =>
      match eval line s with
      | (Some kContinue, s') => commands_loop eval rest s'
      | stopped => stopped
      end
  end.

Section Evaluator.
Variable service_specific_message_ : string.
(** The two functions the evaluator was given; [load_fn_ k] and
    [execute_fn_ k] are the functions as they answer when called after
    [k] outputs. Whether a response file can be opened is not decided by
    the sources either. *)
Variable load_fn_ : nat -> string -> StatusOr.
Variable execute_fn_ : nat -> string -> string -> string -> StatusOr.
Variable can_append : nat -> string -> bool.

Definition fail (text : string) (s : State) : option NextStep * State :=
  (Some kError, print (cerr text) s).

(** The branch of [commands]; the file is read as it is when opened. *)
Definition eval_commands (eval : string -> State -> option NextStep * State)
    (command : list string) (disable_commands : bool) (s : State)
  : option NextStep * State :=
  if disable_commands then fail ("`commands` command is disabled" +:+ nl) s
  else if negb (length command =? 2)%nat
  then fail ("commands <commands_file>" +:+ nl) s
  else
    match files s !! nth 1 command "" with
    | None => fail ("Failed to open '" +:+ nth 1 command "" +:+ "'" +:+ nl) s
    | Some content => commands_loop eval (getlines content) s
    end.

(** The branch of [load] and [l]. *)
Definition eval_load (command : list string) (s : State)
  : option NextStep * State :=
  if negb (length command =? 3)%nat
  then fail ("load <rpc_command> <udf_file>" +:+ nl) s
  else
    match rpc_to_token_ s !! nth 1 command "" with
    | None =>
        fail ("Unrecognized rpc command '" +:+ nth 1 command "" +:+ "'" +:+ nl) s
    | Some _ =>
        let code_token := load_fn_ (length (output s)) (nth 2 command "") in
        let s := print (load_call (nth 2 command "") code_token) s in
        match code_token with
        | inl status => fail ("load error: " +:+ status +:+ nl) s
        | inr token =>
            (Some kContinue,
             set_token (nth 1 command "") token
               (print (cout ("code_token=" +:+ token +:+ nl)) s))
        end
    end.

(** The last branch: the command is the name of an rpc. *)
Definition eval_rpc (command : list string) (s : State)
  : option NextStep * State :=
  let front := nth 0 command "" in
  match rpc_to_token_ s !! front with
  | None => fail ("Unrecognized command '" +:+ front +:+ "'" +:+ nl) s
  | Some loaded =>
      if negb (length command =? 2)%nat && negb (length command =? 3)%nat
      then fail (front +:+ " <request_file> [response_file]" +:+ nl) s
      else
        match loaded with
        | None => fail ("No UDF loaded for '" +:+ front +:+ "'" +:+ nl) s
        | Some token =>
            match files s !! nth 1 command "" with
            | None =>
                fail ("Failed to open '" +:+ nth 1 command "" +:+ "'" +:+ nl) s
            | Some request =>
                let serialized_response :=
                  execute_fn_ (length (output s)) front token request in
                let s := print (execute_call front token request
                                  serialized_response) s in
                match serialized_response with
                | inl status =>
                    fail (front +:+ " error: " +:+ status +:+ nl) s
                | inr response =>
                    let s :=
                      if (length command =? 3)%nat then
                        let path := nth 2 command "" in
                        let opened := can_append (length (output s)) path in
                        let s' := print (append_call path response opened) s in
                        if opened then
                          set_files
                            (<[path := default "" (files s !! path) +:+ response]>
                               (files s)) s'
                        else s'
                      else s in
                    (Some kContinue,
                     print (cout ("{code_token=" +:+ token +:+ ", response="
                                  +:+ response +:+ "}" +:+ nl)) s)
                end
            end
        end
  end.

(** The body of [EvalAndPrint], [eval] standing for its call of itself
    with [disable_commands] set. *)
Definition EvalAndPrint_body (eval : string -> State -> option NextStep * State)
    (line : string) (disable_commands : bool) (s : State)
  : option NextStep * State :=
  let command := StrSplit line in
  match command with
  | [] => (Some kContinue, s)
  | front :: _ =>
      if String.eqb front "exit" then (Some kExit, s)
      else if String.eqb front "help" || String.eqb front "h"
              || String.eqb front "?"
      then (Some kContinue,
            print (cout (kHelpMessage +:+ service_specific_message_)) s)
      else if String.eqb front "commands"
      then eval_commands eval command disable_commands s
      else if String.eqb front "load" || String.eqb front "l"
      then eval_load command s
      else eval_rpc command s
  end.

(** [EvalAndPrint]; [None] when the calls of itself go deeper than
    [fuel]. *)
Fixpoint EvalAndPrint (fuel : nat) (line : string) (disable_commands : bool)
    (s : State) : option NextStep * State :=
  match fuel with
  | O => (None, s)
  | S fuel' =>
      EvalAndPrint_body (fun line' => EvalAndPrint fuel' line' true)
        line disable_commands s
  end.
End Evaluator.

(** *** Reading the outputs *)

(** The tokens [load_fn_] has returned in the outputs. *)
Definition loaded_tokens (t : list Output) : list string :=
  omap (fun e => match e with
                 | load_call _ (inr token) => Some token
                 | _ => None
                 end) t.

(** The calls of [execute_fn_] in the outputs: rpc, token and request. *)
Definition executions (t : list Output) : list (string * string * string) :=
  omap (fun e => match e with
                 | execute_call rpc token request _ => Some (rpc, token, request)
                 | _ => None
                 end) t.

(** Every token the evaluator holds, and every token [execute_fn_] was
    called with, is a token [load_fn_] has returned before. *)
Definition tokens_from_load (s : State) : Prop :=
  (forall rpc token,
     rpc_to_token_ s !! rpc = Some (Some token) ->
     token ∈ loaded_tokens (output s))
  /\ forall i rpc token request result,
       output s !! i = Some (execute_call rpc token request result) ->
       token ∈ loaded_tokens (take i (output s)).

(** What every step of the evaluator keeps: the tokens are tokens that
    were loaded, the rpcs stay the rpcs of the constructor, and outputs
    are only added. *)
Definition keeps (s s' : State) : Prop :=
  (tokens_from_load s -> tokens_from_load s')
  /\ dom (rpc_to_token_ s') = dom (rpc_to_token_ s)
  /\ exists new, output s' = output s ++ new.

(** The commands of the shell itself; a line that starts with another
    word is read as the call of an rpc. *)
Definition is_shell_command (front : string) : bool :=
  String.eqb front "exit" || String.eqb front "help" || String.eqb front "h"
  || String.eqb front "?" || String.eqb front "commands"
  || String.eqb front "load" || String.eqb front "l".

(** A shell for the rpc [echo], with a UDF to load, a request and a
    commands file that loads and executes. *)
Definition sample_files : gmap string string :=
  {[ "req.json" := "{}";
     "cmds.txt" := "load echo udf" +:+ nl +:+ "echo req.json" +:+ nl ]}.
Definition sample_shell : State := ShellEvaluator ["echo"] sample_files.
Definition sample_load_fn (k : nat) (udf_file : string) : StatusOr :=
  inr "0f8fad5b-d9cb-469f-a165-70867728950e".
Definition sample_execute_fn (k : nat) (rpc token request : string) : StatusOr :=
  inr request.
Definition sample_can_append (k : nat) (path : string) : bool := true.


End Shell.

(* ===================================================================== *)
(** * Part II: properties                                                  *)
(* ===================================================================== *)

(** ** Decimal text *)

Section TextFacts.
Import Text.




Lemma substring_all (s : string) : String.substring 0 (String.length s) s = s.
Proof. induction s as [|c s IH]; simpl; [done|by rewrite IH]. Qed.








Example stoi_samples :
  stoi "  42abc" = Some 42 /\ stoi "-17" = Some (-17) /\ stoi "+5" = Some 5
  /\ stoi "abc" = None /\ stoi "" = None /\ stoi "99999999999" = None
  /\ StrCat_int 305 = "305" /\ StrCat_int (-42) = "-42".
Proof. repeat split; reflexivity. Qed.

Example parent_path_samples :
  parent_path "/tmp/progdir/udf" = "/tmp/progdir"
  /\ parent_path (path_join "/tmp/progdir" "udf") = "/tmp/progdir".
Proof. split; reflexivity. Qed.

End TextFacts.

(** ** Framing *)

Section FramingFacts.
Import Framing.

Lemma read_varint_varint fuel n rest :
  0 <= n < 128 ^ Z.of_nat fuel -> (0 < fuel)%nat ->
  read_varint fuel (varint fuel n ++ rest) = Value n rest.
Proof.
  revert n; induction fuel as [|fuel IH]; intros n Hn Hf; [lia|].
  simpl. destruct (Z.ltb_spec n 128) as [Hlt|Hge]; simpl.
  - destruct (Z.ltb_spec n 128); [done|lia].
  - assert (0 <= n mod 128 < 128) as Hmod by (apply Z.mod_pos_bound; lia).
    pose proof (Z.div_mod n 128 ltac:(lia)) as Hdm.
    destruct (Z.ltb_spec (128 + n mod 128) 128); [lia|].
    rewrite Nat2Z.inj_succ, Z.pow_succ_r in Hn by lia.
    destruct fuel as [|fuel']; [simpl in Hn; lia|].
    rewrite IH; [f_equal; lia| |lia].
    split; [apply Z.div_pos; lia|apply Z.div_lt_upper_bound; lia].
Qed.

Lemma length_varint fuel bound n :
  0 <= n < 128 ^ Z.of_nat bound -> (0 < bound <= fuel)%nat ->
  (1 <= length (varint fuel n) <= bound)%nat.
Proof.
  revert bound n; induction fuel as [|fuel IH]; intros bound n Hn Hb; [lia|].
  simpl. destruct (Z.ltb_spec n 128) as [Hlt|Hge]; simpl; [lia|].
  destruct bound as [|bound]; [lia|].
  rewrite Nat2Z.inj_succ, Z.pow_succ_r in Hn by lia.
  destruct bound as [|bound']; [simpl in Hn; lia|].
  destruct (IH (S bound') (n / 128)); [|lia|lia].
  split; [apply Z.div_pos; lia|apply Z.div_lt_upper_bound; lia].
Qed.

(** Testable property 6 of the specification: what was framed is read
    back, and what follows the frame is left on the stream. *)
Lemma deframe_frame cap payload msg rest :
  cap < 128 ^ 10 ->
  frame cap payload = Some msg ->
  deframe cap (msg ++ rest) = Frame payload rest.
Proof.
  intros Hcap. unfold frame, deframe, encode_length.
  destruct (Z.leb_spec (Z.of_nat (length payload)) cap) as [Hle|]; [|done].
  intros Heq.
  assert (msg = varint 10 (Z.of_nat (length payload)) ++ payload) as ->
    by congruence.
  clear Heq. rewrite <- !app_assoc.
  rewrite read_varint_varint by lia.
  destruct (Z.ltb_spec cap (Z.of_nat (length payload))); [lia|].
  rewrite length_app.
  destruct (Z.ltb_spec (Z.of_nat (length payload + length rest))
                       (Z.of_nat (length payload))); [lia|].
  rewrite Nat2Z.id. by rewrite take_app_length, drop_app_length.
Qed.

Example frame_samples :
  frame kDefaultCap [104; 105] = Some [2; 104; 105]
  /\ encode_length 300 = [172; 2]
  /\ deframe kDefaultCap [2; 104; 105; 7] = Frame [104; 105] [7]
  /\ deframe kDefaultCap [2; 104] = PeerClosed
  /\ deframe 1 [2; 104; 105] = Malformed
  /\ frame_le64 [104; 105] = [2; 0; 0; 0; 0; 0; 0; 0; 104; 105].
Proof. repeat split; reflexivity. Qed.

End FramingFacts.

(** ** The worker *)

Section WorkerFacts.
Import Text Worker.

Lemma emits_ret {A : Type} P Q (a : A) : emits P Q (mret a).
Proof. intros os t. exists []. simpl. by rewrite app_nil_r. Qed.

Lemma emits_stop {A : Type} P (Q : Exit -> Prop) (e : Exit) :
  Q e -> emits P Q (@stop A e).
Proof.
  intros HQ os t. exists []. simpl. rewrite app_nil_r.
  repeat split; [done|]. by intros e' [= <-].
Qed.

Lemma emits_CHECK P (Q : Exit -> Prop) (b : bool) :
  Q Aborted -> emits P Q (CHECK b).
Proof. intros HQ. destruct b; [apply emits_ret|by apply emits_stop]. Qed.

Lemma emits_syscall (P : Event -> Prop) Q (c : Syscall) :
  (forall r, P (c, r)) -> emits P Q (syscall c).
Proof.
  intros HP os t. exists [(c, os (length t))]. split; [done|].
  split; [by constructor|done].
Qed.

Lemma emits_bind {A B : Type} P Q (m : Run A) (f : A -> Run B) :
  emits P Q m -> (forall a, emits P Q (f a)) -> emits P Q (m ≫= f).
Proof.
  intros Hm Hf os t. destruct (Hm os t) as (t1 & Ht1 & HP1 & HQ1).
  unfold mbind, run_bind. destruct (m os t) as [t' [e|a]]; simpl in *; subst t'.
  - exists t1. repeat split; [done|]. intros e' [= <-]. by apply HQ1.
  - destruct (Hf a os (t ++ t1)) as (t2 & Ht2 & HP2 & HQ2).
    exists (t1 ++ t2). rewrite Ht2, app_assoc. split; [done|].
    split; [by apply Forall_app|done].
Qed.

Lemma emits_for_each {A : Type} P Q (l : list A) (body : A -> Run unit) :
  (forall x, emits P Q (body x)) -> emits P Q (for_each l body).
Proof.
  intros Hbody. induction l as [|x l IH]; simpl.
  - apply emits_ret.
  - apply emits_bind; [apply Hbody|]. intros _. apply IH.
Qed.

Ltac emits_steps :=
  repeat first
    [ apply emits_ret | apply emits_stop; done | apply emits_CHECK; done
    | apply emits_syscall; intros; done
    | apply emits_for_each; intros
    | apply emits_bind; [|intros] ].

(** The block that sets up the filesystem makes no other calls, and stops
    only by a failed check. *)
Lemma WorkerImpl_filesystem_emits a :
  emits (fun e => is_filesystem e = true) (fun e => e = Aborted)
        (WorkerImpl_filesystem a).
Proof. unfold WorkerImpl_filesystem. emits_steps. Qed.

(** What [WorkerImpl] does up to the handshake, by the results it gets. *)
Lemma WorkerImpl_connect_run os a :
  WorkerImpl_connect a os [] =
    let fd := os 0%nat in
    let s := (sys_socket, fd) in
    let c := (sys_connect fd (String.substring 0 sun_path_size (socket_name a)),
              os 1%nat) in
    if fd =? -1 then ([s], inl Aborted)
    else if os 1%nat =? 0 then
      match read_bytes (code_token a) 36 with
      | None => ([s; c], inl Undefined)
      | Some buf =>
          if os 2%nat =? 36 then (handshake_calls os a buf, inr fd)
          else (handshake_calls os a buf, inl Aborted)
      end
    else ([s; c], inl (Returned (-1))).
Proof.
  unfold WorkerImpl_connect, ConnectToPath, handshake_calls, mbind, run_bind,
    syscall, CHECK, stop, mret, run_ret. simpl.
  destruct (os 0%nat =? -1); simpl; [done|].
  destruct (os 1%nat =? 0); simpl; [|done].
  destruct (read_bytes (code_token a) 36); simpl; [|done].
  by destruct (os 2%nat =? 36).
Qed.

(** What the last block of [WorkerImpl] does, by the results it gets. *)
Lemma WorkerImpl_exec_run os a fd t :
  WorkerImpl_exec a fd os t =
    let connection_fd := os (length t) in
    let r := os (S (length t)) in
    let argv := [binary_path a; StrCat_int connection_fd] in
    let d := (sys_dup fd, connection_fd) in
    let x := (sys_execl (binary_path a) argv, r) in
    if connection_fd =? -1 then (t ++ [d], inl Aborted)
    else if r =? -1 then (t ++ [d; x], inl Aborted)
    else (t ++ [d; x], inl (Execed (binary_path a) argv)).
Proof.
  unfold WorkerImpl_exec, mbind, run_bind, syscall, CHECK, stop, mret, run_ret.
  simpl. destruct (os (length t) =? -1); simpl; [done|].
  rewrite length_app, Nat.add_1_r, <- app_assoc. simpl.
  by destruct (os (S (length t)) =? -1).
Qed.

(** A run of [WorkerImpl] is the calls up to the handshake, then calls
    that set up the filesystem, then the calls of the last block. *)
Lemma run_WorkerImpl_cases os a :
  (exists t e,
      WorkerImpl_connect a os [] = (t, inl e) /\ run_WorkerImpl os a = (t, e))
  \/ (exists t3 fd fs,
        WorkerImpl_connect a os [] = (t3, inr fd)
        /\ Forall (fun e => is_filesystem e = true) fs
        /\ (run_WorkerImpl os a = (t3 ++ fs, Aborted)
            \/ run_WorkerImpl os a
               = (fst (WorkerImpl_exec a fd os (t3 ++ fs)),
                  match snd (WorkerImpl_exec a fd os (t3 ++ fs)) with
                  | inl e => e | inr e => e
                  end))).
Proof.
  unfold run_WorkerImpl, WorkerImpl, mbind, run_bind.
  destruct (WorkerImpl_connect a os []) as [t [e|fd]] eqn:Hc.
  - left. by exists t, e.
  - right. destruct (WorkerImpl_filesystem_emits a os t) as (fs & Hfs & HP & HQ).
    exists t, fd, fs. split; [done|]. split; [done|].
    destruct (WorkerImpl_filesystem a os t) as [t2 [e|[]]] eqn:Hf;
      simpl in Hfs; subst t2.
    + left. f_equal. by apply HQ.
    + right. by destruct (WorkerImpl_exec a fd os (t ++ fs)) as [t' [e|e]].
Qed.

Lemma filesystem_not_handshake e : is_filesystem e = true -> is_handshake e = false.
Proof. by destruct e as [[] ?]. Qed.



(** The calls of a run in which everything succeeds, in their order. *)
Example run_WorkerImpl_sample :
  run_WorkerImpl sample_os sample_arg =
    ([ (sys_socket, 3);
       (sys_connect 3 "/sockdir/abcd.sock", 0);
       (sys_write 3 "0f8fad5b-d9cb-469f-a165-70867728950e" 36, 36);
       (sys_mount None "/" None (Z.lor MS_REC MS_PRIVATE), 0);
       (sys_create_directories "/tmp/roma_app_server_a1b2c3/lib", 1);
       (sys_mount (Some "/lib") "/tmp/roma_app_server_a1b2c3/lib" None MS_BIND, 0);
       (sys_mount (Some "/tmp/roma_app_server_a1b2c3") "/tmp/roma_app_server_a1b2c3"
          (Some "bind") (Z.lor MS_REC MS_BIND), 0);
       (sys_mount (Some "/tmp/roma_app_server_a1b2c3") "/tmp/roma_app_server_a1b2c3"
          (Some "bind") (Z.lor MS_REC MS_SLAVE), 0);
       (sys_create_directories "/tmp/roma_app_server_a1b2c3/pivot", 1);
       (sys_pivot_root "/tmp/roma_app_server_a1b2c3"
          "/tmp/roma_app_server_a1b2c3/pivot", 0);
       (sys_chdir "/", 0);
       (sys_umount2 "/pivot" MNT_DETACH, 0);
       (sys_mount (Some "/lib") "/lib" None (Z.lor MS_REMOUNT MS_BIND), 0);
       (sys_mount (Some "/tmp/progdir") "/tmp/progdir" None
          (Z.lor MS_REMOUNT MS_BIND), 0);
       (sys_dup 3, 4);
       (sys_execl "/tmp/progdir/udf" ["/tmp/progdir/udf"; "4"], 0) ],
     Execed "/tmp/progdir/udf" ["/tmp/progdir/udf"; "4"]).
Proof. reflexivity. Qed.

(** A socket that does not connect: the child returns -1. *)
Example run_WorkerImpl_no_connect :
  run_WorkerImpl (fun k => nth k [3; -1] 0) sample_arg =
    ([ (sys_socket, 3); (sys_connect 3 "/sockdir/abcd.sock", -1) ],
     Returned (-1)).
Proof. reflexivity. Qed.

End WorkerFacts.

(** ** The sample UDF *)

Section UdfFacts.
Import Text.


End UdfFacts.

(** ** The launcher *)

Section HostFacts.
Import Host.

Lemma length_snoc {A : Type} (l : list A) (x : A) : length (l ++ [x]) = S (length l).
Proof. rewrite length_app. simpl. lia. Qed.

(** A spawn for which the operating system provides a directory and a
    child. *)
Lemma ConnectSendCloneAndExec_ok mnts sn tok path os h d p :
  os_mkdtemp os (length (events h)) = Some d ->
  os_clone os (S (length (events h))) = p -> p <> -1 ->
  exists arg child,
    ConnectSendCloneAndExec mnts sn tok path os h
    = Ok {| pid := p; pid_pivot_root_dir := d |}
         {| pid_to_udf := pid_to_udf h; shutdown := shutdown h;
            dirs := {[d]} ∪ dirs h; files := files h;
            events := events h ++ [ev_mkdtemp (Some d);
                                   ev_clone clone_flags arg (Some child) p] |}.
Proof.
  intros Hd Hp Hne.
  unfold ConnectSendCloneAndExec, mbind, host_bind, mkdtemp, clone, CHECK,
    mret, host_ret, crash.
  rewrite Hd. simpl. rewrite length_snoc, Hp.
  destruct (Z.eqb_spec p (-1)) as [?|_]; [done|]. simpl.
  eexists _, _. unfold emit. simpl. by rewrite <- app_assoc.
Qed.



Lemma spawned_pids_app t1 t2 :
  spawned_pids (t1 ++ t2) = spawned_pids t1 ++ spawned_pids t2.
Proof. apply omap_app. Qed.

Lemma spawn_and_record_ok env tok path os h :
  (forall k, os_mkdtemp os k <> None) -> (forall k, os_clone os k <> -1) ->
  exists h' d p arg child,
    spawn_and_record env tok path os h = Ok tt h'
    /\ p <> -1
    /\ pid_to_udf h' =
         <[p := {| pivot_root_dir := d; code_token := tok; binary_path := path |}]>
           (pid_to_udf h)
    /\ files h' = files h
    /\ events h' = events h ++ [ev_mkdtemp (Some d);
                                ev_clone clone_flags arg (Some child) p].
Proof.
  intros Hmk Hcl.
  destruct (os_mkdtemp os (length (events h))) as [d|] eqn:Hd;
    [|by destruct (Hmk (length (events h)))].
  destruct (ConnectSendCloneAndExec_ok (mounts env) (socket_name env) tok path
              os h d (os_clone os (S (length (events h)))))
    as (arg & child & Hspawn); [done|done|apply Hcl|].
  unfold spawn_and_record, mbind at 1, host_bind at 1. rewrite Hspawn.
  eexists _, d, _, arg, child. split; [reflexivity|]. simpl.
  split; [apply Hcl|done].
Qed.

(** Spawning [n] workers in a row: [n] new pids, each in the table at the
    end, as is every worker that was there with the same token and binary. *)
Lemma repeat_spawn_ok env tok path os n :
  (forall k, os_mkdtemp os k <> None) -> (forall k, os_clone os k <> -1) ->
  forall h,
    exists h' new,
      repeat_times n (spawn_and_record env tok path) os h = Ok tt h'
      /\ events h' = events h ++ new
      /\ length (spawned_pids new) = n
      /\ files h' = files h
      /\ forall p, p ∈ spawned_pids new \/ recorded h tok path p ->
                   recorded h' tok path p.
Proof.
  intros Hmk Hcl. induction n as [|n IH]; intros h; simpl.
  - exists h, []. rewrite app_nil_r. repeat split; try done.
    intros p [Hp|Hp]; [by apply elem_of_nil in Hp|done].
  - destruct (spawn_and_record_ok env tok path os h Hmk Hcl)
      as (h1 & d & p1 & arg & child & Hrun & Hp1 & Htable & Hfiles & Hev).
    destruct (IH h1) as (h' & new & Hrest & Hev' & Hlen & Hfiles' & Hrec).
    unfold mbind, host_bind. rewrite Hrun, Hrest.
    exists h', ([ev_mkdtemp (Some d); ev_clone clone_flags arg (Some child) p1] ++ new).
    split; [done|]. split; [by rewrite Hev', Hev, <- app_assoc|].
    rewrite spawned_pids_app. simpl.
    destruct (Z.eqb_spec p1 (-1)) as [?|_]; [done|]. simpl.
    split; [by rewrite Hlen|]. split; [congruence|].
    intros p Hp. apply Hrec.
    assert (recorded h1 tok path p1) as Hone.
    { eexists. rewrite Htable, lookup_insert_eq. done. }
    destruct Hp as [[->|Hp]%elem_of_cons|(u & Hu & Hgood)]; [by right|by left|].
    right. destruct (decide (p = p1)) as [->|Hne]; [done|].
    exists u. by rewrite Htable, lookup_insert_ne.
Qed.

(** One [LoadRequest], when the file can be written and the workers can
    be spawned. *)
Lemma handle_load_run env os h request :
  os_open os (S (length (events h))) = true ->
  (forall k, os_mkdtemp os k <> None) -> (forall k, os_clone os k <> -1) ->
  let name := os_uuid os (length (events h)) in
  let path := Text.path_join (progdir env) name in
  exists h' new,
    handle_load env request os h = Ok tt h'
    /\ events h' =
         events h ++ [ev_uuid name;
                      ev_ofstream path (Proto.binary_content request) true;
                      ev_permissions path (Z.lor owner_exec owner_read)] ++ new
    /\ files h' =
         <[path := {| content := Proto.binary_content request;
                      perms := Z.lor owner_exec owner_read |}]> (files h)
    /\ length (spawned_pids new) = S (Z.to_nat (Proto.n_workers request - 1))
    /\ forall p, p ∈ spawned_pids new ->
                 recorded h' (Proto.code_token request) path p.
Proof.
  intros Hopen Hmk Hcl name path.
  unfold handle_load.
  unfold mbind at 1, host_bind at 1, GenerateUuid. fold name. fold path.
  unfold mbind at 1, host_bind at 1, ofstream_write.
  cbn [events emit]. rewrite length_snoc, Hopen.
  unfold mbind at 1, host_bind at 1, permissions.
  cbn [files emit set_files]. rewrite lookup_insert_eq. cbn [content].
  rewrite insert_insert_eq.
  set (h0 := set_files _ _).
  destruct (repeat_spawn_ok env (Proto.code_token request) path os
              (Z.to_nat (Proto.n_workers request - 1)) Hmk Hcl h0)
    as (h1 & new1 & Hloop & Hev1 & Hlen1 & Hfiles1 & Hrec1).
  unfold mbind at 1, host_bind at 1. rewrite Hloop.
  destruct (spawn_and_record_ok env (Proto.code_token request) path os h1 Hmk Hcl)
    as (h' & d & p & arg & child & Hrun & Hp & Htable & Hfiles & Hev).
  rewrite Hrun.
  exists h', (new1 ++ [ev_mkdtemp (Some d); ev_clone clone_flags arg (Some child) p]).
  split; [done|]. split; [|split; [|split]].
  - rewrite Hev, Hev1. subst h0. simpl. by rewrite <- !app_assoc.
  - rewrite Hfiles, Hfiles1. by subst h0.
  - rewrite spawned_pids_app, length_app, Hlen1. simpl.
    destruct (Z.eqb_spec p (-1)) as [?|_]; [done|]. simpl. lia.
  - intros q Hq. rewrite spawned_pids_app in Hq. simpl in Hq.
    destruct (Z.eqb_spec p (-1)) as [?|_]; [done|].
    assert (recorded h' (Proto.code_token request) path p) as Hlast.
    { eexists. rewrite Htable, lookup_insert_eq. done. }
    apply elem_of_app in Hq as [Hq|Hq].
    + destruct (decide (q = p)) as [->|Hne]; [done|].
      destruct (Hrec1 q (or_introl Hq)) as (u & Hu & Hgood).
      exists u. by rewrite Htable, lookup_insert_ne.
    + apply elem_of_cons in Hq as [->|Hq]; [done|by apply elem_of_nil in Hq].
Qed.

(** *** Removal of pivot-root directories *)

























(** The sample worker exits with status 0, with exit code 1, and by
    signal 9. *)
Example reloader_iteration_samples :
  (exists h', reloader_iteration sample_env (sample_exit 100 0) sample_host
              = Ok Continue h'
              /\ map_to_list (pid_to_udf h')
                 = [(101, {| pivot_root_dir := "/tmp/roma_app_server_000002";
                             code_token := "0f8fad5b-d9cb-469f-a165-70867728950e";
                             binary_path := "/tmp/progdir/udf" |})])
  /\ (exists h', reloader_iteration sample_env (sample_exit 100 256) sample_host
                 = Ok Break h'
                 /\ map_to_list (pid_to_udf h') = []
                 /\ events h' = [ev_waitpid (-1) 100;
                                 ev_remove_all "/tmp/roma_app_server_000001" true])
  /\ (exists h', reloader_iteration sample_env (sample_exit 100 9) sample_host
                 = Ok Break h'
                 /\ map_to_list (pid_to_udf h') = []).
Proof.
  split; [|split]; (eexists; split; [vm_compute; reflexivity|]);
    repeat split; vm_compute; reflexivity.
Qed.

Example handle_load_sample :
  exists h',
    handle_load sample_env sample_request sample_load sample_host = Ok tt h'
    /\ spawned_pids (events h') = [204; 206; 208].
Proof. eexists. split; [vm_compute; reflexivity|]. vm_compute. reflexivity. Qed.

End HostFacts.

(** ** The sieve *)

Section SieveFacts.
Import Sieve.

Lemma length_mark p s l : length (mark p s l) = length l.
Proof.
  revert s; induction l as [|b l IH]; intros [|s]; simpl; auto.
Qed.

Lemma mark_ge p s l : (length l <= s)%nat -> mark p s l = l.
Proof.
  revert s; induction l as [|b l IH]; intros s Hs; simpl in *; [done|].
  destruct s as [|s]; [lia|]. f_equal. apply IH. lia.
Qed.

(** Clearing position [s] by hand and then every [p]-th position from
    [s + p] is one traversal from [s]. *)
Lemma mark_shift p s l :
  (0 < p)%nat -> mark p (s + p) (<[s := false]> l) = mark p s l.
Proof.
  intros Hp. revert s; induction l as [|b l IH]; intros s; simpl; [done|].
  destruct s as [|s]; simpl.
  - destruct p as [|p]; [lia|]. simpl. by rewrite Nat.sub_0_r.
  - by rewrite IH.
Qed.

Lemma struckb_wrap p k :
  (0 < p)%nat -> struckb p (p - 1) k = struckb p 0 (S k).
Proof.
  intros Hp. unfold struckb. rewrite Nat.sub_0_r. simpl (0 <=? _)%nat.
  rewrite andb_true_l.
  destruct (Nat.leb_spec (p - 1) k) as [Hle|Hlt]; simpl.
  - replace (S k) with ((k - (p - 1)) + 1 * p)%nat by lia.
    by rewrite Nat.Div0.mod_add.
  - rewrite (Nat.mod_small (S k) p) by lia. done.
Qed.

Lemma lookup_mark p s l k :
  (0 < p)%nat ->
  mark p s l !! k = (fun b => b && negb (struckb p s k)) <$> (l !! k).
Proof.
  intros Hp. revert s k; induction l as [|b l IH]; intros s k; simpl.
  - done.
  - destruct s as [|s], k as [|k]; simpl.
    + unfold struckb. simpl. rewrite Nat.Div0.mod_0_l. simpl.
      by rewrite andb_false_r.
    + rewrite IH. by rewrite struckb_wrap.
    + by rewrite andb_true_r.
    + by rewrite IH.
Qed.

Lemma struckb_square i k :
  2 <= i -> 0 <= k ->
  struckb (Z.to_nat i) (Z.to_nat (i * i)) (Z.to_nat k) = true
  <-> i * i <= k /\ (i | k).
Proof.
  intros Hi Hk. unfold struckb.
  rewrite andb_true_iff, Nat.leb_le, Nat.eqb_eq. split.
  - intros [Hle Hmod]. split; [nia|].
    apply Nat.Div0.mod_divides in Hmod as [c Hc].
    exists (i + Z.of_nat c). nia.
  - intros [Hle [c Hc]]. split; [nia|].
    apply Nat.Div0.mod_divides. exists (Z.to_nat (c - i)). nia.
Qed.

(** *** The loops of the source are the one-pass formulations *)

Lemma strike_loop_mark fuel n i j l :
  0 < i -> 0 <= j ->
  (Z.to_nat (n + 1 - j) < fuel)%nat ->
  length l = Z.to_nat (n + 1) ->
  strike_loop fuel n i j l = Some (mark (Z.to_nat i) (Z.to_nat j) l).
Proof.
  intros Hi. revert j l; induction fuel as [|fuel IH]; intros j l Hj Hf Hl.
  - lia.
  - simpl. destruct (Z.leb_spec j n) as [Hle|Hgt].
    + rewrite IH; [|lia|lia|by rewrite length_insert].
      f_equal. rewrite Z2Nat.inj_add by lia. apply mark_shift. lia.
    + f_equal. symmetry. apply mark_ge. lia.
Qed.

Lemma outer_loop_pass fuel n i l :
  0 <= n -> 2 <= i -> length l = Z.to_nat (n + 1) ->
  outer_loop fuel n i l = outer_pass fuel n i l.
Proof.
  intros Hn. revert i l; induction fuel as [|fuel IH]; intros i l Hi Hl;
    cbn [outer_loop outer_pass].
  - done.
  - destruct (i <=? Z.sqrt n); [|done].
    destruct (l !! Z.to_nat i) as [[|]|]; [| |done].
    + assert (4 <= i * i) by nia.
      rewrite strike_loop_mark; [|lia..|done].
      apply IH; [lia|]. by rewrite length_mark.
    + apply IH; [lia|done].
Qed.

Lemma collect_loop_from fuel n i l r :
  0 <= i <= n + 1 ->
  (Z.to_nat (n + 1 - i) < fuel)%nat ->
  length l = Z.to_nat (n + 1) ->
  collect_loop fuel n i l r =
    Some {| greeting := greeting r;
            prime_number :=
              prime_number r ++ collect_from i (drop (Z.to_nat i) l) |}.
Proof.
  revert i r; induction fuel as [|fuel IH]; intros i r Hi Hf Hl.
  - lia.
  - simpl. destruct (Z.leb_spec i n) as [Hle|Hgt].
    + destruct (lookup_lt_is_Some_2 l (Z.to_nat i)) as [b Hb]; [lia|].
      rewrite Hb. rewrite (drop_S _ _ _ Hb).
      replace (S (Z.to_nat i)) with (Z.to_nat (i + 1)) by lia.
      destruct b; rewrite IH by lia; simpl; [|done].
      by rewrite <- app_assoc.
    + rewrite drop_ge by lia. simpl. rewrite app_nil_r. by destruct r.
Qed.

(** *** Primality by small divisors *)

Lemma prime_of_no_small_divisor k :
  2 <= k -> (forall d, 2 <= d -> d * d <= k -> ~ (d | k)) -> prime k.
Proof.
  intros Hk H. apply prime_alt. split; [lia|].
  intros m Hm [q Hq].
  assert (1 < q) by nia.
  destruct (Z_le_gt_dec (m * m) k) as [Hle|Hgt].
  - apply (H m); [lia|done|]. by exists q.
  - apply (H q); [lia|nia|]. exists m. lia.
Qed.

Lemma small_divisor_not_prime k d :
  2 <= d -> d * d <= k -> (d | k) -> ~ prime k.
Proof.
  intros Hd Hdd Hdiv Hp. apply prime_alt in Hp as [_ Hp].
  apply (Hp d); [nia|done].
Qed.

(** *** The invariant of the outer loop *)

Lemma sieved_init n :
  1 <= n ->
  sieved n 2
    (<[1%nat := false]> (<[0%nat := false]> (replicate (Z.to_nat (n + 1)) true))).
Proof.
  intros Hn. split.
  - by rewrite !length_insert, length_replicate.
  - intros k Hk.
    destruct (decide (k < 2)) as [Hlt|Hge].
    + split; [|by left]. intros Hlook. exfalso.
      assert (k = 0 \/ k = 1) as [-> | ->] by lia.
      * rewrite list_lookup_insert_ne in Hlook by done.
        rewrite list_lookup_insert_eq in Hlook; [done|].
        rewrite length_replicate. lia.
      * rewrite list_lookup_insert_eq in Hlook; [done|].
        rewrite length_insert, length_replicate. lia.
    + split; [intros _; split; [lia|intros; lia]|].
      intros Hlook. exfalso.
      rewrite !list_lookup_insert_ne in Hlook by lia.
      rewrite lookup_replicate_2 in Hlook by lia. done.
Qed.

Lemma sieved_strike n i l :
  2 <= i -> sieved n i l ->
  sieved n (i + 1) (mark (Z.to_nat i) (Z.to_nat (i * i)) l).
Proof.
  intros Hi [Hlen Hinv]. split; [by rewrite length_mark|].
  intros k Hk. destruct (Hinv k Hk) as [Ht Hf].
  rewrite lookup_mark by lia.
  destruct (lookup_lt_is_Some_2 l (Z.to_nat k)) as [b Hb]; [lia|].
  rewrite Hb in *. simpl.
  pose proof (struckb_square i k Hi (proj1 Hk)) as Hstruck.
  destruct (struckb (Z.to_nat i) (Z.to_nat (i * i)) (Z.to_nat k)).
  - rewrite andb_false_r. split; [done|]. intros _.
    destruct Hstruck as [[Hsq Hdiv] _]; [done|].
    right. exists i. repeat split; [lia|lia|done|done].
  - rewrite andb_true_r. split.
    + intros Hbt. destruct (Ht Hbt) as [H2 Hnd]. split; [done|].
      intros d Hd Hdd Hdiv. destruct (decide (d = i)) as [->|Hne].
      * destruct Hstruck as [_ Hs]. by discriminate Hs.
      * apply (Hnd d); [lia|done|done].
    + intros Hbf. destruct (Hf Hbf) as [?|(d & Hd & Hdd & Hdiv)]; [by left|].
      right. exists d. repeat split; [lia|lia|done|done].
Qed.

Lemma sieved_skip n i l :
  2 <= i <= n -> sieved n i l -> l !! Z.to_nat i = Some false ->
  sieved n (i + 1) l.
Proof.
  intros Hi [Hlen Hinv] Hlook. split; [done|].
  intros k Hk. destruct (Hinv k Hk) as [Ht Hf]. split.
  - intros Hbt. destruct (Ht Hbt) as [H2 Hnd]. split; [done|].
    intros d Hd Hdd Hdiv. destruct (decide (d = i)) as [->|Hne].
    + destruct (Hinv i) as [_ Hfi]; [lia|].
      destruct (Hfi Hlook) as [?|(d0 & Hd0 & Hdd0 & Hdiv0)]; [lia|].
      apply (Hnd d0); [lia|nia|]. by apply Z.divide_trans with i.
    + apply (Hnd d); [lia|done|done].
  - intros Hbf. destruct (Hf Hbf) as [?|(d & Hd & Hdd & Hdiv)]; [by left|].
    right. exists d. repeat split; [lia|lia|done|done].
Qed.

(** The outer loop ends by its own test and establishes the invariant at
    the integer square root. *)
Lemma outer_pass_sieved n fuel i l :
  0 <= n -> 2 <= i <= Z.sqrt n + 1 ->
  (Z.to_nat (Z.sqrt n + 1 - i) < fuel)%nat ->
  sieved n i l ->
  exists P, outer_pass fuel n i l = Some P /\ sieved n (Z.sqrt n + 1) P.
Proof.
  intros Hn. revert i l; induction fuel as [|fuel IH]; intros i l Hi Hf Hs.
  - lia.
  - simpl. destruct (Z.leb_spec i (Z.sqrt n)) as [Hle|Hgt].
    + assert (Z.sqrt n <= n) by (apply Z.sqrt_le_lin; lia).
      destruct (lookup_lt_is_Some_2 l (Z.to_nat i)) as [b Hb];
        [destruct Hs as [-> _]; lia|].
      rewrite Hb. destruct b.
      * apply IH; [lia|lia|]. by apply sieved_strike; [lia|].
      * apply IH; [lia|lia|]. by apply sieved_skip; [lia| |].
    + exists l. split; [done|]. by replace (Z.sqrt n + 1) with i by lia.
Qed.

Lemma sieved_final n P k :
  0 <= k <= n -> sieved n (Z.sqrt n + 1) P ->
  P !! Z.to_nat k = Some true <-> 2 <= k /\ prime k.
Proof.
  intros Hk [Hlen Hinv]. destruct (Hinv k Hk) as [Ht Hf]. split.
  - intros Hlook. destruct (Ht Hlook) as [H2 Hnd]. split; [done|].
    apply prime_of_no_small_divisor; [done|].
    intros d Hd Hdd. apply Hnd; [|done]. split; [done|].
    assert (d <= Z.sqrt n); [|lia].
    apply Z.sqrt_le_square; [lia|lia|nia].
  - intros [H2 Hp].
    destruct (lookup_lt_is_Some_2 P (Z.to_nat k)) as [[|] Hb]; [lia|done|].
    exfalso. destruct (Hf Hb) as [?|(d & Hd & Hdd & Hdiv)]; [lia|].
    by apply (small_divisor_not_prime k d); [lia| | |].
Qed.

(** *** The collecting loop *)

Lemma In_collect_from k l p :
  In p (collect_from k l)
  <-> exists idx : nat, l !! idx = Some true /\ p = k + Z.of_nat idx.
Proof.
  revert k; induction l as [|b l IH]; intros k; simpl.
  - split; [done|]. by intros (idx & Hidx & _).
  - assert (In p (collect_from (k + 1) l) <->
            exists idx : nat, l !! idx = Some true /\ p = k + Z.of_nat (S idx))
      as IH'.
    { rewrite IH. split; intros (idx & ? & ?); exists idx; split; (done || lia). }
    destruct b; simpl; rewrite IH'; split.
    + intros [<-|(idx & ? & ?)]; [exists 0%nat|exists (S idx)]; split; (done || lia).
    + intros ([|idx] & ? & ?); [left; lia|right; by exists idx].
    + intros (idx & ? & ?). by exists (S idx).
    + intros ([|idx] & ? & ?); [done|by exists idx].
Qed.

Lemma collect_from_sorted k l : StronglySorted Z.lt (collect_from k l).
Proof.
  revert k; induction l as [|b l IH]; intros k; simpl; [constructor|].
  destruct b; [|done]. constructor; [done|].
  apply Forall_forall. intros p Hp. apply list_elem_of_In in Hp.
  apply In_collect_from in Hp as (idx & _ & ->). lia.
Qed.

(** *** The sieve, for any bound *)

Lemma sieve_correct n r :
  1 <= n ->
  exists L,
    sieve n r = Some {| greeting := greeting r;
                        prime_number := prime_number r ++ L |}
    /\ sieve_pass n = Some L
    /\ StronglySorted Z.lt L
    /\ forall p, In p L <-> 2 <= p <= n /\ prime p.
Proof.
  intros Hn. unfold sieve, sieve_pass.
  set (l0 := <[1%nat := false]> (<[0%nat := false]> (replicate (Z.to_nat (n + 1)) true))).
  pose proof (sieved_init n Hn) as H0. fold l0 in H0.
  assert (1 <= Z.sqrt n) by (apply Z.sqrt_le_square; lia).
  assert (Z.sqrt n <= n) by (apply Z.sqrt_le_lin; lia).
  destruct (outer_pass_sieved n (S (Z.to_nat n)) 2 l0) as (P & HP & Hfin);
    [lia|lia|lia|done|].
  rewrite outer_loop_pass by (done || lia || apply H0).
  rewrite HP. exists (collect_from 2 (drop 2 P)).
  split; [|split; [done|split; [apply collect_from_sorted|]]].
  - rewrite collect_loop_from; [done|lia|lia|apply Hfin].
  - intros p. rewrite In_collect_from. split.
    + intros (idx & Hidx & ->). rewrite lookup_drop in Hidx.
      assert (2 + idx < length P)%nat by (by eapply lookup_lt_Some).
      destruct Hfin as [Hlen Hinv].
      assert (0 <= 2 + Z.of_nat idx <= n) as Hk by lia.
      split; [lia|].
      apply (sieved_final n P _ Hk (conj Hlen Hinv)).
      by replace (Z.to_nat (2 + Z.of_nat idx)) with (2 + idx)%nat by lia.
    + intros [Hp Hprime]. exists (Z.to_nat (p - 2)). split; [|lia].
      rewrite lookup_drop.
      replace (2 + Z.to_nat (p - 2))%nat with (Z.to_nat p) by lia.
      apply (sieved_final n P p); [lia|done|]. split; [lia|done].
Qed.

Example sieve_30 :
  sieve 30 empty_response
  = Some {| greeting := ""; prime_number := [2; 3; 5; 7; 11; 13; 17; 19; 23; 29] |}.
Proof. reflexivity. Qed.

End SieveFacts.

(* ===================================================================== *)
(** * Part III: the claims of the specification                            *)
(* ===================================================================== *)

(** C2, as the specification states it, fails: a one-byte payload is framed
    in two bytes, not in nine. *)
Lemma frame_is_not_le64 :
  ~ (forall payload msg,
       Framing.frame Framing.kDefaultCap payload = Some msg ->
       msg = Framing.frame_le64 payload).
Proof. intros H. by specialize (H [65] [1; 65] eq_refl). Qed.

(** C2, amended: a framed message is the length [N] of the payload as a
    little-endian base-128 varint, of one to four bytes for payloads within
    the 64 MiB cap, followed by exactly the [N] payload bytes; reading a
    stream that starts with the frame gives the payload back and leaves the
    rest of the stream. *)
Theorem frame_is_varint_delimited (payload : list Z) :
  Z.of_nat (length payload) <= Framing.kDefaultCap ->
  exists prefix,
    prefix = Framing.encode_length (Z.of_nat (length payload))
    /\ (1 <= length prefix <= 4)%nat
    /\ Framing.frame Framing.kDefaultCap payload = Some (prefix ++ payload)
    /\ forall rest,
         Framing.read_varint 10 (prefix ++ payload ++ rest)
           = Framing.Value (Z.of_nat (length payload)) (payload ++ rest)
         /\ Framing.deframe Framing.kDefaultCap ((prefix ++ payload) ++ rest)
           = Framing.Frame payload rest.
Proof.
  intros Hcap. unfold Framing.kDefaultCap in Hcap.
  exists (Framing.encode_length (Z.of_nat (length payload))).
  assert (Framing.frame Framing.kDefaultCap payload
          = Some (Framing.encode_length (Z.of_nat (length payload)) ++ payload))
    as Hframe.
  { unfold Framing.frame, Framing.kDefaultCap.
    destruct (Z.leb_spec (Z.of_nat (length payload)) (64 * 2 ^ 20)); [done|lia]. }
  split; [done|]. split; [|split; [done|]].
  - apply length_varint; lia.
  - intros rest. split.
    + apply read_varint_varint; lia.
    + by apply deframe_frame.
Qed.

Lemma frame_is_varint_delimited_witness :
  Z.of_nat (length [104; 105; 33]) <= Framing.kDefaultCap /\
  exists prefix,
    prefix = Framing.encode_length 3
    /\ (1 <= length prefix <= 4)%nat
    /\ Framing.frame Framing.kDefaultCap [104; 105; 33] = Some (prefix ++ [104; 105; 33])
    /\ forall rest,
         Framing.read_varint 10 (prefix ++ [104; 105; 33] ++ rest)
           = Framing.Value 3 ([104; 105; 33] ++ rest)
         /\ Framing.deframe Framing.kDefaultCap ((prefix ++ [104; 105; 33]) ++ rest)
           = Framing.Frame [104; 105; 33] rest.
Proof.
  assert (Z.of_nat (length [104; 105; 33]) <= Framing.kDefaultCap) as H
    by (vm_compute; discriminate).
  split; [exact H|]. exact (frame_is_varint_delimited [104; 105; 33] H).
Defined.



(** C6: a worker whose socket connects writes, as its next call and on
    that socket, the 36 bytes of the code token, and neither connects nor
    writes again before the binary is executed. *)
Theorem WorkerImpl_handshake os a :
  String.length (Worker.code_token a) = 36%nat ->
  os 0%nat <> -1 -> os 1%nat = 0 ->
  exists rest,
    fst (Worker.run_WorkerImpl os a) =
      [ (Worker.sys_socket, os 0%nat);
        (Worker.sys_connect (os 0%nat)
           (String.substring 0 Worker.sun_path_size (Worker.socket_name a)), 0);
        (Worker.sys_write (os 0%nat) (Worker.code_token a) 36, os 2%nat) ]
      ++ rest
    /\ Forall (fun e => Worker.is_handshake e = false) rest.
Proof.
  intros Hlen Hsock Hconn.
  pose proof (WorkerImpl_connect_run os a) as Hrun. cbv zeta in Hrun.
  assert (Worker.read_bytes (Worker.code_token a) 36 = Some (Worker.code_token a))
    as Hread.
  { unfold Worker.read_bytes. rewrite Hlen. simpl.
    rewrite <- Hlen at 1. by rewrite substring_all. }
  rewrite Hread, Hconn in Hrun. simpl in Hrun.
  destruct (Z.eqb_spec (os 0%nat) (-1)) as [?|_]; [done|].
  unfold Worker.handshake_calls in Hrun. rewrite Hconn in Hrun.
  destruct (run_WorkerImpl_cases os a)
    as [(t & e & Hc & ->)|(t3 & fd & fs & Hc & Hfs & Hr)]; rewrite Hrun in Hc.
  - exists []. destruct (os 2%nat =? 36); [done|].
    injection Hc as <- <-. by rewrite app_nil_r.
  - destruct (os 2%nat =? 36); [|done]. injection Hc as <- <-.
    assert (Forall (fun e => Worker.is_handshake e = false) fs) as Hfs'
      by (eapply Forall_impl; [exact Hfs|]; apply filesystem_not_handshake).
    destruct Hr as [->| ->]; simpl; [by exists fs|].
    rewrite WorkerImpl_exec_run. cbv zeta.
    repeat case_match; simpl;
      (eexists; split; [reflexivity|]);
      (apply Forall_app; split; [done|by repeat constructor]).
Qed.

Lemma WorkerImpl_handshake_witness :
  String.length (Worker.code_token Worker.sample_arg) = 36%nat
  /\ Worker.sample_os 0%nat <> -1 /\ Worker.sample_os 1%nat = 0
  /\ exists rest,
       fst (Worker.run_WorkerImpl Worker.sample_os Worker.sample_arg) =
         [ (Worker.sys_socket, 3);
           (Worker.sys_connect 3 "/sockdir/abcd.sock", 0);
           (Worker.sys_write 3 "0f8fad5b-d9cb-469f-a165-70867728950e" 36, 36) ]
         ++ rest
       /\ Forall (fun e => Worker.is_handshake e = false) rest.
Proof.
  split; [reflexivity|]. split; [discriminate|]. split; [reflexivity|].
  apply (WorkerImpl_handshake Worker.sample_os Worker.sample_arg);
    [reflexivity|discriminate|reflexivity].
Defined.



(** C10: when [waitpid] returns a pid that is not in the table, the turn
    of the reloader changes neither the table nor the directories nor the
    files, spawns nothing, and the loop goes on to its next [waitpid]. *)
Theorem reloader_unknown_pid env os h p status :
  Host.os_waitpid os (length (Host.events h)) = (p, status) ->
  p <> -1 ->
  Host.pid_to_udf h !! p = None ->
  exists h',
    Host.reloader_iteration env os h = Host.Ok Host.Continue h'
    /\ Host.pid_to_udf h' = Host.pid_to_udf h
    /\ Host.dirs h' = Host.dirs h
    /\ Host.files h' = Host.files h
    /\ Host.shutdown h' = Host.shutdown h
    /\ Host.events h' =
         Host.events h ++ [ Host.ev_waitpid (-1) p;
                            Host.ev_log_error "waitpid() returned unknown pid" ]
    /\ forall exits,
         Host.reloader_loop env (S exits) os h = Host.reloader_loop env exits os h'.
Proof.
  intros Hwait Hp Hlook.
  assert (exists h', Host.reloader_iteration env os h = Host.Ok Host.Continue h'
            /\ h' = Host.emit (Host.ev_log_error "waitpid() returned unknown pid")
                      (Host.emit (Host.ev_waitpid (-1) p) h))
    as (h' & Hit & ->).
  { unfold Host.reloader_iteration, mbind, Host.host_bind, Host.waitpid,
      Host.CHECK, Host.get_pid_to_udf, Host.LOG_ERROR, mret, Host.host_ret.
    rewrite Hwait. simpl.
    destruct (Z.eqb_spec p (-1)) as [?|_]; [done|]. simpl.
    rewrite Hlook. eauto. }
  eexists. split; [exact Hit|]. simpl. rewrite <- app_assoc.
  repeat split; try done.
  intros exits. simpl. unfold mbind at 1, Host.host_bind at 1. by rewrite Hit.
Qed.

Lemma reloader_unknown_pid_witness :
  Host.os_waitpid (Host.sample_exit 7 0) (length (Host.events Host.sample_host))
    = (7, 0)
  /\ 7 <> -1
  /\ Host.pid_to_udf Host.sample_host !! 7 = None
  /\ exists h',
       Host.reloader_iteration Host.sample_env (Host.sample_exit 7 0) Host.sample_host
         = Host.Ok Host.Continue h'
       /\ Host.pid_to_udf h' = Host.pid_to_udf Host.sample_host
       /\ Host.dirs h' = Host.dirs Host.sample_host
       /\ Host.files h' = Host.files Host.sample_host
       /\ Host.shutdown h' = Host.shutdown Host.sample_host
       /\ Host.events h' =
            Host.events Host.sample_host
              ++ [ Host.ev_waitpid (-1) 7;
                   Host.ev_log_error "waitpid() returned unknown pid" ]
       /\ forall exits,
            Host.reloader_loop Host.sample_env (S exits) (Host.sample_exit 7 0)
              Host.sample_host
            = Host.reloader_loop Host.sample_env exits (Host.sample_exit 7 0) h'.
Proof.
  split; [reflexivity|]. split; [discriminate|]. split; [reflexivity|].
  apply (reloader_unknown_pid Host.sample_env (Host.sample_exit 7 0)
           Host.sample_host 7 0); [reflexivity|discriminate|reflexivity].
Defined.






(** C8: for a load request the binary content is written to the file
    named by the UUID generated for this request, inside [progdir]; after
    that the permissions of the file are replaced by owner-read and
    owner-execute (0500); another UUID names another file. *)
Theorem handle_load_stores_binary env os h request :
  Host.os_open os (S (length (Host.events h))) = true ->
  (forall k, Host.os_mkdtemp os k <> None) ->
  (forall k, Host.os_clone os k <> -1) ->
  exists h' rest,
    Host.handle_load env request os h = Host.Ok tt h'
    /\ Host.events h' =
         Host.events h
         ++ [ Host.ev_uuid (Host.os_uuid os (length (Host.events h)));
              Host.ev_ofstream
                (Host.progdir env +:+ "/" +:+ Host.os_uuid os (length (Host.events h)))
                (Proto.binary_content request) true;
              Host.ev_permissions
                (Host.progdir env +:+ "/" +:+ Host.os_uuid os (length (Host.events h)))
                0x140 ]
         ++ rest
    /\ Host.files h'
         !! (Host.progdir env +:+ "/" +:+ Host.os_uuid os (length (Host.events h)))
       = Some {| Host.content := Proto.binary_content request;
                 Host.perms := Z.lor Host.owner_exec Host.owner_read |}
    /\ Z.lor Host.owner_exec Host.owner_read = 0x140
    /\ forall name,
         Host.progdir env +:+ "/" +:+ name
           = Host.progdir env +:+ "/" +:+ Host.os_uuid os (length (Host.events h)) ->
         name = Host.os_uuid os (length (Host.events h)).
Proof.
  intros Hopen Hmk Hcl.
  destruct (handle_load_run env os h request Hopen Hmk Hcl)
    as (h' & new & Hrun & Hev & Hfiles & _ & _).
  exists h', new. split; [done|]. split; [done|].
  split; [by rewrite Hfiles, lookup_insert_eq|]. split; [done|].
  intros name Heq. by do 2 apply (inj (String.app _)) in Heq.
Qed.

Lemma handle_load_stores_binary_witness :
  Host.os_open Host.sample_load (S (length (Host.events Host.sample_host))) = true
  /\ (forall k, Host.os_mkdtemp Host.sample_load k <> None)
  /\ (forall k, Host.os_clone Host.sample_load k <> -1)
  /\ exists h' rest,
       Host.handle_load Host.sample_env Host.sample_request Host.sample_load
         Host.sample_host = Host.Ok tt h'
       /\ Host.events h' =
            Host.events Host.sample_host
            ++ [ Host.ev_uuid "7d444840-9dc0-11d1-b245-5ffdce74fad2";
                 Host.ev_ofstream
                   ("/tmp/progdir" +:+ "/" +:+ "7d444840-9dc0-11d1-b245-5ffdce74fad2")
                   "ELF" true;
                 Host.ev_permissions
                   ("/tmp/progdir" +:+ "/" +:+ "7d444840-9dc0-11d1-b245-5ffdce74fad2")
                   0x140 ]
            ++ rest
       /\ Host.files h'
            !! ("/tmp/progdir" +:+ "/" +:+ "7d444840-9dc0-11d1-b245-5ffdce74fad2")
          = Some {| Host.content := "ELF";
                    Host.perms := Z.lor Host.owner_exec Host.owner_read |}
       /\ Z.lor Host.owner_exec Host.owner_read = 0x140
       /\ forall name,
            "/tmp/progdir" +:+ "/" +:+ name
              = "/tmp/progdir" +:+ "/" +:+ "7d444840-9dc0-11d1-b245-5ffdce74fad2" ->
            name = "7d444840-9dc0-11d1-b245-5ffdce74fad2".
Proof.
  assert (forall k, Host.os_mkdtemp Host.sample_load k <> None) as Hmk by done.
  assert (forall k, Host.os_clone Host.sample_load k <> -1) as Hcl
    by (intros k; simpl; lia).
  split; [reflexivity|]. split; [exact Hmk|]. split; [exact Hcl|].
  exact (handle_load_stores_binary Host.sample_env Host.sample_load
           Host.sample_host Host.sample_request eq_refl Hmk Hcl).
Defined.



(** C9: the prime sieve of the sample binary answers with the primes up to
    100000 in increasing order: 9592 numbers, the first 2, the last 99991. *)
Theorem RunPrimeSieve_primes :
  exists L,
    Sieve.RunPrimeSieve Sieve.empty_response
      = Some {| Sieve.greeting := ""; Sieve.prime_number := L |}
    /\ Z.of_nat (length L) = 9592
    /\ head L = Some 2
    /\ last L = Some 99991
    /\ StronglySorted Z.lt L
    /\ forall p, In p L <-> 2 <= p <= Sieve.kPrimeCount /\ prime p.
Proof.
  destruct (sieve_correct Sieve.kPrimeCount Sieve.empty_response)
    as (L & Hrun & Hpass & Hsorted & Hin); [unfold Sieve.kPrimeCount; lia|].
  exists L. split.
  { unfold Sieve.RunPrimeSieve. rewrite Hrun. reflexivity. }
  assert (option_map (fun l => (Z.of_nat (length l), head l, last l))
                     (Sieve.sieve_pass Sieve.kPrimeCount)
          = Some (9592, Some 2, Some 99991)) as Hc
    by (vm_compute; reflexivity).
  rewrite Hpass in Hc. cbn [option_map] in Hc.
  assert (Z.of_nat (length L) = 9592 /\ head L = Some 2 /\ last L = Some 99991)
    as (Hlen & Hhead & Hlast) by (repeat split; congruence).
  exact (conj Hlen (conj Hhead (conj Hlast (conj Hsorted Hin)))).
Qed.

(* ===================================================================== *)
(** * Part IV: further properties of the code                              *)
(* ===================================================================== *)

(** ** The calls of a spawn *)

Section WorkerCallsFacts.
Import Text Worker WorkerCalls.

Lemma answered_app os start cs1 cs2 :
  answered os start (cs1 ++ cs2)
  = answered os start cs1 ++ answered os (start + length cs1) cs2.
Proof.
  revert start. induction cs1 as [|c cs1 IH]; intros start; simpl.
  - by rewrite Nat.add_0_r.
  - by rewrite IH, Nat.add_succ_comm.
Qed.

Lemma length_answered os start cs : length (answered os start cs) = length cs.
Proof. revert start. induction cs; intros; simpl; by f_equal. Qed.

Lemma until_failure_all l : forallb succeeded l = true -> until_failure l = l.
Proof.
  induction l as [|e l IH]; simpl; [done|].
  destruct (succeeded e); simpl; [|done]. intros ?. f_equal. auto.
Qed.

Lemma until_failure_app l1 l2 :
  until_failure (l1 ++ l2)
  = if forallb succeeded l1 then l1 ++ until_failure l2 else until_failure l1.
Proof.
  induction l1 as [|e l1 IH]; simpl; [done|].
  destruct (succeeded e); simpl; [|done]. rewrite IH.
  by destruct (forallb succeeded l1).
Qed.

(** No call is made after one that failed. *)
Lemma until_failure_last l i e :
  until_failure l !! i = Some e -> succeeded e = false ->
  S i = length (until_failure l).
Proof.
  revert i. induction l as [|x l IH]; intros i; simpl; [done|].
  destruct (succeeded x) eqn:Hx.
  - destruct i as [|i]; simpl.
    + intros [= ->]. congruence.
    + intros Hi He. f_equal. by apply IH.
  - destruct i as [|i]; simpl; [done|]. by rewrite lookup_nil.
Qed.

Lemma completes_with_ret : completes_with (mret tt) [].
Proof. intros os t. simpl. by rewrite app_nil_r. Qed.

Lemma completes_with_bind (m k : Run unit) cs1 cs2 :
  completes_with m cs1 -> completes_with k cs2 ->
  completes_with (m ;; k) (cs1 ++ cs2).
Proof.
  intros Hm Hk os t. specialize (Hm os t).
  rewrite answered_app, forallb_app, until_failure_app.
  unfold mbind, run_bind. rewrite Hm.
  destruct (forallb succeeded (answered os (length t) cs1)) eqn:Hok;
    cbn [andb]; [|done].
  rewrite (until_failure_all _ Hok), Hk, length_app, length_answered.
  by rewrite app_assoc.
Qed.

(** A call whose result is checked at once. *)
Lemma completes_with_checked (c : Syscall) (test : Z -> bool) :
  (forall r, test r = succeeded (c, r)) ->
  completes_with (r ← syscall c; CHECK (test r)) [c].
Proof.
  intros Htest os t. unfold mbind, run_bind, syscall, CHECK.
  cbn [answered forallb until_failure]. rewrite <- Htest, andb_true_r.
  by destruct (test (os (length t))).
Qed.

Lemma completes_with_checked_then (c : Syscall) (test : Z -> bool)
    (k : Run unit) cs :
  (forall r, test r = succeeded (c, r)) ->
  completes_with k cs ->
  completes_with (r ← syscall c; CHECK (test r);; k) (c :: cs).
Proof.
  intros Htest Hk os t.
  pose proof (completes_with_bind _ _ _ _ (completes_with_checked c test Htest)
                Hk os t) as H.
  cbn [app] in H. rewrite <- H.
  unfold mbind, run_bind, syscall, CHECK.
  by destruct (test (os (length t))).
Qed.

Lemma completes_with_for_each {A : Type} (l : list A) (body : A -> Run unit)
    (calls : A -> list Syscall) :
  (forall x, completes_with (body x) (calls x)) ->
  completes_with (for_each l body) (concat (map calls l)).
Proof.
  intros Hbody. induction l as [|x l IH]; simpl.
  - apply completes_with_ret.
  - apply completes_with_bind; [apply Hbody|apply IH].
Qed.

Lemma concat_map_singleton {A B : Type} (f : A -> B) (l : list A) :
  concat (map (fun x => [f x]) l) = map f l.
Proof. induction l; simpl; by f_equal. Qed.

Lemma WorkerImpl_filesystem_completes a :
  completes_with (WorkerImpl_filesystem a) (filesystem_calls a).
Proof.
  unfold WorkerImpl_filesystem, filesystem_calls.
  apply (completes_with_checked_then _ (fun r => r =? 0)); [done|].
  apply completes_with_bind.
  { apply completes_with_for_each. intros mount.
    apply (completes_with_checked_then _ (fun r => negb (r =? 0)) _ [_]); [done|].
    by apply (completes_with_checked _ (fun r => r =? 0)). }
  do 2 (apply (completes_with_checked_then _ (fun r => r =? 0)); [done|]).
  apply (completes_with_checked_then _ (fun r => negb (r =? 0))); [done|].
  do 3 (apply (completes_with_checked_then _ (fun r => r =? 0)); [done|]).
  apply completes_with_bind.
  { rewrite <- concat_map_singleton. apply completes_with_for_each. intros mount.
    by apply (completes_with_checked _ (fun r => r =? 0)). }
  by apply (completes_with_checked _ (fun r => r =? 0)).
Qed.

Lemma length_filesystem_calls a :
  length (filesystem_calls a) = (8 + 3 * length (mounts a))%nat.
Proof.
  unfold filesystem_calls. rewrite !length_app, length_map. simpl.
  assert (forall (l : list string) f g,
            length (concat (map (fun m : string => [f m; g m] : list Syscall) l))
            = (2 * length l)%nat) as ->.
  { induction l as [|x l IH]; intros; simpl; [done|]. rewrite IH. lia. }
  lia.
Qed.

Lemma read_bytes_Some s n buf :
  read_bytes s n = Some buf <->
  (n <= String.length s)%nat /\ buf = String.substring 0 n s.
Proof.
  unfold read_bytes. destruct (String.length s <? n)%nat eqn:Hlen.
  - apply Nat.ltb_lt in Hlen. split; [done|]. intros [? _]. lia.
  - apply Nat.ltb_ge in Hlen. split; [by intros [= <-]|]. by intros [_ ->].
Qed.

(** A plan whose second call is the first to fail. *)
Lemma until_failure_second os c1 c2 rest :
  succeeded (c1, os 0%nat) = true -> succeeded (c2, os 1%nat) = false ->
  until_failure (answered os 0 (c1 :: c2 :: rest))
  = [(c1, os 0%nat); (c2, os 1%nat)]
  /\ forallb succeeded (answered os 0 (c1 :: c2 :: rest)) = false.
Proof. intros H1 H2. cbn [answered until_failure forallb]. by rewrite H1, H2. Qed.

(** A run of [WorkerImpl] with a code token of 36 bytes or more, by the
    results of its calls. *)
Lemma run_WorkerImpl_plan os a :
  (36 <= String.length (code_token a))%nat ->
  let n := (11 + 3 * length (mounts a))%nat in
  let plan := answered os 0 (spawn_calls a (os 0%nat) (os n)) in
  run_WorkerImpl os a
  = (until_failure plan,
     if forallb succeeded plan
     then Execed (binary_path a) [binary_path a; StrCat_int (os n)]
     else if negb (os 0%nat =? -1) && negb (os 1%nat =? 0)
          then Returned (-1) else Aborted).
Proof.
  intros Hlen n plan. subst plan.
  unfold spawn_calls. rewrite (answered_app _ _ [_; _; _]), answered_app.
  rewrite length_filesystem_calls.
  replace (0 + length [sys_socket;
             sys_connect (os 0%nat)
               (String.substring 0 sun_path_size (socket_name a));
             sys_write (os 0%nat) (String.substring 0 36 (code_token a)) 36]
           + (8 + 3 * length (mounts a)))%nat with n by (simpl; lia).
  cbn [answered length Nat.add]. rewrite !forallb_app.
  unfold run_WorkerImpl, WorkerImpl, mbind, run_bind.
  rewrite WorkerImpl_connect_run. cbv zeta.
  pose proof (WorkerImpl_filesystem_completes a os
                (handshake_calls os a (String.substring 0 36 (code_token a))))
    as Hfs.
  unfold handshake_calls in Hfs. cbn [length] in Hfs.
  cbn [forallb succeeded app until_failure]. unfold handshake_calls.
  destruct (os 0%nat =? -1) eqn:H0; cbn [negb andb]; [done|].
  destruct (os 1%nat =? 0) eqn:H1; cbn [negb andb]; [|done].
  unfold read_bytes. apply Nat.leb_le in Hlen. rewrite Nat.leb_antisym in Hlen.
  destruct (String.length (code_token a) <? 36)%nat; [done|].
  destruct (os 2%nat =? 36) eqn:H2; cbn [negb andb]; [|done].
  rewrite Hfs, until_failure_app.
  destruct (forallb succeeded (answered os 3 (filesystem_calls a))) eqn:Hok;
    cbn [andb]; [|done].
  rewrite (until_failure_all _ Hok), WorkerImpl_exec_run. cbv zeta.
  rewrite length_app, length_answered, length_filesystem_calls.
  cbn [length until_failure succeeded].
  replace (3 + (8 + 3 * length (mounts a)))%nat with n by lia.
  destruct (os n =? -1) eqn:Hd; cbn [negb andb]; [done|].
  destruct (os (S n) =? -1) eqn:Hx; cbn [negb andb]; done.
Qed.

(** With a shorter code token the handshake reads past its end. *)
Lemma run_WorkerImpl_short_token os a :
  (String.length (code_token a) < 36)%nat ->
  let plan := answered os 0
                [sys_socket;
                 sys_connect (os 0%nat)
                   (String.substring 0 sun_path_size (socket_name a))] in
  run_WorkerImpl os a
  = (until_failure plan,
     if forallb succeeded plan then Undefined
     else if negb (os 0%nat =? -1) then Returned (-1) else Aborted).
Proof.
  intros Hlen plan. subst plan.
  unfold run_WorkerImpl, WorkerImpl, mbind, run_bind.
  rewrite WorkerImpl_connect_run. cbv zeta.
  cbn [answered forallb succeeded until_failure].
  destruct (os 0%nat =? -1) eqn:H0; cbn [negb andb]; [done|].
  destruct (os 1%nat =? 0) eqn:H1; cbn [negb andb]; [|done].
  unfold read_bytes. apply Nat.ltb_lt in Hlen. by rewrite Hlen.
Qed.


(** X2: [WorkerImpl] makes no call after one that failed: a failed call is
    the last of the run, and the run then ends by the early return of -1
    (the connection was refused) or by an abort. *)
Theorem WorkerImpl_stops_at_first_failure os a t e i ev :
  run_WorkerImpl os a = (t, e) ->
  t !! i = Some ev -> succeeded ev = false ->
  S i = length t
  /\ (e = Aborted
      \/ e = Returned (-1) /\ exists fd path, fst ev = sys_connect fd path).
Proof.
  assert (forall rest,
            (os 0%nat =? -1) = false -> (os 1%nat =? 0) = false ->
            until_failure
              (answered os 0
                 (sys_socket
                  :: sys_connect (os 0%nat)
                       (String.substring 0 sun_path_size (socket_name a))
                  :: rest)) !! i = Some ev ->
            succeeded ev = false ->
            exists fd path, fst ev = sys_connect fd path) as Hconnect.
  { intros rest H0 H1 Hi Hev.
    destruct (until_failure_second os sys_socket
                (sys_connect (os 0%nat)
                   (String.substring 0 sun_path_size (socket_name a))) rest)
      as [Heq _]; [simpl; by rewrite H0|done|].
    rewrite Heq in Hi.
    destruct i as [|[|i']]; simpl in Hi.
    - assert (ev = (sys_socket, os 0%nat)) as -> by congruence.
      simpl in Hev. by rewrite H0 in Hev.
    - assert (ev = (sys_connect (os 0%nat)
                      (String.substring 0 sun_path_size (socket_name a)),
                    os 1%nat)) as -> by congruence.
      by eexists _, _.
    - by rewrite lookup_nil in Hi. }
  destruct (decide (36 <= String.length (code_token a))%nat) as [Hlen|Hlen].
  - rewrite (run_WorkerImpl_plan os a Hlen). cbv zeta.
    intros [<- <-]%pair_equal_spec Hi Hev.
    split; [by eapply until_failure_last|].
    destruct (forallb succeeded _) eqn:Hok.
    + rewrite (until_failure_all _ Hok) in Hi.
      rewrite forallb_forall in Hok. apply list_elem_of_lookup_2 in Hi.
      apply list_elem_of_In, Hok in Hi. congruence.
    + destruct (os 0%nat =? -1) eqn:H0; cbn [negb andb]; [by left|].
      destruct (os 1%nat =? 0) eqn:H1; cbn [negb andb]; [by left|].
      right. split; [done|]. unfold spawn_calls in Hi. cbn [app] in Hi.
      by eapply Hconnect.
  - rewrite run_WorkerImpl_short_token by lia. cbv zeta.
    intros [<- <-]%pair_equal_spec Hi Hev.
    split; [by eapply until_failure_last|].
    destruct (forallb succeeded _) eqn:Hok.
    + rewrite (until_failure_all _ Hok) in Hi.
      rewrite forallb_forall in Hok. apply list_elem_of_lookup_2 in Hi.
      apply list_elem_of_In, Hok in Hi. congruence.
    + destruct (os 0%nat =? -1) eqn:H0; cbn [negb andb]; [by left|].
      right. split; [done|].
      cbn [answered forallb succeeded] in Hok. rewrite H0 in Hok.
      cbn [negb andb] in Hok. rewrite andb_true_r in Hok.
      by eapply Hconnect.
Qed.

Lemma WorkerImpl_stops_at_first_failure_witness :
  run_WorkerImpl mount_refused_os sample_arg
  = (answered mount_refused_os 0
       [sys_socket; sys_connect 3 "/sockdir/abcd.sock";
        sys_write 3 "0f8fad5b-d9cb-469f-a165-70867728950e" 36;
        sys_mount None "/" None (Z.lor MS_REC MS_PRIVATE)], Aborted)
  /\ answered mount_refused_os 0
       [sys_socket; sys_connect 3 "/sockdir/abcd.sock";
        sys_write 3 "0f8fad5b-d9cb-469f-a165-70867728950e" 36;
        sys_mount None "/" None (Z.lor MS_REC MS_PRIVATE)] !! 3%nat
     = Some (sys_mount None "/" None (Z.lor MS_REC MS_PRIVATE), -1)
  /\ succeeded (sys_mount None "/" None (Z.lor MS_REC MS_PRIVATE), -1) = false
  /\ 4%nat = length (answered mount_refused_os 0
       [sys_socket; sys_connect 3 "/sockdir/abcd.sock";
        sys_write 3 "0f8fad5b-d9cb-469f-a165-70867728950e" 36;
        sys_mount None "/" None (Z.lor MS_REC MS_PRIVATE)])
  /\ (Aborted = Aborted
      \/ Aborted = Returned (-1)
         /\ exists fd path,
              fst (sys_mount None "/" None (Z.lor MS_REC MS_PRIVATE), -1)
              = sys_connect fd path).
Proof.
  assert (run_WorkerImpl mount_refused_os sample_arg
          = (answered mount_refused_os 0
               [sys_socket; sys_connect 3 "/sockdir/abcd.sock";
                sys_write 3 "0f8fad5b-d9cb-469f-a165-70867728950e" 36;
                sys_mount None "/" None (Z.lor MS_REC MS_PRIVATE)], Aborted))
    as Hrun by (vm_compute; reflexivity).
  exact (conj Hrun (conj eq_refl (conj eq_refl
           (WorkerImpl_stops_at_first_failure _ _ _ _ 3%nat _ Hrun
              eq_refl eq_refl)))).
Defined.

(** X3: [WorkerImpl] returns to its caller only when the socket was created
    and the connection refused; it has then made these two calls and no
    other, and returns -1. *)
Theorem WorkerImpl_returns_iff_connect_fails os a t code :
  run_WorkerImpl os a = (t, Returned code) <->
  os 0%nat <> -1 /\ os 1%nat <> 0 /\ code = -1
  /\ t = [(sys_socket, os 0%nat);
          (sys_connect (os 0%nat)
             (String.substring 0 sun_path_size (socket_name a)), os 1%nat)].
Proof.
  assert (forall rest,
            (os 0%nat =? -1) = false -> (os 1%nat =? 0) = false ->
            until_failure
              (answered os 0
                 (sys_socket
                  :: sys_connect (os 0%nat)
                       (String.substring 0 sun_path_size (socket_name a))
                  :: rest))
            = [(sys_socket, os 0%nat);
               (sys_connect (os 0%nat)
                  (String.substring 0 sun_path_size (socket_name a)), os 1%nat)]
            /\ forallb succeeded
                 (answered os 0
                    (sys_socket
                     :: sys_connect (os 0%nat)
                          (String.substring 0 sun_path_size (socket_name a))
                     :: rest)) = false) as Hsecond.
  { intros rest H0 H1. apply until_failure_second; simpl; by rewrite ?H0. }
  assert (run_WorkerImpl os a = (t, Returned code) <->
          (os 0%nat =? -1) = false /\ (os 1%nat =? 0) = false /\ code = -1
          /\ t = [(sys_socket, os 0%nat);
                  (sys_connect (os 0%nat)
                     (String.substring 0 sun_path_size (socket_name a)),
                   os 1%nat)]) as Hret.
  { destruct (decide (36 <= String.length (code_token a))%nat) as [Hlen|Hlen].
    - rewrite (run_WorkerImpl_plan os a Hlen). cbv zeta.
      destruct (os 0%nat =? -1) eqn:H0; cbn [negb andb].
      { split; [by case_match|]. by intros (? & _). }
      destruct (os 1%nat =? 0) eqn:H1; cbn [negb andb].
      { split; [by case_match|]. by intros (_ & ? & _). }
      unfold spawn_calls. cbn [app].
      destruct (Hsecond (sys_write (os 0%nat)
                           (String.substring 0 36 (code_token a)) 36
                         :: filesystem_calls a
                            ++ [sys_dup (os 0%nat);
                                sys_execl (binary_path a)
                                  [binary_path a;
                                   StrCat_int
                                     (os (11 + 3 * length (mounts a))%nat)]])
                  eq_refl eq_refl) as [-> ->].
      split; [by intros [<- [= <-]]%pair_equal_spec|]. by intros (_ & _ & -> & ->).
    - rewrite run_WorkerImpl_short_token by lia. cbv zeta.
      destruct (os 0%nat =? -1) eqn:H0; cbn [negb andb].
      { split; [by case_match|]. by intros (? & _). }
      destruct (os 1%nat =? 0) eqn:H1.
      { cbn [answered forallb succeeded]. rewrite H0, H1. cbn [negb andb].
        split; [done|]. by intros (_ & ? & _). }
      destruct (Hsecond [] eq_refl eq_refl) as [-> ->].
      split; [by intros [<- [= <-]]%pair_equal_spec|]. by intros (_ & _ & -> & ->). }
  rewrite Hret. rewrite !Z.eqb_neq. done.
Qed.

(** The calls of a spawn number 13 and three for each mount. *)
Lemma length_spawn_calls a fd connection_fd :
  length (spawn_calls a fd connection_fd) = (13 + 3 * length (mounts a))%nat.
Proof.
  unfold spawn_calls. rewrite !length_app, length_filesystem_calls. simpl. lia.
Qed.

End WorkerCallsFacts.

(** ** The launcher as a whole *)

Section LauncherFacts.
Import Text Host Launcher.

(** What [ConnectSendCloneAndExec] has done when it returns. *)
Lemma ConnectSendCloneAndExec_returns mnts sn tok path os h r h' :
  ConnectSendCloneAndExec mnts sn tok path os h = Ok r h' ->
  let arg := {| Worker.mounts := mnts;
                Worker.pivot_root_dir := pid_pivot_root_dir r;
                Worker.socket_name := sn;
                Worker.code_token := tok;
                Worker.binary_path := path |} in
  pid r <> -1
  /\ os_mkdtemp os (length (events h)) = Some (pid_pivot_root_dir r)
  /\ os_clone os (S (length (events h))) = pid r
  /\ pid_to_udf h' = pid_to_udf h
  /\ shutdown h' = shutdown h
  /\ files h' = files h
  /\ dirs h' = {[pid_pivot_root_dir r]} ∪ dirs h
  /\ events h'
     = events h
       ++ [ev_mkdtemp (Some (pid_pivot_root_dir r));
           ev_clone clone_flags arg
             (Some (Worker.run_WorkerImpl
                      (os_child os (S (length (events h)))) arg))
             (pid r)].
Proof.
  unfold ConnectSendCloneAndExec, mbind, host_bind, mkdtemp, clone, CHECK,
    mret, host_ret, crash.
  destruct (os_mkdtemp os (length (events h))) as [d|] eqn:Hd; [|done].
  cbn [events emit set_dirs]. rewrite length_snoc.
  destruct (Z.eqb_spec (os_clone os (S (length (events h)))) (-1)) as [?|Hne];
    cbn [negb]; [done|].
  intros [= <- <-]. cbn. rewrite <- app_assoc. done.
Qed.



(** X5: when the file for the binary cannot be opened and no file of that
    name exists, [main] stops on the exception of
    [std::filesystem::permissions]: it has spawned no worker and has left
    the table, the files and the directories as they were. *)
Theorem handle_load_unwritable_binary env os h request :
  os_open os (S (length (events h))) = false ->
  files h !! path_join (progdir env) (os_uuid os (length (events h))) = None ->
  exists h',
    handle_load env request os h = Crash h'
    /\ events h'
       = events h
         ++ [ev_uuid (os_uuid os (length (events h)));
             ev_ofstream (path_join (progdir env) (os_uuid os (length (events h))))
               (Proto.binary_content request) false;
             ev_permissions
               (path_join (progdir env) (os_uuid os (length (events h))))
               (Z.lor owner_exec owner_read)]
    /\ spawned_pids (new_events h h') = []
    /\ pid_to_udf h' = pid_to_udf h
    /\ files h' = files h
    /\ dirs h' = dirs h.
Proof.
  intros Hopen Hnone.
  unfold handle_load.
  unfold mbind at 1, host_bind at 1, GenerateUuid.
  unfold mbind at 1, host_bind at 1, ofstream_write.
  cbn [events emit]. rewrite length_snoc, Hopen.
  unfold mbind at 1, host_bind at 1, permissions.
  cbn [files emit]. rewrite Hnone.
  eexists. split; [reflexivity|]. cbn [events emit pid_to_udf files dirs].
  rewrite <- !app_assoc. cbn [app].
  split; [done|]. split; [|done].
  unfold new_events. cbn [events emit]. by rewrite <- !app_assoc, drop_app_length.
Qed.

Lemma handle_load_unwritable_binary_witness :
  os_open sample_read_only (S (length (events sample_host))) = false
  /\ files sample_host
       !! path_join (progdir sample_env)
            (os_uuid sample_read_only (length (events sample_host))) = None
  /\ exists h',
       handle_load sample_env sample_request sample_read_only sample_host
       = Crash h'
       /\ events h'
          = events sample_host
            ++ [ev_uuid (os_uuid sample_read_only (length (events sample_host)));
                ev_ofstream
                  (path_join (progdir sample_env)
                     (os_uuid sample_read_only (length (events sample_host))))
                  (Proto.binary_content sample_request) false;
                ev_permissions
                  (path_join (progdir sample_env)
                     (os_uuid sample_read_only (length (events sample_host))))
                  (Z.lor owner_exec owner_read)]
       /\ spawned_pids (new_events sample_host h') = []
       /\ pid_to_udf h' = pid_to_udf sample_host
       /\ files h' = files sample_host
       /\ dirs h' = dirs sample_host.
Proof.
  assert (files sample_host
            !! path_join (progdir sample_env)
                 (os_uuid sample_read_only (length (events sample_host))) = None)
    as Hnone by (vm_compute; reflexivity).
  split; [reflexivity|]. split; [exact Hnone|].
  exact (handle_load_unwritable_binary sample_env sample_read_only sample_host
           sample_request eq_refl Hnone).
Defined.








(** The decoder takes at least one byte. *)
Lemma read_varint_shorter fuel input v rest :
  Framing.read_varint fuel input = Framing.Value v rest ->
  (length rest < length input)%nat.
Proof.
  revert input v rest. induction fuel as [|fuel IH]; intros input v rest;
    cbn [Framing.read_varint]; [done|].
  destruct input as [|b input']; [done|].
  destruct (b <? 128); [intros [= _ <-]; simpl; lia|].
  destruct (Framing.read_varint fuel input') as [v' rest'| |] eqn:Hrec; try done.
  apply IH in Hrec. intros [= _ <-]. simpl. lia.
Qed.

Lemma deframe_shorter cap input payload rest :
  Framing.deframe cap input = Framing.Frame payload rest ->
  (length rest < length input)%nat.
Proof.
  unfold Framing.deframe.
  destruct (Framing.read_varint 10 input) as [n rest0| |] eqn:Hv; try done.
  apply read_varint_shorter in Hv.
  destruct (cap <? n); [done|].
  destruct (Z.of_nat (length rest0) <? n); [done|].
  intros [= _ <-]. rewrite length_drop. lia.
Qed.

(** The loop of [main] does not depend on its fuel, once there is more
    fuel than input. *)
Lemma main_loop_fuel env parse fuel1 fuel2 input :
  (length input < fuel1)%nat -> (length input < fuel2)%nat ->
  main_loop env parse fuel1 input = main_loop env parse fuel2 input.
Proof.
  revert fuel2 input. induction fuel1 as [|fuel1 IH]; intros fuel2 input H1 H2;
    [lia|].
  destruct fuel2 as [|fuel2]; [lia|]. cbn [main_loop].
  destruct (Framing.deframe Framing.kDefaultCap input) as [payload rest| |]
    eqn:Hframe; try done.
  apply deframe_shorter in Hframe.
  destruct (parse payload); [|done].
  rewrite (IH fuel2 rest) by lia. done.
Qed.

(** X8: [main] handles the requests in the order in which their frames
    arrive, one [handle_load] each, up to the end of the input or the first
    frame that is no request; it sets [shutdown] only then, and what follows
    such a frame is never handled. *)
Theorem main_serve_handles_requests_in_order env parse requests msgs tail :
  Forall2 (fun request msg =>
             exists payload,
               Framing.frame Framing.kDefaultCap payload = Some msg
               /\ parse payload = Some request) requests msgs ->
  match Framing.deframe Framing.kDefaultCap tail with
  | Framing.Frame payload _ => parse payload = None
  | _ => True
  end ->
  main_serve env parse (concat msgs ++ tail)
  = (handle_all env requests ;; put_shutdown true).
Proof.
  intros Hframes Htail. unfold main_serve. f_equal.
  assert (Framing.kDefaultCap < 128 ^ 10) as Hcap by (by vm_compute).
  induction Hframes as [|request msg requests msgs (payload & Hmsg & Hparse) _ IH].
  - cbn [concat app main_loop handle_all].
    destruct (Framing.deframe Framing.kDefaultCap tail) as [payload rest| |];
      try done.
    by rewrite Htail.
  - cbn [concat handle_all main_loop]. rewrite <- app_assoc.
    rewrite (deframe_frame Framing.kDefaultCap payload msg _ Hcap Hmsg), Hparse.
    rewrite <- IH.
    rewrite (main_loop_fuel env parse (length (msg ++ concat msgs ++ tail))
               (S (length (concat msgs ++ tail))) (concat msgs ++ tail));
      [done| |lia].
    rewrite !length_app.
    assert (0 < length msg)%nat; [|lia].
    pose proof (deframe_frame Framing.kDefaultCap payload msg [] Hcap Hmsg) as Hd.
    apply deframe_shorter in Hd. rewrite length_app in Hd. lia.
Qed.

Lemma main_serve_handles_requests_in_order_witness :
  Forall2 (fun request msg =>
             exists payload,
               Framing.frame Framing.kDefaultCap payload = Some msg
               /\ sample_parse payload = Some request)
          [sample_request] [[2; 8; 3]]
  /\ match Framing.deframe Framing.kDefaultCap [] with
     | Framing.Frame payload _ => sample_parse payload = None
     | _ => True
     end
  /\ main_serve sample_env sample_parse (concat [[2; 8; 3]] ++ [])
     = (handle_all sample_env [sample_request] ;; put_shutdown true).
Proof.
  assert (Forall2 (fun request msg =>
                     exists payload,
                       Framing.frame Framing.kDefaultCap payload = Some msg
                       /\ sample_parse payload = Some request)
                  [sample_request] [[2; 8; 3]]) as Hframes.
  { constructor; [|constructor]. exists [8; 3]. split; reflexivity. }
  assert (match Framing.deframe Framing.kDefaultCap [] with
          | Framing.Frame payload _ => sample_parse payload = None
          | _ => True
          end) as Htail by exact I.
  exact (conj Hframes (conj Htail
           (main_serve_handles_requests_in_order sample_env sample_parse
              [sample_request] [[2; 8; 3]] [] Hframes Htail))).
Defined.

(** X9: [ConnectSendCloneAndExec] returns only the pid of a child that was
    cloned: never -1. The child has run [WorkerImpl] with the mounts, the
    socket name, the code token and the binary path it was given and with
    the directory it returns, which exists then. When it stops instead, no
    child has run; a directory that was made for the child is left behind. *)
Theorem ConnectSendCloneAndExec_outcome mnts sn tok path os h :
  let arg := fun dir => {| Worker.mounts := mnts;
                           Worker.pivot_root_dir := dir;
                           Worker.socket_name := sn;
                           Worker.code_token := tok;
                           Worker.binary_path := path |} in
  match ConnectSendCloneAndExec mnts sn tok path os h with
  | Ok r h' =>
      pid r <> -1
      /\ pid_pivot_root_dir r ∈ dirs h'
      /\ pid_to_udf h' = pid_to_udf h
      /\ omap cloned (new_events h h')
         = [(arg (pid_pivot_root_dir r),
             Some (Worker.run_WorkerImpl (os_child os (S (length (events h))))
                     (arg (pid_pivot_root_dir r))),
             pid r)]
  | Crash h' =>
      pid_to_udf h' = pid_to_udf h
      /\ (omap cloned (new_events h h') = [] /\ dirs h' = dirs h
          \/ exists dir,
               omap cloned (new_events h h') = [(arg dir, None, -1)]
               /\ dirs h' = {[dir]} ∪ dirs h)
  end.
Proof.
  intros arg.
  destruct (ConnectSendCloneAndExec mnts sn tok path os h) as [r h'|h'] eqn:Hrun.
  - apply ConnectSendCloneAndExec_returns in Hrun
      as (Hpid & _ & _ & Htable & _ & _ & Hdirs & Hev).
    split; [done|]. split; [rewrite Hdirs; apply elem_of_union_l;
                            by apply elem_of_singleton|].
    split; [done|].
    unfold new_events. by rewrite Hev, drop_app_length.
  - revert Hrun.
    unfold ConnectSendCloneAndExec, mbind, host_bind, mkdtemp, clone, CHECK,
      mret, host_ret, crash.
    destruct (os_mkdtemp os (length (events h))) as [d|] eqn:Hd.
    + cbn [events emit set_dirs]. rewrite length_snoc.
      destruct (Z.eqb_spec (os_clone os (S (length (events h)))) (-1))
        as [Hfail|Hne]; cbn [negb]; [|done].
      intros [= <-]. cbn [pid_to_udf dirs emit set_dirs]. split; [done|].
      right. exists d. split; [|done].
      unfold new_events. cbn [events emit set_dirs].
      rewrite <- app_assoc, drop_app_length. cbn. by rewrite Hfail.
    + intros [= <-]. cbn [pid_to_udf dirs emit]. split; [done|]. left.
      split; [|done]. unfold new_events. cbn [events emit].
      by rewrite drop_app_length.
Qed.

(** What [spawn_and_record] has done when it returns. *)
Lemma spawn_and_record_returns env tok path os h h' :
  spawn_and_record env tok path os h = Ok tt h' ->
  exists p dir new,
    p <> -1
    /\ pid_to_udf h'
       = <[p := {| pivot_root_dir := dir; code_token := tok;
                   binary_path := path |}]> (pid_to_udf h)
    /\ shutdown h' = shutdown h
    /\ files h' = files h
    /\ events h' = events h ++ new
    /\ spawned_pids new = [p].
Proof.
  unfold spawn_and_record. unfold mbind at 1, host_bind at 1.
  destruct (ConnectSendCloneAndExec _ _ _ _ _ _) as [r h1|] eqn:Hspawn; [|done].
  apply ConnectSendCloneAndExec_returns in Hspawn
    as (Hpid & _ & _ & Htable & Hshut & Hfiles & _ & Hev).
  unfold mbind, host_bind, get_pid_to_udf, put_pid_to_udf.
  intros [= <-]. eexists (pid r), (pid_pivot_root_dir r), _.
  cbn [pid_to_udf shutdown files events set_pid_to_udf].
  split; [done|]. split; [by rewrite Htable|]. split; [done|]. split; [done|].
  split; [exact Hev|]. cbn.
  by destruct (Z.eqb_spec (pid r) (-1)).
Qed.

Lemma repeat_spawn_returns env tok path os count h h' :
  repeat_times count (spawn_and_record env tok path) os h = Ok tt h' ->
  exists new,
    events h' = events h ++ new
    /\ shutdown h' = shutdown h
    /\ files h' = files h
    /\ (forall p, p ∉ spawned_pids new -> pid_to_udf h' !! p = pid_to_udf h !! p)
    /\ forall p, p ∈ spawned_pids new -> recorded h' tok path p.
Proof.
  revert h. induction count as [|count IH]; intros h; cbn [repeat_times].
  - intros [= <-]. exists []. rewrite app_nil_r. repeat split; try done.
    intros p Hp. by apply elem_of_nil in Hp.
  - unfold mbind, host_bind.
    destruct (spawn_and_record env tok path os h) as [[] h1|] eqn:Hone; [|done].
    apply spawn_and_record_returns in Hone
      as (p1 & dir & new1 & Hp1 & Htable & Hshut & Hfiles & Hev & Hnew1).
    intros (new & Hev' & Hshut' & Hfiles' & Hother & Hrec)%IH.
    exists (new1 ++ new). rewrite spawned_pids_app, Hnew1.
    split; [by rewrite Hev', Hev, app_assoc|]. split; [congruence|].
    split; [congruence|]. split.
    + intros p Hp. apply not_elem_of_cons in Hp as [Hne Hp].
      rewrite Hother, Htable by done. by apply lookup_insert_ne.
    + intros p [->|Hp]%elem_of_cons; [|by apply Hrec].
      destruct (decide (p1 ∈ spawned_pids new)) as [Hin|Hin]; [by apply Hrec|].
      eexists. rewrite Hother, Htable, lookup_insert_eq by done. done.
Qed.

(** X25: a load that comes to its end has not touched the workers that
    were in the table, other than to replace the entry of a pid that the
    operating system has given to one of the new workers; every new worker
    is in the table with the token of the request and the path of the
    stored binary, and [shutdown] is as it was. *)
Theorem handle_load_keeps_other_workers env request os h h' :
  handle_load env request os h = Ok tt h' ->
  (forall p, p ∉ spawned_pids (new_events h h') ->
             pid_to_udf h' !! p = pid_to_udf h !! p)
  /\ (forall p, p ∈ spawned_pids (new_events h h') ->
                recorded h' (Proto.code_token request)
                  (path_join (progdir env) (os_uuid os (length (events h)))) p)
  /\ spawned_pids (new_events h h') <> []
  /\ shutdown h' = shutdown h.
Proof.
  unfold handle_load.
  unfold mbind at 1, host_bind at 1, GenerateUuid.
  set (path := path_join (progdir env) (os_uuid os (length (events h)))).
  unfold mbind at 1, host_bind at 1.
  destruct (ofstream_write _ _ _ _) as [[] h1|] eqn:Hwrite; [|done].
  assert (pid_to_udf h1 = pid_to_udf h /\ shutdown h1 = shutdown h
          /\ exists e1 e2, events h1 = events h ++ [e1; e2]
                           /\ spawned_pids [e1; e2] = []) as (Ht1 & Hs1 & Hev1).
  { revert Hwrite. unfold ofstream_write. cbn [events emit].
    destruct (os_open os _); intros [= <-]; cbn;
      (split; [done|]); (split; [done|]); eexists _, _;
      rewrite <- app_assoc; split; reflexivity. }
  destruct Hev1 as (e1 & e2 & Hev1 & Hnone1).
  unfold mbind at 1, host_bind at 1.
  destruct (permissions _ _ _ _) as [[] h2|] eqn:Hperm; [|done].
  assert (pid_to_udf h2 = pid_to_udf h1 /\ shutdown h2 = shutdown h1
          /\ exists e3, events h2 = events h1 ++ [e3]
                        /\ spawned_pids [e3] = []) as (Ht2 & Hs2 & e3 & Hev2 & Hnone2).
  { revert Hperm. unfold permissions.
    destruct (files h1 !! path); [|done]. intros [= <-]. cbn.
    split; [done|]. split; [done|]. eexists. split; reflexivity. }
  unfold mbind, host_bind.
  destruct (repeat_times _ _ os h2) as [[] h3|] eqn:Hloop; [|done].
  apply repeat_spawn_returns in Hloop
    as (new3 & Hev3 & Hs3 & _ & Hother3 & Hrec3).
  intros Hlast.
  pose proof (repeat_spawn_returns env (Proto.code_token request) path os 1 h3 h')
    as Hone.
  cbn [repeat_times] in Hone. unfold mbind, host_bind in Hone.
  rewrite Hlast in Hone.
  destruct (Hone eq_refl) as (new4 & Hev4 & Hs4 & _ & Hother4 & Hrec4).
  apply spawn_and_record_returns in Hlast
    as (p4 & dir4 & new4' & _ & _ & _ & _ & Hev4' & Hnew4).
  assert (new4' = new4) as -> by (rewrite Hev4 in Hev4'; by simplify_list_eq).
  assert (spawned_pids (new_events h h') = spawned_pids new3 ++ [p4]) as Hpids.
  { unfold new_events. rewrite Hev4, Hev3, Hev2, Hev1, <- !app_assoc.
    rewrite drop_app_length, !spawned_pids_app.
    by rewrite Hnone1, Hnone2, Hnew4. }
  rewrite Hpids. split; [|split; [|split]].
  - intros p [Hp3 Hp4]%not_elem_of_app.
    rewrite Hnew4 in Hother4.
    rewrite Hother4, Hother3 by done. congruence.
  - intros p [Hp|Hp]%elem_of_app.
    + destruct (decide (p ∈ spawned_pids new4)) as [Hin|Hin]; [by apply Hrec4|].
      destruct (Hrec3 p Hp) as (udf & Hlook & Hgood).
      exists udf. by rewrite Hother4.
    + apply Hrec4. by rewrite Hnew4.
  - by destruct (spawned_pids new3).
  - congruence.
Qed.

Lemma handle_load_keeps_other_workers_witness :
  handle_load sample_env sample_request sample_load sample_host
  = Ok tt (final_host (handle_load sample_env sample_request sample_load
                         sample_host))
  /\ (forall p,
        p ∉ spawned_pids
              (new_events sample_host
                 (final_host (handle_load sample_env sample_request sample_load
                                sample_host))) ->
        pid_to_udf (final_host (handle_load sample_env sample_request
                                  sample_load sample_host)) !! p
        = pid_to_udf sample_host !! p)
  /\ (forall p,
        p ∈ spawned_pids
              (new_events sample_host
                 (final_host (handle_load sample_env sample_request sample_load
                                sample_host))) ->
        recorded (final_host (handle_load sample_env sample_request sample_load
                                sample_host))
          (Proto.code_token sample_request)
          (path_join (progdir sample_env)
             (os_uuid sample_load (length (events sample_host)))) p)
  /\ spawned_pids
       (new_events sample_host
          (final_host (handle_load sample_env sample_request sample_load
                         sample_host))) <> []
  /\ shutdown (final_host (handle_load sample_env sample_request sample_load
                             sample_host))
     = shutdown sample_host.
Proof.
  assert (handle_load sample_env sample_request sample_load sample_host
          = Ok tt (final_host (handle_load sample_env sample_request
                                 sample_load sample_host))) as Hrun.
  { destruct (handle_load_run sample_env sample_load sample_host sample_request)
      as (h' & new & -> & _); try done. intros k. simpl. lia. }
  exact (conj Hrun (handle_load_keeps_other_workers _ _ _ _ _ Hrun)).
Defined.

End LauncherFacts.

(** ** The payload binary *)

Section PayloadFacts.
Import Text Udf Payload.








End PayloadFacts.

(** ** Paths and the sieve *)

Section PathFacts.
Import Text Worker WorkerCalls.





End PathFacts.

Section SieveMore.
Import Sieve.

(** X14: [RunPrimeSieve] adds to the response it is given: it keeps the
    greeting and the numbers that are there and appends, for every
    response the same, the primes up to [kPrimeCount] in increasing order.
    Run twice on a response, it leaves them there twice. *)
Theorem RunPrimeSieve_appends :
  exists L,
    StronglySorted Z.lt L
    /\ (forall p, In p L <-> 2 <= p <= kPrimeCount /\ prime p)
    /\ (forall r,
          RunPrimeSieve r
          = Some {| greeting := greeting r;
                    prime_number := prime_number r ++ L |})
    /\ (forall r,
          RunPrimeSieve r ≫= RunPrimeSieve
          = Some {| greeting := greeting r;
                    prime_number := prime_number r ++ L ++ L |}).
Proof.
  destruct (sieve_correct kPrimeCount empty_response)
    as (L & _ & Hpass & Hsorted & Hin); [unfold kPrimeCount; lia|].
  assert (forall r, RunPrimeSieve r
                    = Some {| greeting := greeting r;
                              prime_number := prime_number r ++ L |}) as Hrun.
  { intros r.
    destruct (sieve_correct kPrimeCount r)
      as (L' & Hr & Hpass' & _); [unfold kPrimeCount; lia|].
    unfold RunPrimeSieve. rewrite Hr.
    assert (L' = L) as -> by congruence.
    reflexivity. }
  clear Hpass.
  assert (forall r,
            RunPrimeSieve r ≫= RunPrimeSieve
            = Some {| greeting := greeting r;
                      prime_number := prime_number r ++ L ++ L |}) as Htwice.
  { intros r. rewrite (Hrun r). cbn [mbind option_bind]. rewrite Hrun.
    cbn [greeting prime_number]. rewrite <- app_assoc. reflexivity. }
  exact (ex_intro _ L (conj Hsorted (conj Hin (conj Hrun Htwice)))).
Qed.

End SieveMore.

(** ** The sample binary *)

Section SampleBinaryFacts.
Import Text Sieve SampleBinary.

Lemma RunEchoCallback_run fd os t :
  RunEchoCallback fd os t
  = let sent := io_write_callback fd {| function_name := "example"; id := "" |} in
    if os_write os (length t) then
      match os_read os (S (length t)) with
      | Some answer =>
          (t ++ [sent true; io_read_callback fd (Some answer)], inr tt)
      | None => (t ++ [sent true; io_read_callback fd None], inl Aborted)
      end
    else (t ++ [sent false], inl Aborted).
Proof.
  unfold RunEchoCallback, mbind, run_bind, write_callback, read_callback,
    CHECK, stop, mret, run_ret. cbv zeta.
  destruct (os_write os (length t)); [|done].
  rewrite length_app, Nat.add_1_r, <- app_assoc. cbn [length app].
  by destruct (os_read os (S (length t))).
Qed.

(** The first loop of [RunConcurrentEchoCallback]: it ends when every
    callback was sent. *)
Lemma send_loop_run fd ids os t t' :
  for_each ids (fun i =>
    ok ← write_callback fd {| function_name := "example"; id := i |};
    CHECK ok) os t = (t', inr tt)
  <-> (forall k, (k < length ids)%nat -> os_write os (length t + k) = true)
      /\ t' = t ++ map (fun i => io_write_callback fd
                                   {| function_name := "example"; id := i |} true)
                       ids.
Proof.
  revert t. induction ids as [|i ids IH]; intros t; cbn [for_each map length].
  - rewrite app_nil_r. split.
    + intros [= <-]. split; [|done]. intros k ?. lia.
    + by intros [_ ->].
  - unfold mbind at 1, run_bind at 1.
    unfold mbind at 1, run_bind at 1, write_callback, CHECK.
    destruct (os_write os (length t)) eqn:Hw; cbn [mret run_ret stop].
    + rewrite IH, length_app. cbn [length]. rewrite <- app_assoc. cbn [app].
      split; intros [Hall ->]; (split; [|done]); intros k Hk.
      * destruct k as [|k]; [by rewrite Nat.add_0_r|].
        specialize (Hall k ltac:(lia)).
        by replace (length t + S k)%nat with (length t + 1 + k)%nat by lia.
      * specialize (Hall (S k) ltac:(lia)).
        by replace (length t + 1 + k)%nat with (length t + S k)%nat by lia.
    + split; [done|]. intros [Hall _].
      specialize (Hall 0%nat ltac:(lia)). rewrite Nat.add_0_r in Hall.
      congruence.
Qed.

(** The second loop: it ends when [count] answers were read whose ids are
    ids that were sent, differ from each other and were not received
    before. *)
Lemma receive_loop_run fd count recv_ids os t t' :
  receive_loop fd count recv_ids os t = (t', inr tt)
  <-> exists answers,
        length answers = count
        /\ (forall k answer, answers !! k = Some answer ->
                             os_read os (length t + k) = Some answer)
        /\ Forall (fun answer => id answer ∈ send_ids /\ id answer ∉ recv_ids)
                  answers
        /\ NoDup (map id answers)
        /\ t' = t ++ map (fun answer => io_read_callback fd (Some answer)) answers.
Proof.
  revert recv_ids t. induction count as [|count IH]; intros recv_ids t;
    cbn [receive_loop].
  - split.
    + intros [= <-]. exists []. rewrite app_nil_r.
      repeat split; try done; constructor.
    + intros (answers & Hlen & _ & _ & _ & ->).
      destruct answers; [|done]. by rewrite app_nil_r.
  - unfold mbind at 1, run_bind at 1, read_callback.
    destruct (os_read os (length t)) as [answer|] eqn:Hread.
    2:{ split; [done|]. intros ([|answer answers] & Hlen & Hall & _); [done|].
        specialize (Hall 0%nat answer eq_refl). rewrite Nat.add_0_r in Hall.
        congruence. }
    unfold mbind at 1, run_bind at 1, CHECK.
    destruct (decide (id answer ∈ send_ids)) as [Hsent|Hsent].
    2:{ rewrite bool_decide_eq_false_2 by done. cbn [stop].
        split; [done|].
        intros ([|answer' answers] & Hlen & Hall & Hgood & _); [done|].
        specialize (Hall 0%nat answer' eq_refl). rewrite Nat.add_0_r in Hall.
        assert (answer' = answer) as -> by congruence.
        apply Forall_cons in Hgood as [[? _] _]. done. }
    rewrite bool_decide_eq_true_2 by done. cbn [mret run_ret].
    unfold mbind at 1, run_bind at 1, CHECK.
    destruct (decide (id answer ∉ recv_ids)) as [Hnew|Hnew].
    2:{ rewrite bool_decide_eq_false_2 by done. cbn [stop].
        split; [done|].
        intros ([|answer' answers] & Hlen & Hall & Hgood & _); [done|].
        specialize (Hall 0%nat answer' eq_refl). rewrite Nat.add_0_r in Hall.
        assert (answer' = answer) as -> by congruence.
        apply Forall_cons in Hgood as [[_ ?] _]. done. }
    rewrite bool_decide_eq_true_2 by done. cbn [mret run_ret].
    rewrite IH, length_app. cbn [length]. split.
    + intros (answers & Hlen & Hall & Hgood & Hdup & ->).
      exists (answer :: answers). cbn [length map].
      split; [by rewrite Hlen|]. split.
      { intros [|k] answer' Hk; cbn in Hk.
        - rewrite Nat.add_0_r. congruence.
        - apply Hall in Hk.
          by replace (length t + S k)%nat with (length t + 1 + k)%nat by lia. }
      split.
      { constructor; [done|]. eapply Forall_impl; [exact Hgood|].
        intros a [? Hnot]. split; [done|].
        intros Hin. apply Hnot, elem_of_union_r, Hin. }
      split; [|by rewrite <- app_assoc].
      constructor; [|done]. intros Hin.
      apply list_elem_of_fmap in Hin as (a & Hid & Ha).
      rewrite Forall_forall in Hgood. destruct (Hgood a Ha) as [_ Hnot].
      apply Hnot, elem_of_union_l, elem_of_singleton. done.
    + intros ([|answer' answers] & Hlen & Hall & Hgood & Hdup & ->); [done|].
      pose proof (Hall 0%nat answer' eq_refl) as H0.
      rewrite Nat.add_0_r in H0.
      assert (answer' = answer) as -> by congruence.
      cbn [map] in Hdup. apply NoDup_cons in Hdup as [Hfresh Hdup].
      apply Forall_cons in Hgood as [_ Hgood].
      exists answers. split; [cbn in Hlen; lia|]. split.
      { intros k a Hk. specialize (Hall (S k) a Hk).
        by replace (length t + 1 + k)%nat with (length t + S k)%nat by lia. }
      split.
      { rewrite Forall_forall in Hgood. rewrite Forall_forall.
        intros a Ha. destruct (Hgood a Ha) as [? Hnot]. split; [done|].
        intros [Hin%elem_of_singleton|Hin]%elem_of_union; [|done].
        apply Hfresh. rewrite <- Hin. apply list_elem_of_fmap. eauto. }
      split; [done|]. rewrite <- app_assoc. done.
Qed.

Lemma size_send_ids : size send_ids = 6%nat.
Proof. vm_compute. reflexivity. Qed.

(** Six different ids that were sent are the six ids that were sent. *)
Lemma all_send_ids (ids : list string) :
  length ids = 6%nat /\ Forall (fun i => i ∈ send_ids) ids /\ NoDup ids
  <-> ids ≡ₚ elements send_ids.
Proof.
  split.
  - intros (Hlen & Hin & Hdup).
    assert (list_to_set ids ≡@{gset string} send_ids) as Heq.
    { apply set_subseteq_size_equiv.
      - intros i Hi%elem_of_list_to_set. rewrite Forall_forall in Hin. auto.
      - rewrite size_list_to_set, size_send_ids by done. lia. }
    apply leibniz_equiv in Heq. rewrite <- Heq.
    symmetry. by apply elements_list_to_set.
  - intros Hperm. split; [|split].
    + rewrite Hperm. rewrite <- size_send_ids. done.
    + rewrite Forall_forall. intros i Hi. rewrite Hperm in Hi.
      by apply elem_of_elements in Hi.
    + rewrite Hperm. apply NoDup_elements.
Qed.

(** X15: [RunConcurrentEchoCallback] comes to its end exactly when all
    six callbacks could be sent and the next six messages read are
    answers that carry the six ids, each once, in any order; any other
    answer, a repeated one or a missing one aborts the binary. *)
Theorem RunConcurrentEchoCallback_completes_iff fd os t t' :
  RunConcurrentEchoCallback fd os t = (t', inr tt)
  <-> exists answers,
        (forall k, (k < 6)%nat -> os_write os (length t + k) = true)
        /\ (forall k answer, answers !! k = Some answer ->
                             os_read os (length t + 6 + k) = Some answer)
        /\ map id answers ≡ₚ elements send_ids
        /\ t' = t ++ map (fun i => io_write_callback fd
                                     {| function_name := "example"; id := i |}
                                     true) (elements send_ids)
                  ++ map (fun answer => io_read_callback fd (Some answer))
                         answers.
Proof.
  assert (length (elements send_ids) = 6%nat) as Hsix by apply size_send_ids.
  unfold RunConcurrentEchoCallback, mbind, run_bind.
  destruct (for_each _ _ os t) as [t1 [e|[]]] eqn:Hsend.
  - split; [done|]. intros (answers & Hw & _).
    assert (for_each (elements send_ids) (fun i =>
              ok ← write_callback fd {| function_name := "example"; id := i |};
              CHECK ok) os t
            = (t ++ map (fun i => io_write_callback fd
                                    {| function_name := "example"; id := i |}
                                    true) (elements send_ids), inr tt)) as Hok.
    { apply send_loop_run. split; [|done]. by rewrite Hsix. }
    unfold mbind, run_bind in Hok. congruence.
  - apply send_loop_run in Hsend as [Hw ->]. rewrite Hsix in Hw.
    rewrite receive_loop_run, size_send_ids.
    rewrite length_app, length_map, Hsix.
    split.
    + intros (answers & Hlen & Hr & Hgood & Hdup & ->).
      exists answers. split; [done|]. split; [done|].
      split; [|by rewrite <- app_assoc].
      apply all_send_ids. rewrite length_map. split; [done|]. split; [|done].
      rewrite Forall_fmap. eapply Forall_impl; [exact Hgood|]. by intros a [? _].
    + intros (answers & _ & Hr & Hperm & ->).
      apply all_send_ids in Hperm as (Hlen & Hin & Hdup).
      rewrite length_map in Hlen.
      exists answers. split; [done|]. split; [done|].
      split; [|split; [done|by rewrite <- app_assoc]].
      rewrite Forall_fmap in Hin. eapply Forall_impl; [exact Hin|].
      intros a Ha. split; [done|]. apply not_elem_of_empty.
Qed.

Lemma exchanges_with_ret fd : exchanges_with fd [] (mret tt).
Proof.
  intros os t. exists []. cbn. rewrite app_nil_r.
  split; [done|]. split; constructor.
Qed.

Lemma exchanges_with_bind fd kinds1 kinds2 (m k : Run unit) :
  exchanges_with fd kinds1 m -> exchanges_with fd kinds2 k ->
  exchanges_with fd (kinds1 ++ kinds2) (m ;; k).
Proof.
  intros Hm Hk os t. destruct (Hm os t) as (calls1 & Hev1 & Hio1 & Hend1).
  unfold mbind, run_bind.
  destruct (m os t) as [t1 [e|[]]]; cbn [fst snd] in *; subst t1.
  - exists calls1. done.
  - destruct (Hk os (t ++ calls1)) as (calls2 & Hev2 & Hio2 & Hend2).
    exists (calls1 ++ calls2). rewrite Hev2, app_assoc.
    split; [done|]. split; [by apply Forall_app|].
    destruct (snd (k os (t ++ calls1))); [done|].
    by apply Forall2_app.
Qed.

Lemma is_callback_io_write fd callback ok :
  is_callback_io fd (io_write_callback fd callback ok) = true.
Proof. cbn. by apply bool_decide_eq_true_2. Qed.

Lemma is_callback_io_read fd parsed :
  is_callback_io fd (io_read_callback fd parsed) = true.
Proof. cbn. by apply bool_decide_eq_true_2. Qed.

Lemma is_sent_write fd callback :
  function_name callback = "example" ->
  is_sent fd (io_write_callback fd callback true) = true.
Proof. intros Hname. cbn. by rewrite !bool_decide_eq_true_2. Qed.

Lemma is_received_read fd answer :
  is_received fd (io_read_callback fd (Some answer)) = true.
Proof. cbn. by apply bool_decide_eq_true_2. Qed.

Lemma exchanges_with_send fd callback :
  function_name callback = "example" ->
  exchanges_with fd [true] (ok ← write_callback fd callback; CHECK ok).
Proof.
  intros Hname os t. unfold mbind, run_bind, write_callback, CHECK.
  exists [io_write_callback fd callback (os_write os (length t))].
  destruct (os_write os (length t)) eqn:Hok; cbn [fst snd mret run_ret stop].
  - split; [done|]. split; [constructor; [apply is_callback_io_write|done]|].
    constructor; [by apply is_sent_write|constructor].
  - split; [done|]. split; [constructor; [apply is_callback_io_write|done]|done].
Qed.

Lemma exchanges_with_RunEchoCallback fd :
  exchanges_with fd [true; false] (RunEchoCallback fd).
Proof.
  intros os t. rewrite RunEchoCallback_run. cbv zeta.
  destruct (os_write os (length t)); [destruct (os_read os (S (length t)))|];
    cbn [fst snd]; eexists; (split; [reflexivity|]).
  - split.
    + constructor; [apply is_callback_io_write|].
      constructor; [apply is_callback_io_read|done].
    + constructor; [by apply is_sent_write|].
      constructor; [apply is_received_read|constructor].
  - split; [|done].
    constructor; [apply is_callback_io_write|].
    constructor; [apply is_callback_io_read|done].
  - split; [|done]. constructor; [apply is_callback_io_write|done].
Qed.

Lemma exchanges_with_repeat fd kinds count (m : Run unit) :
  exchanges_with fd kinds m ->
  exchanges_with fd (concat (replicate count kinds)) (repeat_times count m).
Proof.
  intros Hm. induction count as [|count IH]; cbn [replicate concat repeat_times].
  - apply exchanges_with_ret.
  - by apply exchanges_with_bind.
Qed.

Lemma exchanges_with_for_each {A : Type} fd (l : list A) (body : A -> Run unit)
    kinds :
  (forall x, exchanges_with fd kinds (body x)) ->
  exchanges_with fd (concat (replicate (length l) kinds)) (for_each l body).
Proof.
  intros Hbody. induction l as [|x l IH]; cbn [length replicate concat for_each].
  - apply exchanges_with_ret.
  - by apply exchanges_with_bind.
Qed.

Lemma receive_loop_step fd count recv_ids os t :
  receive_loop fd (S count) recv_ids os t
  = match os_read os (length t) with
    | None => (t ++ [io_read_callback fd None], inl Aborted)
    | Some answer =>
        if bool_decide (id answer ∈ send_ids)
           && bool_decide (id answer ∉ recv_ids)
        then receive_loop fd count ({[id answer]} ∪ recv_ids) os
               (t ++ [io_read_callback fd (Some answer)])
        else (t ++ [io_read_callback fd (Some answer)], inl Aborted)
    end.
Proof.
  cbn [receive_loop]. unfold mbind, run_bind, read_callback, CHECK, stop.
  destruct (os_read os (length t)) as [answer|]; [|done].
  destruct (bool_decide (id answer ∈ send_ids)); cbn [andb mret run_ret]; [|done].
  by destruct (bool_decide (id answer ∉ recv_ids)).
Qed.

Lemma exchanges_with_receive_loop fd count recv_ids :
  exchanges_with fd (replicate count false) (receive_loop fd count recv_ids).
Proof.
  revert recv_ids. induction count as [|count IH]; intros recv_ids.
  - apply exchanges_with_ret.
  - intros os t. rewrite receive_loop_step. cbn [replicate].
    assert (forall parsed,
              Forall (fun e => is_callback_io fd e = true)
                     [io_read_callback fd parsed]) as Hone.
    { intros parsed. constructor; [apply is_callback_io_read|done]. }
    destruct (os_read os (length t)) as [answer|] eqn:Hread.
    2:{ exists [io_read_callback fd None]. cbn [fst snd].
        split; [done|]. split; [apply Hone|done]. }
    destruct (_ && _).
    2:{ exists [io_read_callback fd (Some answer)]. cbn [fst snd].
        split; [done|]. split; [apply Hone|done]. }
    destruct (IH ({[id answer]} ∪ recv_ids) os
                (t ++ [io_read_callback fd (Some answer)]))
      as (calls & Hev & Hio & Hend).
    exists (io_read_callback fd (Some answer) :: calls).
    rewrite Hev, <- app_assoc. split; [done|].
    split; [constructor; [apply is_callback_io_read|done]|].
    destruct (snd _); [done|].
    constructor; [apply is_received_read|done].
Qed.

Lemma exchanges_with_RunConcurrentEchoCallback fd :
  exchanges_with fd (replicate 6 true ++ replicate 6 false)
    (RunConcurrentEchoCallback fd).
Proof.
  unfold RunConcurrentEchoCallback.
  change (replicate 6 true) with (concat (replicate 6 [true])).
  rewrite <- size_send_ids at 2.
  assert (length (elements send_ids) = 6%nat) as <- by apply size_send_ids.
  apply exchanges_with_bind.
  - apply exchanges_with_for_each. intros i. by apply exchanges_with_send.
  - apply exchanges_with_receive_loop.
Qed.

(** The sieve comes to its end. *)
Lemma RunPrimeSieve_returns r : exists r', RunPrimeSieve r = Some r'.
Proof.
  destruct (sieve_correct kPrimeCount r) as (L & Hrun & _);
    [unfold kPrimeCount; lia|].
  eexists. unfold RunPrimeSieve. exact Hrun.
Qed.

(** The [switch] of [main]: it does nothing but exchange callbacks on the
    comms descriptor, and the sieve comes to its end. *)
Lemma dispatch_run function fd os t :
  exists calls,
    fst (dispatch function fd empty_response os t) = t ++ calls
    /\ Forall (fun e => is_callback_io fd e = true) calls
    /\ match snd (dispatch function fd empty_response os t) with
       | inr response =>
           exchanged fd calls (exchanges function)
           /\ response_of function response
       | inl e => e = Aborted
       end.
Proof.
  assert (forall kinds (m : Run unit),
            exchanges_with fd kinds m ->
            exists calls,
              fst ((m ;; mret empty_response) os t) = t ++ calls
              /\ Forall (fun e => is_callback_io fd e = true) calls
              /\ match snd ((m ;; mret empty_response) os t) with
                 | inr response =>
                     exchanged fd calls kinds /\ response = empty_response
                 | inl e => e = Aborted
                 end) as Hcallbacks.
  { intros kinds m Hm. destruct (Hm os t) as (calls & Hev & Hio & Hend).
    exists calls. unfold mbind, run_bind.
    destruct (m os t) as [t1 [e|[]]]; cbn [fst snd mret run_ret] in *; done. }
  destruct function; cbn [dispatch exchanges response_of].
  - exists []. cbn. rewrite app_nil_r. repeat split; constructor.
  - destruct (RunPrimeSieve_returns empty_response) as (r' & Hrun).
    rewrite Hrun.
    exists []. cbn [fueled mret run_ret fst snd]. rewrite app_nil_r.
    split; [reflexivity|]. split; [constructor|]. split; [constructor|].
    reflexivity.
  - apply Hcallbacks, exchanges_with_RunEchoCallback.
  - apply Hcallbacks, exchanges_with_repeat, exchanges_with_RunEchoCallback.
  - apply Hcallbacks, exchanges_with_RunConcurrentEchoCallback.
  - exists []. cbn. rewrite app_nil_r. repeat split; constructor.
Qed.

(** All runs of [main]. *)
Lemma main_cases atoi argv os :
  ((length argv < 3)%nat /\ main atoi argv os = ([], Returned (-1)))
  \/ (3 <= length argv)%nat
     /\ (atoi (nth 2 argv "") = None /\ main atoi argv os = ([], Aborted)
         \/ exists comms_fd,
              atoi (nth 2 argv "") = Some comms_fd
              /\ (atoi (nth 1 argv "") = None
                  /\ main atoi argv os
                     = ([io_parse_request STDIN_FILENO], Aborted)
                  \/ exists write_fd calls,
                       atoi (nth 1 argv "") = Some write_fd
                       /\ Forall (fun e => is_callback_io comms_fd e = true) calls
                       /\ (main atoi argv os
                           = (io_parse_request STDIN_FILENO :: calls, Aborted)
                           \/ exists response,
                                exchanged comms_fd calls
                                  (exchanges (os_function os))
                                /\ response_of (os_function os) response
                                /\ ((exists ret,
                                       ret <> 0
                                       /\ main atoi argv os
                                          = (io_parse_request STDIN_FILENO
                                               :: calls ++ [io_close comms_fd ret],
                                             Aborted))
                                    \/ exists ret,
                                         main atoi argv os
                                         = (io_parse_request STDIN_FILENO
                                              :: calls
                                              ++ [io_close comms_fd 0;
                                                  io_write_response write_fd
                                                    response;
                                                  io_close write_fd ret],
                                            Returned 0))))).
Proof.
  unfold main, main_body.
  destruct (Nat.ltb_spec (length argv) 3) as [Hlt|Hge]; [by left|right].
  split; [done|].
  unfold mbind, run_bind, CHECK_SimpleAtoi, parse_request, close, CHECK,
    write_response, mret, run_ret, stop.
  destruct (atoi (nth 2 argv "")) as [comms_fd|]; [right|by left].
  exists comms_fd. split; [done|]. cbn [app].
  destruct (atoi (nth 1 argv "")) as [write_fd|]; [right|by left].
  destruct (dispatch_run (os_function os) comms_fd os
              [io_parse_request STDIN_FILENO]) as (calls & Hev & Hio & Hend).
  exists write_fd, calls. split; [done|]. split; [done|].
  destruct (dispatch (os_function os) comms_fd empty_response os
              [io_parse_request STDIN_FILENO]) as [t1 [e|response]];
    cbn [fst snd] in Hev, Hend; subst t1; cbn [app].
  { left. by subst e. }
  right. destruct Hend as [Hcalls Hresp]. exists response.
  split; [done|]. split; [exact Hresp|]. clear Hresp.
  cbn [length].
  destruct (Z.eqb_spec (os_close os (S (length calls))) 0) as [Hz|Hnz].
  - right. eexists. rewrite Hz. cbv beta iota.
    apply pair_equal_spec. split; [|done].
    rewrite <- !app_assoc. cbn [app]. rewrite <- ?app_assoc. reflexivity.
  - left. by eexists.
Qed.

(** X16: a run of [main] that returns 0 has read the request from the
    standard input, made the exchanges of callbacks of the requested
    function on the descriptor of [argv[2]], every one with success, closed
    that descriptor with success, written the response of the function to
    the descriptor of [argv[1]] and closed it; and nothing else. *)
Theorem main_returns_zero atoi argv os t :
  main atoi argv os = (t, Returned 0) ->
  exists comms_fd write_fd calls response ret,
    atoi (nth 2 argv "") = Some comms_fd
    /\ atoi (nth 1 argv "") = Some write_fd
    /\ t = io_parse_request STDIN_FILENO
           :: calls ++ [io_close comms_fd 0;
                        io_write_response write_fd response;
                        io_close write_fd ret]
    /\ exchanged comms_fd calls (exchanges (os_function os))
    /\ response_of (os_function os) response.
Proof.
  intros Hrun.
  destruct (main_cases atoi argv os)
    as [[_ Heq]|[_ [[_ Heq]|(comms_fd & Hcomms & [[_ Heq]|
         (write_fd & calls & Hwrite & _ & [Heq|(response & Hcalls & Hresp
            & [(ret & _ & Heq)|[ret Heq]])])])]]];
    rewrite Heq in Hrun; try discriminate Hrun.
  exists comms_fd, write_fd, calls, response, ret.
  split; [done|]. split; [done|]. split; [congruence|].
  split; [exact Hcalls|exact Hresp].
Qed.

Lemma main_sample_run :
  main sample_atoi sample_argv (sample_os FUNCTION_CONCURRENT_CALLBACKS)
  = (sample_trace, Returned 0).
Proof. vm_compute. reflexivity. Qed.

Lemma main_returns_zero_witness :
  main sample_atoi sample_argv (sample_os FUNCTION_CONCURRENT_CALLBACKS)
  = (sample_trace, Returned 0)
  /\ exists comms_fd write_fd calls response ret,
       sample_atoi (nth 2 sample_argv "") = Some comms_fd
       /\ sample_atoi (nth 1 sample_argv "") = Some write_fd
       /\ sample_trace
          = io_parse_request STDIN_FILENO
            :: calls ++ [io_close comms_fd 0;
                         io_write_response write_fd response;
                         io_close write_fd ret]
       /\ exchanged comms_fd calls
            (exchanges (os_function (sample_os FUNCTION_CONCURRENT_CALLBACKS)))
       /\ response_of (os_function (sample_os FUNCTION_CONCURRENT_CALLBACKS))
            response.
Proof.
  exact (conj main_sample_run
           (main_returns_zero sample_atoi sample_argv
              (sample_os FUNCTION_CONCURRENT_CALLBACKS) sample_trace
              main_sample_run)).
Defined.

(** X17: however a run of [main] ends, a response is written at most
    once in it: as the last step but one, to the descriptor of [argv[1]],
    right after the descriptor of [argv[2]] was closed with success, and in
    a run that returns 0. The sieve never keeps [main] from ending. *)
Theorem main_writes_response_last atoi argv os t e :
  main atoi argv os = (t, e) ->
  e <> OutOfFuel
  /\ forall i fd response,
       t !! i = Some (io_write_response fd response) ->
       e = Returned 0
       /\ S (S i) = length t
       /\ atoi (nth 1 argv "") = Some fd
       /\ exists comms_fd,
            atoi (nth 2 argv "") = Some comms_fd
            /\ t !! pred i = Some (io_close comms_fd 0).
Proof.
  intros Hrun.
  assert (forall fd calls i fd' response,
            Forall (fun e => is_callback_io fd e = true) calls ->
            calls !! i = Some (io_write_response fd' response) -> False)
    as Hnone.
  { intros fd calls i fd' response Hio Hi.
    rewrite Forall_forall in Hio. apply list_elem_of_lookup_2, Hio in Hi.
    discriminate Hi. }
  destruct (main_cases atoi argv os)
    as [[_ Heq]|[_ [[_ Heq]|(comms_fd & Hcomms & [[_ Heq]|
         (write_fd & calls & Hwrite & Hio & [Heq|(response & _ & _
            & [(ret & _ & Heq)|[ret Heq]])])])]]];
    rewrite Heq in Hrun; apply pair_equal_spec in Hrun as [<- <-];
    (split; [discriminate|]); intros i fd response' Hi.
  - by rewrite lookup_nil in Hi.
  - by rewrite lookup_nil in Hi.
  - destruct i as [|i]; [discriminate Hi|]. simpl in Hi.
    by rewrite lookup_nil in Hi.
  - destruct i as [|i]; [discriminate Hi|]. simpl in Hi. by eapply Hnone in Hi.
  - destruct i as [|i]; [discriminate Hi|]. simpl in Hi.
    apply lookup_app_Some in Hi as [Hi|[_ Hi]]; [by eapply Hnone in Hi|].
    destruct (i - length calls)%nat as [|[|?]]; discriminate Hi.
  - destruct i as [|i]; [discriminate Hi|]. simpl in Hi.
    apply lookup_app_Some in Hi as [Hi|[Hge Hi]]; [by eapply Hnone in Hi|].
    destruct (i - length calls)%nat as [|[|[|?]]] eqn:Hpos;
      try discriminate Hi.
    assert (fd = write_fd) as -> by (simpl in Hi; congruence).
    split; [done|]. cbn [length]. rewrite length_app. cbn [length].
    split; [lia|]. split; [done|].
    exists comms_fd. split; [done|].
    assert (i = S (length calls)) as -> by lia. simpl.
    by apply list_lookup_middle.
Qed.

Lemma main_writes_response_last_witness :
  main sample_atoi sample_argv (sample_os FUNCTION_CONCURRENT_CALLBACKS)
  = (sample_trace, Returned 0)
  /\ Returned 0 <> OutOfFuel
  /\ forall i fd response,
       sample_trace !! i = Some (io_write_response fd response) ->
       Returned 0 = Returned 0
       /\ S (S i) = length sample_trace
       /\ sample_atoi (nth 1 sample_argv "") = Some fd
       /\ exists comms_fd,
            sample_atoi (nth 2 sample_argv "") = Some comms_fd
            /\ sample_trace !! pred i = Some (io_close comms_fd 0).
Proof.
  exact (conj main_sample_run
           (main_writes_response_last sample_atoi sample_argv
              (sample_os FUNCTION_CONCURRENT_CALLBACKS) sample_trace
              (Returned 0) main_sample_run)).
Defined.

(** X18: [main] checks its arguments before it acts on them: with fewer
    than three it returns -1 at once; when [argv[2]] is no number it
    aborts before it reads the request; when [argv[1]] is no number it
    aborts right after, before any callback. *)
Theorem main_checks_arguments atoi argv os :
  ((length argv < 3)%nat -> main atoi argv os = ([], Returned (-1)))
  /\ ((3 <= length argv)%nat -> atoi (nth 2 argv "") = None ->
      main atoi argv os = ([], Aborted))
  /\ ((3 <= length argv)%nat -> atoi (nth 2 argv "") <> None ->
      atoi (nth 1 argv "") = None ->
      main atoi argv os = ([io_parse_request STDIN_FILENO], Aborted)).
Proof.
  destruct (main_cases atoi argv os)
    as [[Hlen Heq]|[Hlen [[Hcomms Heq]|(comms_fd & Hcomms & [[Hwrite Heq]|
         (write_fd & calls & Hwrite & _)])]]].
  - split; [done|]. split; intros; lia.
  - split; [intros; lia|]. split; [done|]. intros _ Hsome. done.
  - split; [intros; lia|]. split; [|done]. intros _ Hnone. congruence.
  - split; [intros; lia|]. split; intros; congruence.
Qed.

End SampleBinaryFacts.

(** ** The shell of the tools *)

Section ShellFacts.
Import Text Shell.
Variable service_specific_message_ : string.
Variable load_fn_ : nat -> string -> StatusOr.
Variable execute_fn_ : nat -> string -> string -> string -> StatusOr.
Variable can_append : nat -> string -> bool.

Lemma eval_load_result command s : fst (eval_load load_fn_ command s) <> None.
Proof. unfold eval_load, fail. by repeat case_match. Qed.

Lemma eval_rpc_result command s :
  fst (eval_rpc execute_fn_ can_append command s) <> None.
Proof. unfold eval_rpc, fail. cbv zeta. by repeat case_match. Qed.

Lemma commands_loop_ext eval eval' file_lines s :
  (forall line s, eval line s = eval' line s) ->
  commands_loop eval file_lines s = commands_loop eval' file_lines s.
Proof.
  intros Hext. revert s. induction file_lines as [|line rest IH]; intros s;
    cbn [commands_loop]; [done|].
  rewrite Hext. destruct (eval' line s) as [[[]|] s']; by rewrite ?IH.
Qed.

Lemma commands_loop_result eval file_lines s :
  (forall line s, fst (eval line s) <> None) ->
  fst (commands_loop eval file_lines s) <> None.
Proof.
  intros Hres. revert s. induction file_lines as [|line rest IH]; intros s;
    cbn [commands_loop]; [done|].
  specialize (Hres line s).
  destruct (eval line s) as [[[]|] s']; by try apply IH.
Qed.

Lemma EvalAndPrint_body_ext eval eval' line disable_commands s :
  (forall line s, eval line s = eval' line s) ->
  EvalAndPrint_body service_specific_message_ load_fn_ execute_fn_ can_append
    eval line disable_commands s
  = EvalAndPrint_body service_specific_message_ load_fn_ execute_fn_ can_append
      eval' line disable_commands s.
Proof.
  intros Hext. unfold EvalAndPrint_body, eval_commands.
  repeat case_match; try done. by apply commands_loop_ext.
Qed.

Lemma EvalAndPrint_body_result eval line disable_commands s :
  (forall line s, fst (eval line s) <> None) ->
  fst (EvalAndPrint_body service_specific_message_ load_fn_ execute_fn_
         can_append eval line disable_commands s) <> None.
Proof.
  intros Hres. unfold EvalAndPrint_body, eval_commands, fail.
  repeat case_match; try done;
    auto using commands_loop_result, eval_load_result, eval_rpc_result.
Qed.

(** With [disable_commands] set, [EvalAndPrint] does not call itself. *)
Lemma EvalAndPrint_body_disabled eval eval' line s :
  EvalAndPrint_body service_specific_message_ load_fn_ execute_fn_ can_append
    eval line true s
  = EvalAndPrint_body service_specific_message_ load_fn_ execute_fn_ can_append
      eval' line true s.
Proof. unfold EvalAndPrint_body, eval_commands. by repeat case_match. Qed.

Lemma EvalAndPrint_disabled_result eval line s :
  fst (EvalAndPrint_body service_specific_message_ load_fn_ execute_fn_
         can_append eval line true s) <> None.
Proof.
  unfold EvalAndPrint_body, eval_commands, fail.
  repeat case_match; try done; auto using eval_load_result, eval_rpc_result.
Qed.

(** X19: [EvalAndPrint] calls itself one level deep and no deeper, as a
    commands file cannot start another: evaluated with room for two
    levels it comes to a result, and with more room to the same one. *)
Theorem EvalAndPrint_one_level fuel line disable_commands s :
  fst (EvalAndPrint service_specific_message_ load_fn_ execute_fn_ can_append
         2 line disable_commands s) <> None
  /\ EvalAndPrint service_specific_message_ load_fn_ execute_fn_ can_append
       (S (S fuel)) line disable_commands s
     = EvalAndPrint service_specific_message_ load_fn_ execute_fn_ can_append
         2 line disable_commands s
  /\ EvalAndPrint service_specific_message_ load_fn_ execute_fn_ can_append
       (S fuel) line true s
     = EvalAndPrint service_specific_message_ load_fn_ execute_fn_ can_append
         1 line true s.
Proof.
  split; [|split].
  - cbn [EvalAndPrint]. apply EvalAndPrint_body_result.
    intros line' s'. apply EvalAndPrint_disabled_result.
  - cbn [EvalAndPrint]. apply EvalAndPrint_body_ext.
    intros line' s'. destruct fuel; [done|]. apply EvalAndPrint_body_disabled.
  - cbn [EvalAndPrint]. apply EvalAndPrint_body_disabled.
Qed.

(** *** What a step keeps *)

Lemma loaded_tokens_app t1 t2 :
  loaded_tokens (t1 ++ t2) = loaded_tokens t1 ++ loaded_tokens t2.
Proof. apply omap_app. Qed.

Lemma executions_app t1 t2 :
  executions (t1 ++ t2) = executions t1 ++ executions t2.
Proof. apply omap_app. Qed.

Lemma tokens_from_load_print e s :
  tokens_from_load s ->
  (forall rpc token request result,
     e = execute_call rpc token request result ->
     token ∈ loaded_tokens (output s)) ->
  tokens_from_load (print e s).
Proof.
  intros [Hheld Hused] He. split; cbn [print rpc_to_token_ output].
  - intros rpc token Hin. rewrite loaded_tokens_app.
    apply elem_of_app. left. by eapply Hheld.
  - intros i rpc token request result Hi.
    apply lookup_app_Some in Hi as [Hi|[Hge Hi]].
    + pose proof (lookup_lt_Some _ _ _ Hi) as Hlt.
      rewrite take_app_le by lia. by eapply Hused.
    + destruct (i - length (output s))%nat as [|?] eqn:Hpos; [|done].
      assert (i = length (output s)) as -> by lia.
      assert (e = execute_call rpc token request result) as Heq
        by (cbn in Hi; congruence).
      rewrite take_app_length. by eapply He.
Qed.

Lemma tokens_from_load_set_token rpc token s :
  tokens_from_load s -> token ∈ loaded_tokens (output s) ->
  tokens_from_load (set_token rpc token s).
Proof.
  intros [Hheld Hused] Htoken. split; cbn [set_token rpc_to_token_ output];
    [|done].
  intros rpc' token' [[_ [= <-]]|[_ Hin]]%lookup_insert_Some; [done|].
  by eapply Hheld.
Qed.

Lemma tokens_from_load_set_files f s :
  tokens_from_load s -> tokens_from_load (set_files f s).
Proof. done. Qed.

Lemma keeps_refl s : keeps s s.
Proof. split; [done|]. split; [done|]. exists []. by rewrite app_nil_r. Qed.

Lemma keeps_trans s1 s2 s3 : keeps s1 s2 -> keeps s2 s3 -> keeps s1 s3.
Proof.
  intros (Ht1 & Hd1 & new1 & Ho1) (Ht2 & Hd2 & new2 & Ho2).
  split; [auto|]. split; [congruence|].
  exists (new1 ++ new2). by rewrite Ho2, Ho1, app_assoc.
Qed.

Lemma keeps_print e s :
  (forall rpc token request result,
     e = execute_call rpc token request result ->
     tokens_from_load s -> token ∈ loaded_tokens (output s)) ->
  keeps s (print e s).
Proof.
  intros He. split; [|split; [done|by exists [e]]].
  intros Hs. apply tokens_from_load_print; [done|]. eauto.
Qed.

Lemma keeps_fail text s : keeps s (snd (fail text s)).
Proof. apply keeps_print. intros; discriminate. Qed.

Lemma keeps_set_token rpc token s :
  is_Some (rpc_to_token_ s !! rpc) ->
  token ∈ loaded_tokens (output s) ->
  keeps s (set_token rpc token s).
Proof.
  intros Hin Htoken. split; [|split; [|exists []; by rewrite app_nil_r]].
  - intros Hs. by apply tokens_from_load_set_token.
  - cbn [set_token rpc_to_token_]. by apply dom_insert_lookup_L.
Qed.

Lemma keeps_set_files f s : keeps s (set_files f s).
Proof. split; [done|]. split; [done|]. exists []. by rewrite app_nil_r. Qed.

Lemma eval_load_keeps command s : keeps s (snd (eval_load load_fn_ command s)).
Proof.
  unfold eval_load. destruct (negb _); [apply keeps_fail|].
  destruct (rpc_to_token_ s !! nth 1 command "") as [old|] eqn:Hrpc;
    [|apply keeps_fail].
  cbv zeta.
  destruct (load_fn_ (length (output s)) (nth 2 command "")) as [status|token].
  - eapply keeps_trans; [|apply keeps_fail].
    apply keeps_print. intros; discriminate.
  - cbn [snd]. eapply keeps_trans; [|apply keeps_set_token].
    + eapply keeps_trans; [|apply keeps_print; intros; discriminate].
      apply keeps_print. intros; discriminate.
    + cbn [print rpc_to_token_]. by rewrite Hrpc.
    + cbn [print output]. rewrite !loaded_tokens_app. cbn.
      apply elem_of_app. left. apply elem_of_app. right.
      apply list_elem_of_here.
Qed.

Lemma eval_rpc_keeps command s :
  keeps s (snd (eval_rpc execute_fn_ can_append command s)).
Proof.
  unfold eval_rpc. cbv zeta.
  destruct (rpc_to_token_ s !! nth 0 command "") as [loaded|] eqn:Hrpc;
    [|apply keeps_fail].
  destruct (_ && _); [apply keeps_fail|].
  destruct loaded as [token|]; [|apply keeps_fail].
  destruct (files s !! nth 1 command "") as [request|]; [|apply keeps_fail].
  assert (keeps s
            (print (execute_call (nth 0 command "") token request
                      (execute_fn_ (length (output s)) (nth 0 command "")
                         token request)) s)) as Hcall.
  { apply keeps_print. intros rpc token' request' result [= _ <- _ _] [Hheld _].
    by eapply Hheld. }
  destruct (execute_fn_ _ _ _ _) as [status|response].
  - eapply keeps_trans; [exact Hcall|apply keeps_fail].
  - cbn [snd]. eapply keeps_trans; [|apply keeps_print; intros; discriminate].
    destruct (length command =? 3)%nat; [|exact Hcall].
    destruct (can_append _ _).
    + eapply keeps_trans; [|apply keeps_set_files].
      eapply keeps_trans; [exact Hcall|].
      apply keeps_print. intros; discriminate.
    + eapply keeps_trans; [exact Hcall|].
      apply keeps_print. intros; discriminate.
Qed.

Lemma commands_loop_keeps eval file_lines s :
  (forall line s, keeps s (snd (eval line s))) ->
  keeps s (snd (commands_loop eval file_lines s)).
Proof.
  intros Heval. revert s. induction file_lines as [|line rest IH]; intros s;
    cbn [commands_loop]; [apply keeps_refl|].
  specialize (Heval line s).
  destruct (eval line s) as [[[]|] s']; cbn [snd] in *; try done.
  by eapply keeps_trans.
Qed.

Lemma EvalAndPrint_body_keeps eval line disable_commands s :
  (forall line s, keeps s (snd (eval line s))) ->
  keeps s (snd (EvalAndPrint_body service_specific_message_ load_fn_
                  execute_fn_ can_append eval line disable_commands s)).
Proof.
  intros Heval. unfold EvalAndPrint_body.
  destruct (StrSplit line) as [|front args]; [apply keeps_refl|].
  destruct (String.eqb front "exit"); [apply keeps_refl|].
  destruct (_ || _); [apply keeps_print; intros; discriminate|].
  destruct (String.eqb front "commands").
  { unfold eval_commands. destruct disable_commands; [apply keeps_fail|].
    destruct (negb _); [apply keeps_fail|].
    destruct (files s !! _); [|apply keeps_fail].
    by apply commands_loop_keeps. }
  destruct (_ || _); [apply eval_load_keeps|apply eval_rpc_keeps].
Qed.

Lemma EvalAndPrint_keeps fuel line disable_commands s :
  keeps s (snd (EvalAndPrint service_specific_message_ load_fn_ execute_fn_
                  can_append fuel line disable_commands s)).
Proof.
  revert line disable_commands s. induction fuel as [|fuel IH];
    intros line disable_commands s; cbn [EvalAndPrint]; [apply keeps_refl|].
  apply EvalAndPrint_body_keeps. intros line' s'. apply IH.
Qed.

(** X20: the evaluator never makes up a token: when every token it holds
    and every token passed to the execute function so far came from the
    load function, this is so after any command as well. A command never
    adds or removes an rpc, and never takes back an output. *)
Theorem EvalAndPrint_tokens_come_from_load fuel line disable_commands s :
  tokens_from_load s ->
  tokens_from_load
    (snd (EvalAndPrint service_specific_message_ load_fn_ execute_fn_
            can_append fuel line disable_commands s))
  /\ dom (rpc_to_token_
            (snd (EvalAndPrint service_specific_message_ load_fn_ execute_fn_
                    can_append fuel line disable_commands s)))
     = dom (rpc_to_token_ s)
  /\ exists new,
       output (snd (EvalAndPrint service_specific_message_ load_fn_
                      execute_fn_ can_append fuel line disable_commands s))
       = output s ++ new.
Proof.
  intros Hs.
  destruct (EvalAndPrint_keeps fuel line disable_commands s) as (Ht & Hd & Ho).
  auto.
Qed.

(** A new evaluator holds no token. *)
Lemma ShellEvaluator_no_token rpcs fs rpc loaded :
  rpc_to_token_ (ShellEvaluator rpcs fs) !! rpc = Some loaded -> loaded = None.
Proof.
  cbn [ShellEvaluator rpc_to_token_].
  assert (forall m : gmap string (option string),
            (forall r l, m !! r = Some l -> l = None) ->
            forall r l,
              foldl (fun m rpc => <[rpc := None]> m) m rpcs !! r = Some l ->
              l = None) as Hfold.
  { induction rpcs as [|x rpcs IH]; intros m Hm r l; cbn [foldl]; [apply Hm|].
    apply IH. intros r' l' [[_ <-]|[_ Hin]]%lookup_insert_Some; [done|].
    by eapply Hm. }
  apply Hfold. intros r l Hin. by rewrite lookup_empty in Hin.
Qed.

Lemma tokens_from_load_ShellEvaluator rpcs fs :
  tokens_from_load (ShellEvaluator rpcs fs).
Proof.
  split.
  - intros rpc token Hin. by apply ShellEvaluator_no_token in Hin.
  - intros i rpc token request result Hi. cbn in Hi. by rewrite lookup_nil in Hi.
Qed.

Lemma is_shell_command_false front :
  is_shell_command front = false ->
  String.eqb front "exit" = false
  /\ (String.eqb front "help" || String.eqb front "h" || String.eqb front "?")
     = false
  /\ String.eqb front "commands" = false
  /\ (String.eqb front "load" || String.eqb front "l") = false.
Proof.
  unfold is_shell_command.
  destruct (String.eqb front "exit"), (String.eqb front "help"),
    (String.eqb front "h"), (String.eqb front "?"),
    (String.eqb front "commands"), (String.eqb front "load"),
    (String.eqb front "l"); done.
Qed.

(** X21: the call of an rpc for which no UDF was loaded is an error: the
    execute function is not called and no file is read or written; all
    that happens is the message. *)
Theorem rpc_without_udf_is_an_error fuel line disable_commands s rpc args :
  StrSplit line = rpc :: args ->
  is_shell_command rpc = false ->
  rpc_to_token_ s !! rpc = Some None ->
  (length args = 1 \/ length args = 2)%nat ->
  EvalAndPrint service_specific_message_ load_fn_ execute_fn_ can_append
    (S fuel) line disable_commands s
  = (Some kError,
     print (cerr ("No UDF loaded for '" +:+ rpc +:+ "'" +:+ nl)) s).
Proof.
  intros Hsplit (Hexit & Hhelp & Hcommands & Hload)%is_shell_command_false
    Hrpc Hargs.
  cbn [EvalAndPrint]. unfold EvalAndPrint_body.
  rewrite Hsplit, Hexit, Hhelp, Hcommands, Hload.
  unfold eval_rpc. cbv zeta. cbn [nth length]. rewrite Hrpc.
  by destruct Hargs as [-> | ->].
Qed.

(** X22: after a load that succeeds, the rpc is executed with the token
    that load returned, whatever was loaded for it before, and on the
    content of the request file. *)
Theorem loaded_token_is_executed fuel line1 line2 disable_commands s
    ld rpc udf old token req request :
  StrSplit line1 = [ld; rpc; udf] ->
  ld = "load" \/ ld = "l" ->
  rpc_to_token_ s !! rpc = Some old ->
  load_fn_ (length (output s)) udf = inr token ->
  StrSplit line2 = [rpc; req] ->
  is_shell_command rpc = false ->
  files s !! req = Some request ->
  exists s1,
    EvalAndPrint service_specific_message_ load_fn_ execute_fn_ can_append
      (S fuel) line1 disable_commands s = (Some kContinue, s1)
    /\ rpc_to_token_ s1 = <[rpc := Some token]> (rpc_to_token_ s)
    /\ executions
         (drop (length (output s))
            (output (snd (EvalAndPrint service_specific_message_ load_fn_
                            execute_fn_ can_append (S fuel) line2
                            disable_commands s1))))
       = [(rpc, token, request)].
Proof.
  intros Hsplit1 Hld Hrpc Hload Hsplit2
    (Hexit & Hhelp & Hcommands & Hnoload)%is_shell_command_false Hreq.
  eexists. split; [|split].
  - cbn [EvalAndPrint]. unfold EvalAndPrint_body. rewrite Hsplit1.
    assert (String.eqb ld "exit" = false
            /\ (String.eqb ld "help" || String.eqb ld "h" || String.eqb ld "?")
               = false
            /\ String.eqb ld "commands" = false
            /\ (String.eqb ld "load" || String.eqb ld "l") = true)
      as (-> & -> & -> & ->) by (by destruct Hld as [-> | ->]).
    unfold eval_load. cbv zeta. cbn [nth length Nat.eqb negb].
    rewrite Hrpc, Hload. reflexivity.
  - reflexivity.
  - cbn [EvalAndPrint]. unfold EvalAndPrint_body.
    rewrite Hsplit2, Hexit, Hhelp, Hcommands, Hnoload.
    unfold eval_rpc. cbv zeta.
    cbn [nth length Nat.eqb negb andb set_token print rpc_to_token_ files output].
    rewrite lookup_insert_eq, Hreq.
    destruct (execute_fn_ _ _ _ _) as [status|response];
      cbn [snd fail print set_token output];
      rewrite <- !app_assoc, drop_app_length; reflexivity.
Qed.

Lemma split_all_space line :
  all_space line = true -> Forall (fun piece => all_space piece = true) (split line).
Proof.
  induction line as [|c r IH]; cbn [all_space split].
  - by repeat constructor.
  - intros [Hc Hr]%andb_true_iff. specialize (IH Hr).
    destruct (Ascii.eqb c " "); [by constructor|].
    destruct (split r) as [|piece pieces].
    + repeat constructor. cbn. by rewrite Hc.
    + apply Forall_cons in IH as [Hpiece Hpieces].
      constructor; [|done]. cbn. by rewrite Hc.
Qed.

(** X23: a line with nothing on it but white space is no command: the
    evaluator goes on and nothing has happened. *)
Theorem EvalAndPrint_blank_line fuel line disable_commands s :
  all_space line = true ->
  EvalAndPrint service_specific_message_ load_fn_ execute_fn_ can_append
    (S fuel) line disable_commands s
  = (Some kContinue, s).
Proof.
  intros Hblank. cbn [EvalAndPrint]. unfold EvalAndPrint_body.
  assert (StrSplit line = []) as ->; [|done].
  unfold StrSplit. apply split_all_space in Hblank.
  induction Hblank as [|piece pieces Hpiece _ IH]; [done|].
  cbn [List.filter]. by rewrite Hpiece.
Qed.



End ShellFacts.

Section ShellWitnesses.
Import Text Shell.

Lemma EvalAndPrint_tokens_come_from_load_witness :
  tokens_from_load sample_shell
  /\ tokens_from_load
       (snd (EvalAndPrint "" sample_load_fn sample_execute_fn sample_can_append
               2 "commands cmds.txt" false sample_shell))
  /\ dom (rpc_to_token_
            (snd (EvalAndPrint "" sample_load_fn sample_execute_fn
                    sample_can_append 2 "commands cmds.txt" false sample_shell)))
     = dom (rpc_to_token_ sample_shell)
  /\ exists new,
       output (snd (EvalAndPrint "" sample_load_fn sample_execute_fn
                      sample_can_append 2 "commands cmds.txt" false
                      sample_shell))
       = output sample_shell ++ new.
Proof.
  exact (conj (tokens_from_load_ShellEvaluator ["echo"] sample_files)
           (EvalAndPrint_tokens_come_from_load "" sample_load_fn
              sample_execute_fn sample_can_append 2 "commands cmds.txt" false
              sample_shell
              (tokens_from_load_ShellEvaluator ["echo"] sample_files))).
Defined.

Lemma rpc_without_udf_is_an_error_witness :
  StrSplit "echo req.json" = ["echo"; "req.json"]
  /\ is_shell_command "echo" = false
  /\ rpc_to_token_ sample_shell !! "echo" = Some None
  /\ (length ["req.json"] = 1 \/ length ["req.json"] = 2)%nat
  /\ EvalAndPrint "" sample_load_fn sample_execute_fn sample_can_append
       1 "echo req.json" false sample_shell
     = (Some kError,
        print (cerr ("No UDF loaded for '" +:+ "echo" +:+ "'" +:+ nl))
          sample_shell).
Proof.
  assert (rpc_to_token_ sample_shell !! "echo" = Some None) as Hrpc
    by (vm_compute; reflexivity).
  exact (conj eq_refl (conj eq_refl (conj Hrpc (conj (or_introl eq_refl)
           (rpc_without_udf_is_an_error "" sample_load_fn sample_execute_fn
              sample_can_append 0 "echo req.json" false sample_shell
              "echo" ["req.json"] eq_refl eq_refl Hrpc (or_introl eq_refl)))))).
Defined.

Lemma loaded_token_is_executed_witness :
  StrSplit "load echo udf" = ["load"; "echo"; "udf"]
  /\ ("load" = "load" \/ "load" = "l")
  /\ rpc_to_token_ sample_shell !! "echo" = Some None
  /\ sample_load_fn (length (output sample_shell)) "udf"
     = inr "0f8fad5b-d9cb-469f-a165-70867728950e"
  /\ StrSplit "echo req.json" = ["echo"; "req.json"]
  /\ is_shell_command "echo" = false
  /\ files sample_shell !! "req.json" = Some "{}"
  /\ exists s1,
       EvalAndPrint "" sample_load_fn sample_execute_fn sample_can_append
         1 "load echo udf" false sample_shell = (Some kContinue, s1)
       /\ rpc_to_token_ s1
          = <["echo" := Some "0f8fad5b-d9cb-469f-a165-70867728950e"]>
              (rpc_to_token_ sample_shell)
       /\ executions
            (drop (length (output sample_shell))
               (output (snd (EvalAndPrint "" sample_load_fn sample_execute_fn
                               sample_can_append 1 "echo req.json" false s1))))
          = [("echo", "0f8fad5b-d9cb-469f-a165-70867728950e", "{}")].
Proof.
  assert (rpc_to_token_ sample_shell !! "echo" = Some None) as Hrpc
    by (vm_compute; reflexivity).
  assert (files sample_shell !! "req.json" = Some "{}") as Hreq
    by (vm_compute; reflexivity).
  exact (conj eq_refl (conj (or_introl eq_refl) (conj Hrpc (conj eq_refl
           (conj eq_refl (conj eq_refl (conj Hreq
              (loaded_token_is_executed "" sample_load_fn sample_execute_fn
                 sample_can_append 0 "load echo udf" "echo req.json" false
                 sample_shell "load" "echo" "udf" None
                 "0f8fad5b-d9cb-469f-a165-70867728950e" "req.json" "{}"
                 eq_refl (or_introl eq_refl) Hrpc eq_refl eq_refl eq_refl
                 Hreq)))))))).
Defined.

Lemma EvalAndPrint_blank_line_witness :
  all_space "   " = true
  /\ EvalAndPrint "" sample_load_fn sample_execute_fn sample_can_append
       1 "   " false sample_shell
     = (Some kContinue, sample_shell).
Proof.
  exact (conj eq_refl
           (EvalAndPrint_blank_line "" sample_load_fn sample_execute_fn
              sample_can_append 0 "   " false sample_shell eq_refl)).
Defined.


End ShellWitnesses.


